(* ===== verification/_CoqProject ===== *)
-Q . S2P
Prelude.v
JsSort.v
Listing.v
Dedup.v
Select.v
Breakdown.v
Editor.v
CatalogData.v
Garage.v
Views.v
Animation.v
Scrolly.v
Links.v
Youtube.v
BrandGrid.v
CatalogModal.v
