(* ===== verification/Prelude.v ===== *)
(** * EV listing garage: a verification development

    This library models the client-side logic of the EV listing web
    application under [src/web/src] and proves what makes it correct.
    The application is a React single page.  What its markup computes
    from the data (colours, badges, texts, previews) is modelled as
    functions of a car; CSS and icons are left out.  The state it changes (React hooks, the Firestore collection,
    [localStorage], requests and timers in flight) is modelled as
    explicit state passing, with one event per handler or completion.

    ** How the program's parts fit together

    The app has two tabs.  The catalog tab ([BrandGrid.tsx]) lists the
    brands of [brandLogos.ts]; a model row opens the catalog modal
    ([CatalogDetailModal.tsx]) on a car of [cars_static.ts], with search
    links to eight bazaar sites ([linkGenerators.ts]), review videos
    ([videoUtils.ts], plus the user's own, kept in [localStorage]), a
    loan calculator, and an "analyse" input that hands a URL to the
    garage.  The garage tab is driven by [App.tsx]: [fetchCars] reads the
    Firestore collection and reconciles the documents into [Car]
    records; the list shown is the deduplicated, timestamp-sorted
    [uniqueCars]; the filter box and the sort selector turn it into
    [processedCars]; [handleAnalyze] sends a URL or text to the analysis
    service, which writes a new document, and refreshes 2 s later;
    [handleDeleteCar], [handleClearGarage] and [handleUpdateCar] write to
    the collection; the detail modal ([CarDetailModal.tsx]) edits notes,
    tags and links, and its calculator tab ([ScrollytellingCalculator.tsx])
    reveals the cost sections of a record as the user scrolls.

    ** Files (in dependency order), and what each models

    - [Prelude.v] (this file): the JavaScript value conventions shared
      by the model: numbers that may be absent ([option Z]) with the
      truthiness of [||], ASCII [toLowerCase], [includes], [trim],
      [split('?')[0]], and code-point strings [ustring] (with [u], the
      UTF-8 decoding of a literal, [uprefix] and [uincludes]); their
      lemmas, the [garage] hint database and the tactics.
    - [JsSort.v]: [Array.prototype.sort] with a comparator, as a stable
      insertion sort ([js_sort]).  The ECMAScript contract (a stable,
      sorted permutation) is the abstract specification [sorts_as];
      [js_sort] refines it and is the only list that satisfies it, so
      the model does not depend on the engine's algorithm.
    - [Listing.v]: the data model of [types.ts] and the Field
      Reconciler, the document-to-[Car] mapping of [fetchCars]
      ([App.tsx] 51-63).
    - [Dedup.v]: [normalizeUrl] and [uniqueCars] ([App.tsx] 208-241).
    - [Select.v]: the filter and the five comparators of
      [processedCars] ([App.tsx] 244-270), and what the garage renders.
    - [Breakdown.v]: the sections of [ScrollytellingCalculator]
      (108-185), running total, warning header, and the
      IntersectionObserver callback as a step relation.
    - [Editor.v]: the notes/tags/links editor of [CarDetailModal]
      (24-71) and the local merge of [handleUpdateCar].
    - [Garage.v]: the store handlers of [App.tsx] (19-206, 615-622).
      [AppState] holds the collection ([gmap string DocData]), the hooks
      the handlers change, and what is in flight: the snapshots read by
      started [fetchCars] calls, the requests sent by [handleAnalyze],
      the pending 2 s refresh timers, and every control of the page
      (tabs, inputs, Enter, the analyze and clear buttons, search, sort,
      view mode) as an [AppEvent].  Each handler runs to its first
      [await] ([start_fetch], [handleDeleteCar], [handleAnalyze], ...);
      each completion is a separate event ([fetch_done],
      [analyze_done], [fetch_timer]), so [app_step]/[run_app] on an
      event list is any interleaving the browser allows.
    - [CatalogData.v]: [cars_static.ts] and [brandLogos.ts], translated
      literally (generated from the sources), one definition per entry.
    - [Links.v]: [norm] and the eight generators of [BazaarLinks].
      [normalize('NFD')] and [toLowerCase] are a type class of Unicode
      tables with their ASCII laws ([UnicodeTables]; [latin_tables] is
      an instance for the catalog's letters); [encodeURIComponent] is
      modelled from ECMAScript (UTF-8, percent escapes, [None] on a lone
      surrogate), with the decoder of the round trip.
    - [Youtube.v]: [extractYoutubeId], its regular expression modelled
      by its backtracking semantics ([find_last]: the greedy [^.*]
      starts the match at the last position where an alternative
      matches), [getYoutubeThumbnail], [isYoutubeUrl].
    - [Views.v]: what [CarCard.tsx], the table row of [App.tsx]
      (536-591) and the info and analysis tabs of [CarDetailModal.tsx]
      compute from a car, and the clicks of the card and the row as the
      [AppEvent]s of [Garage.v] they send.
    - [Animation.v]: the [AnimatedPrice] counter of
      [ScrollytellingCalculator.tsx] (7-44): the effect on [value] and
      the [requestAnimationFrame] loop as events over the display,
      [prevRef] and the running animation, time stamps in [Q].
    - [Scrolly.v]: the calculator page: the observer callback of
      [Breakdown.v] and the header's [AnimatedPrice] of [Animation.v]
      composed as one state machine ([page_step]), and what the page
      renders ([page_view]).
    - [BrandGrid.v]: the car index, [findDetailedCar], the expand
      toggle, the model rows, what each segment renders and the grid's
      clicks, the model row's sent to [App] as an [AppEvent].
    - [CatalogModal.v]: the state of [CatalogDetailModal.tsx] with
      [localStorage] as a [gmap]; every handler is an event of
      [modal_step] (user videos, tabs, inputs, search form, reload);
      [calculateMonthly] over rationals; what each tab renders
      ([modal_content], [review_card]).

    ** What the theorems show

    - Sorting: [js_sort] is the unique sorted stable permutation (the
      model of the built-in, used by the claims below), commutes with
      [filter], is idempotent.
    - Reconciler: the price fallbacks on every branch, including the
      NaN of [undefined + n].
    - Deduplication: idempotence, no two kept records share a key,
      every dropped record has a kept duplicate at least as recent,
      records without key or EUR price are kept.
    - Filter/sort: the engine returns exactly the filtered cars, ordered
      by the field each sort option names (price, mileage, score or
      date, missing values as 0) and stably; the filter is the spec's
      case-insensitive substring test over model, make, location, notes
      and tags; filtering and sorting commute; and the rendered grid
      ignores both.
    - Calculator: the sections, the VAT rounding, the invariants of the
      reveal state machine and the warning header flicker.
    - Editor: tags stay duplicate-free, saving merges exactly the three
      edited fields, removing a link removes every copy.
    - Store: the local merge of [handleUpdateCar] refines a refetch
      (a permutation of what [fetchCars] would list, for every sequence
      of local events); delete-then-fetch; from any state, all
      asynchronous work settles after one completion per call in flight,
      whatever the server answers, including the refreshes that
      successful analyses schedule; and the races and errors: for every
      state and save, a fetch started before the save and completing
      after it reverts the list (a read-your-writes violation), a shadowing [id] key
      makes deletes and saves miss, [orderBy] hides undated documents,
      [analyzing] is reset while a request is in flight.  Through the
      garage controls alone at most one request is in flight, with the
      spinner on; the catalog modal's [onAnalyze] can start a second.
    - Views: the card, row and modal agree on profitability, disagree on
      a missing battery health; the score bar is clamped, the circle is
      not; the thousands of [toFixed(0)] are within 500 km; no warning
      is lost from the preview; the card's delete never opens the
      modal; saving in the editor leaves the garage grid and table as
      they were (the deduplication commutes with the local merge); the
      verdict panel is green exactly when the text contains "KOUPIT",
      so "NEKOUPIT" is shown as a buy.
    - Animation: a count terminates after [ceil(600 / delta)] frames
      showing its target, stays between its ends, and a value changed
      mid-count restarts from [prevRef], so the display jumps back.
      On the calculator page the header always counts towards the
      running total of the revealed sections and settles on it, which
      is not the [total_czk] of the summary.
    - Links: [encodeURIComponent] of make and model decodes back (a
      lemma of the model of the built-in, not a claim about the code) and
      is URL-safe; [norm] leaves no space; the [/ 25] rounding is within
      half a unit; Mobile.de gets two [p] parameters.
    - YouTube: [watch?v=] links give their id; the result is always an
      11-character piece of the URL without [#&?]; [v?] swallows a
      leading [v] of [youtu.be/] and [embed/] ids.
    - Brand grid and modal: [findDetailedCar] is sound and finds nothing
      exactly when no car of the brand has a model containing or
      contained in the listed name (so three catalog cars are
      unreachable), at most one brand panel is open; the user videos stay stored-as-shown,
      distinct, valid and new, and survive a reopen; the payment
      amortises the loan exactly and sums to at least the loan; a zero
      rate gives NaN; the duplicate check of an added video is exactly a
      raw-URL comparison, so a short link to a review video is accepted
      again, and then both of its cards play at once (every player shows the
      playing id); every catalog bank row shows a payment.

    ** Modelling choices, bounds and what is left out

    - JavaScript numbers are [Z] where the code handles integers
      (prices, mileage, scores, Firestore seconds: far below 2^53, where
      IEEE arithmetic is exact) and [Q] where it divides
      ([vat_adjustment_eur], bank rates, the loan); float rounding error
      is not modelled.  [undefined] and [NaN] are [None].
    - Garage strings are [String.string]; catalog strings are code
      points ([ustring]), as JavaScript strings of the BMP are.
    - Fuel: [utf8_decode_bytes] (decoding literals) and the
      [decodeURIComponent] of the round trip take the input length as
      fuel, which is enough since each step consumes input; the round
      trip theorem is stated with that fuel, not assumed.  The
      animation loop is a list of frame time stamps: its termination is
      proved for frames every [delta > 0] ms, any positive frame
      interval of a browser.  Every other loop is structural recursion
      on a list.
    - Firestore is a map from document id to data; [deleteDoc] of a
      missing id succeeds and [updateDoc] of one fails, as Firestore
      does; [orderBy] leaves out documents without the field.
    - Not modelled: [BrandIcon.tsx], which only places the SVG it is
      given in markup, CSS classes and icons,
      [tailwind.config.js], [toLocaleString] formatting, Firebase
      initialisation, logging, [window.open] and [window.history]. *)

From stdpp Require Export base list strings.
From Stdlib Require Export String Ascii ZArith Sorted Permutation.

Declare Scope js_scope.
Delimit Scope js_scope with js.
Local Open Scope Z_scope.

Create HintDb garage.
Create Rewrite HintDb garage_rw.

(** ** JavaScript numbers that may be absent *)

(** [x || y] on two possibly absent numbers: the first operand when it
    is truthy (defined and non-zero), the second otherwise. *)
Definition js_or (x y : option Z) : option Z :=
  match x with
  | Some v => if Z.eqb v 0 then y else Some v
  | None => y
  end.

(** [x || d] when [d] is a number literal: the result is always a number. *)
Definition js_or_num (x : option Z) (d : Z) : Z :=
  match x with
  | Some v => if Z.eqb v 0 then d else v
  | None => d
  end.

(** [x + y]: [undefined + n] is [NaN], modelled as [None]. *)
Definition js_add (x y : option Z) : option Z :=
  match x, y with
  | Some a, Some b => Some (a + b)
  | _, _ => None
  end.

(** [x > 0] where [undefined > 0] is false. *)
Definition js_pos (x : option Z) : bool :=
  match x with Some v => Z.ltb 0 v | None => false end.

(** [x === y] on possibly absent numbers ([undefined === undefined]). *)
Definition js_eq_num (x y : option Z) : bool :=
  match x, y with
  | Some a, Some b => Z.eqb a b
  | None, None => true
  | _, _ => false
  end.

Notation "x ?|| y" := (js_or x y) (at level 50, left associativity) : js_scope.
Notation "x ?||# d" := (js_or_num x d) (at level 50, left associativity) : js_scope.
Notation "x ?+ y" := (js_add x y) (at level 40, left associativity) : js_scope.
Notation "x ?=== y" := (js_eq_num x y) (at level 70, no associativity) : js_scope.

Lemma js_or_num_or x d : js_or_num x d = match js_or x (Some d) with Some v => v | None => d end.
Proof. destruct x as [v|]; simpl; [destruct (Z.eqb v 0)|]; reflexivity. Qed.

Lemma js_eq_num_spec x y : js_eq_num x y = true <-> x = y.
Proof.
  destruct x as [a|], y as [b|]; simpl; split; intros H; try congruence.
  - apply Z.eqb_eq in H. congruence.
  - apply Z.eqb_eq. congruence.
Qed.

Lemma js_eq_num_sym x y : js_eq_num x y = js_eq_num y x.
Proof. destruct x, y; simpl; try rewrite Z.eqb_sym; reflexivity. Qed.

Lemma js_pos_spec x : js_pos x = true <-> exists v, x = Some v /\ 0 < v.
Proof.
  destruct x as [v|]; simpl; split.
  - intros H. apply Z.ltb_lt in H. eauto.
  - intros (w & Hw & Hp). injection Hw as <-. apply Z.ltb_lt. exact Hp.
  - discriminate.
  - intros (w & Hw & _). discriminate.
Qed.

(** Falsy numbers: [undefined], [NaN] (both [None]) and [0]. *)
Definition js_falsy (x : option Z) : bool :=
  match x with Some v => Z.eqb v 0 | None => true end.

Lemma js_or_falsy x y : js_falsy x = true -> js_or x y = y.
Proof. destruct x as [v|]; simpl; [intros ->|]; reflexivity. Qed.

Lemma js_or_truthy x y : js_falsy x = false -> js_or x y = x.
Proof. destruct x as [v|]; simpl; [intros ->|discriminate]; reflexivity. Qed.

Lemma js_or_num_falsy x d : js_falsy x = true -> js_or_num x d = d.
Proof. destruct x as [v|]; simpl; [intros ->|]; reflexivity. Qed.

Lemma js_or_num_truthy v d : v <> 0 -> js_or_num (Some v) d = v.
Proof. simpl. intros H. apply Z.eqb_neq in H. now rewrite H. Qed.

Lemma js_falsy_some v : js_falsy (Some v) = false <-> v <> 0.
Proof. apply Z.eqb_neq. Qed.

#[export] Hint Rewrite js_or_falsy js_or_truthy js_or_num_falsy using assumption : garage_rw.

#[export] Hint Resolve -> js_eq_num_spec : garage.


(** ** Strings *)

Local Open Scope string_scope.

(** [toLowerCase] on one byte: ASCII upper-case letters are lowered. *)
Definition lower_ascii (c : ascii) : ascii :=
  let n := nat_of_ascii c in
  if (Nat.leb 65 n && Nat.leb n 90)%bool then ascii_of_nat (n + 32) else c.

Fixpoint lower (s : string) : string :=
  match s with
  | EmptyString => EmptyString
  | String c r => String (lower_ascii c) (lower r)
  end.

(** [s.split(c)[0]]: the part of [s] before the first [c]. *)
Fixpoint before_char (c : ascii) (s : string) : string :=
  match s with
  | EmptyString => EmptyString
  | String d r => if Ascii.eqb d c then EmptyString else String d (before_char c r)
  end.

Fixpoint prefixb (p s : string) : bool :=
  match p, s with
  | EmptyString, _ => true
  | String a p', String b s' => Ascii.eqb a b && prefixb p' s'
  | String _ _, EmptyString => false
  end.

(** [hay.includes(needle)]. *)
Fixpoint includes (needle hay : string) : bool :=
  match hay with
  | EmptyString => prefixb needle hay
  | String _ r => prefixb needle hay || includes needle r
  end.

(** White space removed by [String.prototype.trim] (ASCII part). *)
Definition is_ws (c : ascii) : bool :=
  let n := nat_of_ascii c in
  (Nat.eqb n 32 || (Nat.leb 9 n && Nat.leb n 13))%bool.

Fixpoint trim_start (s : string) : string :=
  match s with
  | EmptyString => EmptyString
  | String c r => if is_ws c then trim_start r else s
  end.

Fixpoint rev_str (s : string) (acc : string) : string :=
  match s with
  | EmptyString => acc
  | String c r => rev_str r (String c acc)
  end.

Definition trim_end (s : string) : string :=
  rev_str (trim_start (rev_str s EmptyString)) EmptyString.

Definition trim (s : string) : string := trim_end (trim_start s).

(** String truthiness: the empty string is falsy. *)
Definition str_truthy (s : string) : bool :=
  match s with EmptyString => false | _ => true end.

Definition str_eqb (a b : string) : bool := String.eqb a b.

Lemma str_eqb_spec a b : str_eqb a b = true <-> a = b.
Proof. apply String.eqb_eq. Qed.

Lemma str_truthy_spec s : str_truthy s = true <-> s <> EmptyString.
Proof. destruct s; simpl; split; congruence. Qed.

Lemma lower_length s : String.length (lower s) = String.length s.
Proof. induction s; simpl; congruence. Qed.

Lemma lower_empty s : lower s = EmptyString <-> s = EmptyString.
Proof. destruct s; simpl; split; congruence. Qed.

Lemma lower_ascii_idem c : lower_ascii (lower_ascii c) = lower_ascii c.
Proof. destruct c as [[] [] [] [] [] [] [] []]; reflexivity. Qed.

Lemma lower_idem s : lower (lower s) = lower s.
Proof. induction s; simpl; [reflexivity|]. rewrite lower_ascii_idem. congruence. Qed.

Lemma prefixb_spec p s : prefixb p s = true <-> exists q, s = String.append p q.
Proof.
  revert s; induction p as [|a p IH]; intros s; simpl.
  - split; eauto.
  - destruct s as [|b s']; simpl.
    + split; [discriminate|]. intros (q & Hq). discriminate.
    + rewrite andb_true_iff, Ascii.eqb_eq, IH. split.
      * intros (-> & q & ->). eauto.
      * intros (q & Hq). injection Hq as -> ->. eauto.
Qed.

Lemma includes_spec n h :
  includes n h = true <-> exists p q, h = String.append p (String.append n q).
Proof.
  induction h as [|c r IH]; simpl.
  - rewrite prefixb_spec. split.
    + intros (q & Hq). exists EmptyString, q. exact Hq.
    + intros (p & q & Hq). destruct p; [|discriminate]. eauto.
  - rewrite orb_true_iff, prefixb_spec, IH. split.
    + intros [(q & Hq) | (p & q & Hq)].
      * exists EmptyString, q. exact Hq.
      * exists (String c p), q. rewrite Hq. reflexivity.
    + intros (p & q & Hq). destruct p as [|d p]; simpl in Hq.
      * left. eauto.
      * right. injection Hq as _ ->. eauto.
Qed.

Lemma includes_empty h : includes EmptyString h = true.
Proof. destruct h; reflexivity. Qed.

#[export] Hint Resolve includes_empty lower_idem : garage.
#[export] Hint Rewrite lower_idem lower_length : garage_rw.

(** ** Lists *)

Lemma existsb_app {A} (f : A -> bool) l1 l2 :
  existsb f (l1 ++ l2) = existsb f l1 || existsb f l2.
Proof. apply existsb_app. Qed.

Lemma filter_filter_comm {A} (p q : A -> bool) l :
  List.filter p (List.filter q l) = List.filter q (List.filter p l).
Proof.
  induction l as [|x l IH]; simpl; [reflexivity|].
  destruct (q x) eqn:Hq, (p x) eqn:Hp; simpl; rewrite ?Hq, ?Hp; congruence.
Qed.

Lemma filter_idem {A} (p : A -> bool) l :
  List.filter p (List.filter p l) = List.filter p l.
Proof.
  induction l as [|x l IH]; simpl; [reflexivity|].
  destruct (p x) eqn:Hp; simpl; rewrite ?Hp; [f_equal|]; exact IH.
Qed.

#[export] Hint Rewrite @filter_idem : garage_rw.

(** [find] on a mapped list, with the predicate read through the map. *)
Lemma find_map_ext {A B} (g : A -> B) (p : B -> bool) (q : A -> bool) l :
  (forall x, p (g x) = q x) -> List.find p (map g l) = option_map g (List.find q l).
Proof.
  intros H. induction l as [|x l IH]; cbn; [reflexivity|]. rewrite H.
  destruct (q x); [reflexivity|exact IH].
Qed.

(** Two elements of a list with the same key are equal when the keys
    are distinct. *)
Lemma NoDup_map_in_inj {A B} (f : A -> B) l x y :
  NoDup (map f l) -> In x l -> In y l -> f x = f y -> x = y.
Proof.
  induction l as [|a l IH]; cbn; [tauto|].
  rewrite NoDup_cons. intros [Hn Hnd] [<-|Hx] [<-|Hy] E; auto; exfalso; apply Hn.
  - rewrite E. apply list_elem_of_In, in_map, Hy.
  - rewrite <- E. apply list_elem_of_In, in_map, Hx.
Qed.

(** ** Strings as code points

    Where the code handles text that is not ASCII (catalog names, URLs
    typed by the user), a string is the list of its code points.  A
    literal of the source file is its UTF-8 bytes decoded. *)

Definition ustring : Type := list Z.

Local Open Scope Z_scope.

Fixpoint utf8_decode_bytes (fuel : nat) (bs : list Z) : ustring :=
  match fuel, bs with
  | S f, b :: r =>
      if b <? 128 then b :: utf8_decode_bytes f r
      else if b <? 224 then
        match r with
        | b2 :: r' => ((b - 192) * 64 + (b2 - 128)) :: utf8_decode_bytes f r'
        | [] => []
        end
      else if b <? 240 then
        match r with
        | b2 :: b3 :: r' => ((b - 224) * 4096 + (b2 - 128) * 64 + (b3 - 128)) :: utf8_decode_bytes f r'
        | _ => []
        end
      else
        match r with
        | b2 :: b3 :: b4 :: r' =>
            ((b - 240) * 262144 + (b2 - 128) * 4096 + (b3 - 128) * 64 + (b4 - 128))
            :: utf8_decode_bytes f r'
        | _ => []
        end
  | _, _ => []
  end.

(** [s.startsWith(p)]. *)
Fixpoint uprefix (p s : ustring) : bool :=
  match p, s with
  | [], _ => true
  | x :: p', y :: s' => (x =? y) && uprefix p' s'
  | _ :: _, [] => false
  end.

(** [hay.includes(needle)]. *)
Fixpoint uincludes (needle hay : ustring) : bool :=
  match hay with
  | [] => uprefix needle []
  | _ :: r => uprefix needle hay || uincludes needle r
  end.

Lemma uprefix_app_l (p q t : ustring) : uprefix (p ++ q)%list t = true -> uprefix p t = true.
Proof.
  revert t. induction p as [|x p IH]; intros [|y t]; cbn; try easy.
  intros [H1 H2]%andb_prop. rewrite H1. cbn. auto.
Qed.


(** A list sorted by a relation is sorted by any weaker one. *)
Lemma Sorted_weaken {A} (R R' : A -> A -> Prop) (l : list A) :
  (forall a b, R a b -> R' a b) -> Sorted R l -> Sorted R' l.
Proof.
  intros HR Hs. induction Hs as [|x l Hs IH Hd]; constructor; [exact IH|].
  destruct Hd; constructor. now apply HR.
Qed.
Lemma uprefix_refl (p : ustring) : uprefix p p = true.
Proof. induction p as [|x p IH]; cbn; [reflexivity|]. now rewrite Z.eqb_refl. Qed.

(** A text includes itself. *)
Lemma uincludes_refl (p : ustring) : uincludes p p = true.
Proof. destruct p as [|x p]; cbn; [reflexivity|]. now rewrite Z.eqb_refl, uprefix_refl. Qed.

(** A text that includes [p ++ q] includes [p]. *)
Lemma uincludes_app_l (p q t : ustring) : uincludes (p ++ q)%list t = true -> uincludes p t = true.
Proof.
  induction t as [|c t IH]; cbn; [apply uprefix_app_l|].
  intros [H|H]%orb_true_iff; apply orb_true_iff; [left; eapply uprefix_app_l|right]; eauto.
Qed.

(** A literal of the source as code points. *)
Definition u (s : string) : ustring :=
  let bs := map (fun a => Z.of_nat (nat_of_ascii a)) (list_ascii_of_string s) in
  utf8_decode_bytes (List.length bs) bs.

(** Case analysis on the boolean tests of the code. *)
Ltac case_bool :=
  match goal with
  | |- context [if ?b then _ else _] =>
      lazymatch b with
      | context [if _ then _ else _] => fail
      | _ => destruct b eqn:?
      end
  end.

(** Case analysis on every integer comparison of the goal. *)
Ltac zcmp :=
  repeat match goal with
  | |- context [Z.leb ?a ?b] => destruct (Z.leb_spec a b)
  | |- context [Z.ltb ?a ?b] => destruct (Z.ltb_spec a b)
  | |- context [Z.eqb ?a ?b] => destruct (Z.eqb_spec a b)
  end.

Ltac destruct_opts :=
  repeat match goal with
  | x : option _ |- _ => destruct x
  end.
