(* ===== verification/JsSort.v ===== *)
(** * [Array.prototype.sort] with a comparator

    [App.tsx] sorts twice: by timestamp before deduplicating (lines
    208-213) and by the user's sort option after filtering (256-270).
    ECMAScript 2019 fixes the result of [arr.sort(cmp)] for a consistent
    comparator: a permutation of [arr], ordered by [cmp], in which
    elements that compare equal keep their input order.  This file states
    that contract ([sorts_as]), gives an executable stable insertion sort
    [js_sort], proves that [js_sort] meets the contract and that the
    contract has exactly one solution, and derives the facts the pipeline
    uses: sorting commutes with [filter] and fixes sorted lists. *)

From S2P Require Import Prelude.

Local Open Scope Z_scope.

(** What ECMAScript requires of a comparator (its "consistent
    comparator" clause): the sign flips when the arguments are swapped,
    and "not greater" is transitive.  Every comparator of the program is
    a difference of integer keys and is an instance. *)
Class JsComparator {A : Type} (cmp : A -> A -> Z) : Prop := {
  cmp_flip : forall a b, cmp a b <= 0 <-> 0 <= cmp b a;
  cmp_trans : forall a b c, cmp a b <= 0 -> cmp b c <= 0 -> cmp a c <= 0
}.

Section JsSort.
Context {A : Type} (cmp : A -> A -> Z).

(** Insert [x] before the first element it is not greater than, so an
    element coming earlier in the input stays ahead of its equals. *)
Fixpoint insert_js (x : A) (l : list A) : list A :=
  match l with
  | [] => [x]
  | y :: ys => if Z.leb (cmp x y) 0 then x :: y :: ys else y :: insert_js x ys
  end.

Fixpoint js_sort (l : list A) : list A :=
  match l with
  | [] => []
  | x :: xs => insert_js x (js_sort xs)
  end.

Definition le_c (a b : A) : Prop := cmp a b <= 0.

(** [cmp a b === 0]: the two elements are tied. *)
Definition tied (a b : A) : bool := Z.eqb (cmp a b) 0.

(** Stability: every class of tied elements appears in the same order. *)
Definition stable_wrt (l l' : list A) : Prop :=
  forall a, List.filter (tied a) l' = List.filter (tied a) l.

(** The ECMAScript contract of [l.sort(cmp)] returning [l']. *)
Definition sorts_as (l l' : list A) : Prop :=
  Permutation l l' /\ Sorted le_c l' /\ stable_wrt l l'.

Context `{!JsComparator cmp}.

Lemma cmp_refl a : cmp a a = 0.
Proof. pose proof (cmp_flip a a). lia. Qed.

Lemma le_c_total a b : le_c a b \/ le_c b a.
Proof. unfold le_c. pose proof (cmp_flip b a). lia. Qed.

Lemma not_le_c a b : ~ cmp a b <= 0 -> le_c b a.
Proof. unfold le_c. pose proof (cmp_flip b a). lia. Qed.

Lemma tied_spec a b : tied a b = true <-> cmp a b = 0.
Proof. apply Z.eqb_eq. Qed.

Lemma tied_le a b : le_c a b -> le_c b a -> tied a b = true.
Proof. unfold le_c. rewrite tied_spec. pose proof (cmp_flip b a). lia. Qed.

Lemma tied_le_l a b : tied a b = true -> le_c a b.
Proof. rewrite tied_spec. unfold le_c. lia. Qed.

Lemma tied_sym a b : tied a b = tied b a.
Proof.
  destruct (tied a b) eqn:H1, (tied b a) eqn:H2; try reflexivity;
    rewrite ?tied_spec in *; pose proof (cmp_flip a b); pose proof (cmp_flip b a);
    rewrite <- ?Z.eqb_neq in *; unfold tied in *; lia.
Qed.

Lemma tied_trans a b c : tied a b = true -> tied b c = true -> tied a c = true.
Proof.
  intros Hab Hbc. apply tied_le.
  - apply (cmp_trans a b c); apply tied_le_l; assumption.
  - apply (cmp_trans c b a); apply tied_le_l; rewrite tied_sym; assumption.
Qed.

Lemma le_c_trans : Relations_1.Transitive le_c.
Proof. intros a b c. apply cmp_trans. Qed.

Lemma tied_refl a : tied a a = true.
Proof. apply tied_spec, cmp_refl. Qed.

(** ** Permutation *)

Lemma insert_js_perm x l : Permutation (insert_js x l) (x :: l).
Proof.
  induction l as [|y ys IH]; simpl; [reflexivity|].
  destruct (Z.leb (cmp x y) 0); [reflexivity|].
  rewrite IH. apply perm_swap.
Qed.

Lemma js_sort_perm l : Permutation l (js_sort l).
Proof.
  induction l as [|x xs IH]; simpl; [reflexivity|].
  rewrite insert_js_perm. now apply perm_skip.
Qed.

(** ** Order *)

Lemma insert_js_hd y x l : HdRel le_c y l -> le_c y x -> HdRel le_c y (insert_js x l).
Proof.
  destruct l as [|z zs]; simpl; intros Hd Hyx; [now constructor|].
  destruct (Z.leb (cmp x z) 0); constructor; [exact Hyx|]. now inversion Hd.
Qed.

Lemma insert_js_sorted x l : Sorted le_c l -> Sorted le_c (insert_js x l).
Proof.
  induction l as [|y ys IH]; simpl; intros Hs; [now repeat constructor|].
  inversion Hs as [|? ? Hys Hd]; subst.
  destruct (Z.leb (cmp x y) 0) eqn:Hc.
  - constructor; [exact Hs|]. constructor. unfold le_c. lia.
  - constructor; [now apply IH|]. apply insert_js_hd; [exact Hd|].
    apply not_le_c. lia.
Qed.

Lemma js_sort_sorted l : Sorted le_c (js_sort l).
Proof. induction l; simpl; [constructor|]. now apply insert_js_sorted. Qed.

(** ** Stability *)

Lemma insert_js_tied a x l :
  List.filter (tied a) (insert_js x l) = List.filter (tied a) (x :: l).
Proof.
  induction l as [|y ys IH]; simpl; [reflexivity|].
  destruct (Z.leb (cmp x y) 0) eqn:Hc; [reflexivity|]. simpl. rewrite IH. simpl.
  destruct (tied a y) eqn:Hy, (tied a x) eqn:Hx; try reflexivity.
  exfalso. assert (Hxy : tied x y = true).
  { apply (tied_trans x a y); [rewrite tied_sym|]; assumption. }
  apply tied_spec in Hxy. lia.
Qed.

Lemma js_sort_stable l : stable_wrt l (js_sort l).
Proof.
  intros a. induction l as [|x xs IH]; simpl; [reflexivity|].
  rewrite insert_js_tied. simpl. now rewrite IH.
Qed.

(** ** Uniqueness of the stable sort *)

Lemma sorted_hd_le y l x : Sorted le_c (y :: l) -> In x l -> le_c y x.
Proof.
  intros Hs Hin. apply (Sorted_StronglySorted le_c_trans) in Hs.
  inversion Hs as [|? ? _ Hall]; subst. rewrite List.Forall_forall in Hall. auto.
Qed.

Lemma sorted_tail y l : Sorted le_c (y :: l) -> Sorted le_c l.
Proof. now inversion 1. Qed.

Lemma filter_tied_cons_inv x r1 r2 :
  (forall a, List.filter (tied a) (x :: r1) = List.filter (tied a) (x :: r2)) ->
  forall a, List.filter (tied a) r1 = List.filter (tied a) r2.
Proof.
  intros H a. specialize (H a). simpl in H.
  destruct (tied a x); [injection H|]; auto.
Qed.

(** Two sorted permutations of each other whose classes of tied
    elements agree are equal. *)
Lemma sorted_stable_unique l1 l2 :
  Permutation l1 l2 -> Sorted le_c l1 -> Sorted le_c l2 ->
  (forall a, List.filter (tied a) l1 = List.filter (tied a) l2) -> l1 = l2.
Proof.
  revert l2; induction l1 as [|x r1 IH]; intros l2 Hp Hs1 Hs2 Hf.
  - symmetry. now apply Permutation_nil.
  - destruct l2 as [|y r2]; [symmetry in Hp; now apply Permutation_nil_cons in Hp|].
    assert (Hyx : le_c y x).
    { assert (Hin : In x (y :: r2)) by (rewrite <- Hp; now left).
      destruct Hin as [<-|Hin]; [unfold le_c; rewrite cmp_refl; lia|].
      now apply (sorted_hd_le y r2). }
    assert (Hxy : le_c x y).
    { assert (Hin : In y (x :: r1)) by (rewrite Hp; now left).
      destruct Hin as [->|Hin]; [unfold le_c; rewrite cmp_refl; lia|].
      now apply (sorted_hd_le x r1). }
    pose proof (Hf x) as Hfx. simpl in Hfx.
    rewrite tied_refl, (tied_le x y Hxy Hyx) in Hfx. injection Hfx as <- Hfx.
    f_equal. apply IH.
    + now apply Permutation_cons_inv in Hp.
    + now apply sorted_tail in Hs1.
    + now apply sorted_tail in Hs2.
    + eapply filter_tied_cons_inv. exact Hf.
Qed.

(** [js_sort] refines the contract. *)
Lemma js_sort_sorts_as l : sorts_as l (js_sort l).
Proof. split; [apply js_sort_perm|split; [apply js_sort_sorted|apply js_sort_stable]]. Qed.

Lemma js_sort_unique l l' : sorts_as l l' -> l' = js_sort l.
Proof.
  intros (Hp & Hs & Hst). apply sorted_stable_unique.
  - rewrite <- Hp. apply js_sort_perm.
  - exact Hs.
  - apply js_sort_sorted.
  - intros a. rewrite Hst. symmetry. apply js_sort_stable.
Qed.

(** [Array.prototype.sort] is fully determined: any result the
    ECMAScript contract allows (a sorted, stable permutation) is the one
    [js_sort] computes. *)
Lemma sorts_as_js_sort l l' : sorts_as l l' -> l' = js_sort l.
Proof. apply js_sort_unique. Qed.

(** ** Consequences used by the pipeline *)

Lemma filter_perm (p : A -> bool) l l' :
  Permutation l l' -> Permutation (List.filter p l) (List.filter p l').
Proof.
  induction 1 as [|x l l' _ IH|x y l|l l' l'' _ IH1 _ IH2]; simpl.
  - constructor.
  - destruct (p x); [now apply perm_skip|exact IH].
  - destruct (p x), (p y); try reflexivity. apply perm_swap.
  - now rewrite IH1.
Qed.

Lemma filter_sorted (p : A -> bool) l : Sorted le_c l -> Sorted le_c (List.filter p l).
Proof.
  intros Hs. apply StronglySorted_Sorted.
  apply (Sorted_StronglySorted le_c_trans) in Hs.
  induction Hs as [|x l _ IH Hall]; simpl; [constructor|].
  destruct (p x); [|exact IH]. constructor; [exact IH|].
  rewrite List.Forall_forall in *. intros y Hy. apply Hall.
  apply filter_In in Hy. tauto.
Qed.

Lemma sublist_sorted l1 l2 : sublist l1 l2 -> Sorted le_c l2 -> Sorted le_c l1.
Proof.
  intros Hsub Hs. apply StronglySorted_Sorted.
  apply (Sorted_StronglySorted le_c_trans) in Hs. revert Hs.
  induction Hsub as [|x l1 l2 Hsub IH|x l1 l2 _ IH]; intros Hs.
  - constructor.
  - inversion Hs as [|? ? Hs' Hall]; subst. constructor; [now apply IH|].
    rewrite List.Forall_forall in *. intros y Hy. apply Hall.
    apply list_elem_of_In. apply (elem_of_sublist l1); [now apply list_elem_of_In|exact Hsub].
  - inversion Hs; subst. now apply IH.
Qed.

Lemma js_sort_filter (p : A -> bool) l :
  js_sort (List.filter p l) = List.filter p (js_sort l).
Proof.
  symmetry. apply js_sort_unique. split; [|split].
  - apply filter_perm, js_sort_perm.
  - apply filter_sorted, js_sort_sorted.
  - intros a. rewrite !(filter_filter_comm (tied a) p). f_equal. apply js_sort_stable.
Qed.

Lemma js_sort_sorted_id l : Sorted le_c l -> js_sort l = l.
Proof.
  intros Hs. symmetry. apply js_sort_unique.
  split; [reflexivity|split; [exact Hs|intros a; reflexivity]].
Qed.

Lemma js_sort_idem l : js_sort (js_sort l) = js_sort l.
Proof. apply js_sort_sorted_id, js_sort_sorted. Qed.

End JsSort.

(** Comparators of the form [(a, b) => key(a) - key(b)] and
    [(a, b) => key(b) - key(a)], the only forms the program uses. *)
Definition by_key_asc {A} (key : A -> Z) : A -> A -> Z := fun a b => key a - key b.
Definition by_key_desc {A} (key : A -> Z) : A -> A -> Z := fun a b => key b - key a.

#[export] Instance by_key_asc_cmp {A} (key : A -> Z) : JsComparator (by_key_asc key).
Proof. split; unfold by_key_asc; intros; lia. Qed.

#[export] Instance by_key_desc_cmp {A} (key : A -> Z) : JsComparator (by_key_desc key).
Proof. split; unfold by_key_desc; intros; lia. Qed.

#[export] Hint Resolve js_sort_perm js_sort_sorted js_sort_stable js_sort_sorts_as : garage.
#[export] Hint Rewrite @js_sort_idem : garage_rw.

(** Witness: sorting [[2; 1]] ascending. *)
Lemma sorts_as_js_sort_witness :
  sorts_as (by_key_asc (fun z : Z => z)) [2; 1] [1; 2] /\
  [1; 2] = js_sort (by_key_asc (fun z : Z => z)) [2; 1].
Proof.
  assert (H : sorts_as (by_key_asc (fun z : Z => z)) [2; 1] [1; 2]).
  { split; [apply perm_swap|split].
    - repeat constructor. unfold le_c, by_key_asc. lia.
    - intros a. unfold tied, by_key_asc. simpl.
      destruct (Z.eqb (a - 1) 0) eqn:H1, (Z.eqb (a - 2) 0) eqn:H2; try reflexivity.
      apply Z.eqb_eq in H1, H2. lia. }
  split; [exact H|]. exact (sorts_as_js_sort _ _ _ H).
Defined.

(** Sorting commutes with a map that the comparator does not see. *)
Lemma js_sort_map {A B} (cmpA : A -> A -> Z) (cmpB : B -> B -> Z) (f : A -> B) l :
  (forall a b, cmpB (f a) (f b) = cmpA a b) -> js_sort cmpB (map f l) = map f (js_sort cmpA l).
Proof.
  intros Hf. induction l as [|x l IH]; cbn; [reflexivity|]. rewrite IH.
  generalize (js_sort cmpA l). intros k. induction k as [|y ys IHy]; cbn; [reflexivity|].
  rewrite Hf. destruct (cmpA x y <=? 0); cbn; [reflexivity|]. now rewrite IHy.
Qed.
