(* ===== verification/Listing.v ===== *)
(** * Listing records and the Field Reconciler

    The record types of [src/web/src/types.ts] ([Car], [CostBreakdown],
    [CostBreakdownWarning], [ExternalLink]) and the Firestore [Timestamp]
    the code reads [.seconds] from, with the raw document shape that
    [fetchCars] receives, and the reconciliation
    [{ id: doc.id, ...data, price_czk: ..., real_price_czk: ..., timestamp }]
    of [App.tsx] lines 51-63.

    Field names follow the source.  Where two TypeScript interfaces use
    the same key (the [url], [label] and [type] of [ExternalLink], the
    [type] and [text] of a warning), the Rocq projection carries a
    prefix, since record projections share one name space.  [Car]
    keeps the fields that some code of the program reads or writes.  The
    keys that only the views read ([year], [image], [soh], [arbitrage_profit],
    the audit texts, ...) pass through every operation unchanged (the
    spread [...data] copies them, no handler writes them); they are grouped
    in the record [Display], one field of [Car] and of the document data.
    Keys no code reads ([fuel], [transmission], [testDriveData], ...) are
    left out. *)

From S2P Require Import Prelude.
From Stdlib Require Import QArith_base.
Local Open Scope Z_scope.

(** Firestore [Timestamp]: the code only reads [seconds]. *)
Record Timestamp := mkTimestamp { seconds : Z; nanoseconds : Z }.

Inductive WarningType := heat_pump_missing | high_mileage | low_soh.

Record CostBreakdownWarning := mkWarning { warning_type : WarningType; warning_text : string }.

Record CostBreakdown := mkCostBreakdown {
  base_price_eur : Q;
  vat_adjustment_eur : Q;
  final_price_eur : Q;
  base_czk : Z;
  logistics_czk : Z;
  tires_czk : Z;
  service_czk : Z;
  total_czk : Z;
  warnings : list CostBreakdownWarning
}.

Inductive LinkType := link_video | link_article | link_forum | link_other.

Record ExternalLink := mkExternalLink { link_url : string; link_label : string; link_type : LinkType }.

(** The keys of [interface Car] that only the views read (lines 46-80).
    [soh] is a percentage that may be fractional. *)
Record Display := mkDisplay {
  year : option Z;
  image : option string;
  power_kw : option Z;
  soh : option Q;
  range_wltp : option Z;
  arbitrage_profit : option Z;
  car_warnings : option (list string);
  features : option (list string);
  audit_verdict : option string;
  audit_reasons : option (list string);
  negotiation_draft : option string
}.

(** A record without any of them. *)
Definition no_display : Display := mkDisplay None None None None None None None None None None None.

(** [interface Car].  [make] is not declared in [types.ts] but is read by
    the filter of [App.tsx] (line 250), so documents may carry it. *)
Record Car := mkCar {
  id : string;
  model : option string;
  make : option string;
  link : option string;
  url : option string;
  price_czk : option Z;
  real_price_czk : option Z;
  price_eur : option Z;
  mileage : option Z;
  location : option string;
  timestamp : option Timestamp;
  expert_score : option Z;
  notes : option string;
  tags : option (list string);
  externalLinks : option (list ExternalLink);
  cost_breakdown : option CostBreakdown;
  display : Display
}.

(** The [data()] of a Firestore document of [car_analysis_results]: the
    same keys, each possibly absent, an [id] key if the writer stored
    one, and the two legacy price keys. *)
Record DocData := mkDocData {
  data_id : option string;
  data_model : option string;
  data_make : option string;
  data_link : option string;
  data_url : option string;
  data_price_czk : option Z;
  data_real_price_czk : option Z;
  data_price_eur : option Z;
  data_mileage : option Z;
  data_location : option string;
  data_timestamp : option Timestamp;
  data_expert_score : option Z;
  data_notes : option string;
  data_tags : option (list string);
  data_externalLinks : option (list ExternalLink);
  data_cost_breakdown : option CostBreakdown;
  import_price_czk : option Z;
  additional_costs : option Z;
  data_display : Display
}.

#[export] Instance Timestamp_eq_dec : EqDecision Timestamp.
Proof. solve_decision. Defined.
#[export] Instance WarningType_eq_dec : EqDecision WarningType.
Proof. solve_decision. Defined.
#[export] Instance Warning_eq_dec : EqDecision CostBreakdownWarning.
Proof. solve_decision. Defined.
#[export] Instance Q_eq_dec : EqDecision Q.
Proof. solve_decision. Defined.
#[export] Instance CostBreakdown_eq_dec : EqDecision CostBreakdown.
Proof. solve_decision. Defined.
#[export] Instance LinkType_eq_dec : EqDecision LinkType.
Proof. solve_decision. Defined.
#[export] Instance ExternalLink_eq_dec : EqDecision ExternalLink.
Proof. solve_decision. Defined.
#[export] Instance Display_eq_dec : EqDecision Display.
Proof. solve_decision. Defined.
#[export] Instance Car_eq_dec : EqDecision Car.
Proof. solve_decision. Defined.

Local Open Scope js_scope.
Local Open Scope string_scope.

(** [querySnapshot.docs.map(doc => ...)] for one document: the object
    literal [{ id: doc.id, ...data, price_czk, real_price_czk, timestamp }].
    A key of [data] overrides the [id] written before the spread; the
    three keys written after it override [data]. *)
Definition reconcile (doc_id : string) (data : DocData) : Car := {|
  id := match data_id data with Some i => i | None => doc_id end;
  model := data_model data;
  make := data_make data;
  link := data_link data;
  url := data_url data;
  price_czk := Some (data_price_czk data ?|| import_price_czk data ?||# 0);
  real_price_czk :=
    Some (data_real_price_czk data
          ?|| (import_price_czk data ?+ Some (additional_costs data ?||# 0)) ?||# 0);
  price_eur := data_price_eur data;
  mileage := data_mileage data;
  location := data_location data;
  timestamp := data_timestamp data;
  expert_score := data_expert_score data;
  notes := data_notes data;
  tags := data_tags data;
  externalLinks := data_externalLinks data;
  cost_breakdown := data_cost_breakdown data;
  display := data_display data
|}.

(** A document holding only the four price keys (for concrete runs). *)
Definition price_doc (p r imp add : option Z) : DocData :=
  mkDocData None None None None None p r None None None None None None None None None imp add no_display.

(** ** The Field Reconciler *)

(** A record of the current schema keeps its prices: a truthy
    [price_czk] and [real_price_czk] are taken as they are, whatever the
    legacy keys hold. *)
Theorem reconcile_current doc_id d p r :
  data_price_czk d = Some p -> p <> 0 ->
  data_real_price_czk d = Some r -> r <> 0 ->
  price_czk (reconcile doc_id d) = Some p /\ real_price_czk (reconcile doc_id d) = Some r.
Proof.
  intros Hp Hp0 Hr Hr0. unfold reconcile; cbn [price_czk real_price_czk]. rewrite Hp, Hr.
  rewrite !js_or_truthy by (apply js_falsy_some; assumption).
  now rewrite !js_or_num_truthy.
Qed.

(** A legacy record (no truthy [price_czk] nor [real_price_czk])
    takes [import_price_czk] as its price and [import_price_czk +
    (additional_costs || 0)] as its real price, so the real price exceeds
    the price by exactly the additional costs. *)
Theorem reconcile_legacy doc_id d q :
  js_falsy (data_price_czk d) = true -> js_falsy (data_real_price_czk d) = true ->
  import_price_czk d = Some q -> q <> 0 -> q + js_or_num (additional_costs d) 0 <> 0 ->
  price_czk (reconcile doc_id d) = Some q /\
  real_price_czk (reconcile doc_id d) = Some (q + js_or_num (additional_costs d) 0).
Proof.
  intros Hp Hr Hq Hq0 Hs. unfold reconcile; cbn [price_czk real_price_czk].
  rewrite !js_or_falsy by assumption. rewrite Hq. cbn [js_add].
  now rewrite !js_or_num_truthy.
Qed.

(** (C37) [undefined + n] is [NaN]: a record with neither a truthy
    [real_price_czk] nor an [import_price_czk] gets [real_price_czk = 0]
    even when [additional_costs] is set, where the spec's rule "absent
    numeric inputs are treated as 0" would give the additional costs. *)
Theorem reconcile_real_price_nan doc_id d :
  js_falsy (data_real_price_czk d) = true -> import_price_czk d = None ->
  real_price_czk (reconcile doc_id d) = Some 0.
Proof.
  intros Hr Hq. unfold reconcile; cbn [real_price_czk]. rewrite js_or_falsy by exact Hr.
  now rewrite Hq.
Qed.

(** The example of the spec: [{import_price_czk: 400000,
    additional_costs: 15000}] reconciles to [price_czk = 400000] and
    [real_price_czk = 415000]. *)
Example reconcile_spec_example :
  let c := reconcile "doc1" (price_doc None None (Some 400000) (Some 15000)) in
  price_czk c = Some 400000 /\ real_price_czk c = Some 415000 /\ id c = "doc1".
Proof. vm_compute. auto. Qed.

(** Witnesses. *)
Lemma reconcile_current_witness :
  let c := reconcile "d" (price_doc (Some 500000) (Some 520000) (Some 1) (Some 2)) in
  price_czk c = Some 500000 /\ real_price_czk c = Some 520000.
Proof. apply (reconcile_current "d" (price_doc (Some 500000) (Some 520000) (Some 1) (Some 2)) 500000 520000); (reflexivity || lia). Defined.

Lemma reconcile_legacy_witness :
  let c := reconcile "d" (price_doc None (Some 0) (Some 400000) None) in
  price_czk c = Some 400000 /\ real_price_czk c = Some (400000 + 0).
Proof. apply (reconcile_legacy "d" (price_doc None (Some 0) (Some 400000) None) 400000); (reflexivity || (vm_compute; congruence)). Defined.

Lemma reconcile_real_price_nan_witness :
  real_price_czk (reconcile "d" (price_doc None None None (Some 15000))) = Some 0.
Proof. apply reconcile_real_price_nan; reflexivity. Defined.
