(* ===== verification/Dedup.v ===== *)
(** * The Normalizer and the Deduplicator

    [uniqueCars] of [App.tsx] (lines 208-241): the fetched cars sorted by
    [timestamp.seconds] descending, then folded left to right into an
    accumulator that keeps a car unless an already kept car has the same
    normalized URL key, or — the fallback — the same [price_eur] and
    [mileage] with a positive [price_eur].  [normalizeUrl] (lines
    216-219) cuts the query string and lowers the case.

    The theorems: the result is a duplicate-free sub-list of the sorted
    input (no two kept cars share a URL key or a positive price/mileage
    pair), every dropped car has a kept duplicate at least as recent,
    cars with no URL key and no positive EUR price are always kept, the
    operation is idempotent, and which of two tied duplicates is kept
    depends on the order Firestore returns them in. *)

From S2P Require Import Prelude JsSort Listing.
From Stdlib Require Import Btauto.

Local Open Scope Z_scope.

(** ** Normalizer *)

(** [normalizeUrl(u)]: [''] for a falsy [u]; otherwise
    [u.split('?')[0].toLowerCase()].  (The [try]/[catch] only fires on
    non-string values, which the typed model excludes.) *)
Definition normalizeUrl (u : option string) : string :=
  match u with
  | None => EmptyString
  | Some s => if str_truthy s then lower (before_char "?"%char s) else EmptyString
  end.

(** [normalizeUrl(c.link) || normalizeUrl(c.url)]: the URL key of a car. *)
Definition dedup_key (c : Car) : string :=
  let k := normalizeUrl (link c) in
  if str_truthy k then k else normalizeUrl (url c).

(** [c.timestamp?.seconds || 0]. *)
Definition time_of (c : Car) : Z := js_or_num (option_map seconds (timestamp c)) 0.

(** [(a, b) => timeB - timeA]: most recent first. *)
Definition by_timestamp_desc : Car -> Car -> Z := by_key_desc time_of.

(** ** Deduplicator *)

(** The fallback predicate of [acc.find] (lines 233-237), [item] being
    the accumulated car and [current] the candidate. *)
Definition fallback_match (current item : Car) : bool :=
  ((price_eur item ?=== price_eur current)%js && (mileage item ?=== mileage current)%js
   && js_pos (price_eur item))%bool.

(** The reducer (lines 214-241). *)
Definition dedup_step (acc : list Car) (current : Car) : list Car :=
  let currentUrl := dedup_key current in
  match (if str_truthy currentUrl
         then List.find (fun item => str_eqb (dedup_key item) currentUrl) acc
         else None) with
  | Some _ => acc
  | None =>
      match List.find (fallback_match current) acc with
      | Some _ => acc
      | None => acc ++ [current]
      end
  end.

(** [[...cars].sort(byTimestampDesc).reduce(dedup_step, [])]. *)
Definition uniqueCars (cars : list Car) : list Car :=
  fold_left dedup_step (js_sort by_timestamp_desc cars) [].

(** [y] (kept) makes [x] a duplicate. *)
Definition dup_of (y x : Car) : bool :=
  ((str_truthy (dedup_key x) && str_eqb (dedup_key y) (dedup_key x)) || fallback_match x y)%bool.

Definition is_dup (acc : list Car) (x : Car) : bool := existsb (fun y => dup_of y x) acc.

(** The cars of [l] are kept one after the other, starting from [acc]. *)
Fixpoint dup_free_from (acc l : list Car) : bool :=
  match l with
  | [] => true
  | x :: r => negb (is_dup acc x) && dup_free_from (acc ++ [x]) r
  end.

(** The non-empty URL keys of a list of cars. *)
Definition url_keys (l : list Car) : list string := List.filter str_truthy (map dedup_key l).

(** The [(price_eur, mileage)] pairs of the cars with a positive EUR price. *)
Definition priced_pairs (l : list Car) : list (option Z * option Z) :=
  map (fun c => (price_eur c, mileage c)) (List.filter (fun c => js_pos (price_eur c)) l).

(** A car with only the fields the deduplicator reads (concrete runs). *)
Definition sample_car (i : string) (lnk : option string) (secs : Z) (eur km czk : option Z) : Car :=
  mkCar i None None lnk None czk None eur km None (Some (mkTimestamp secs 0))
        None None None None None no_display.

(** ** The reducer, one step *)

Lemma find_existsb {A B} (f : A -> bool) l (a b : B) :
  match List.find f l with Some _ => a | None => b end = if existsb f l then a else b.
Proof. induction l as [|x l IH]; simpl; [reflexivity|]. now destruct (f x). Qed.

Lemma is_dup_split acc x :
  is_dup acc x =
    ((str_truthy (dedup_key x) && existsb (fun y => str_eqb (dedup_key y) (dedup_key x)) acc)
     || existsb (fallback_match x) acc)%bool.
Proof.
  unfold is_dup, dup_of. induction acc as [|y acc IH]; simpl; [now destruct str_truthy|].
  rewrite IH. btauto.
Qed.

(** The reducer keeps [x] exactly when no accumulated car is a duplicate. *)
Lemma dedup_step_spec acc x : dedup_step acc x = if is_dup acc x then acc else acc ++ [x].
Proof.
  unfold dedup_step. rewrite is_dup_split.
  destruct (str_truthy (dedup_key x)); simpl; rewrite ?find_existsb;
    [destruct (existsb _ acc)|]; simpl; rewrite ?find_existsb; reflexivity.
Qed.

Lemma is_dup_app acc1 acc2 x : is_dup (acc1 ++ acc2) x = (is_dup acc1 x || is_dup acc2 x)%bool.
Proof. apply existsb_app. Qed.

Lemma is_dup_true acc x : is_dup acc x = true <-> exists y, In y acc /\ dup_of y x = true.
Proof. apply existsb_exists. Qed.

(** ** The fold *)

(** The fold only appends, and what it appends is a sub-list of its
    input that is duplicate-free after the accumulator. *)
Lemma fold_dedup_out l acc :
  exists out, fold_left dedup_step l acc = acc ++ out /\
              dup_free_from acc out = true /\ sublist out l.
Proof.
  revert acc; induction l as [|x l IH]; intros acc; simpl.
  - exists []. rewrite app_nil_r. split; [reflexivity|split; [reflexivity|constructor]].
  - rewrite dedup_step_spec. destruct (is_dup acc x) eqn:Hd.
    + destruct (IH acc) as (out & Heq & Hfree & Hsub).
      exists out. split; [exact Heq|split; [exact Hfree|now apply sublist_cons]].
    + destruct (IH (acc ++ [x])) as (out & Heq & Hfree & Hsub).
      exists (x :: out). rewrite Heq, <- app_assoc. split; [reflexivity|].
      split; [simpl; now rewrite Hd, Hfree|now apply sublist_skip].
Qed.

(** A list that is duplicate-free after [acc] goes through the fold unchanged. *)
Lemma fold_dedup_free l acc :
  dup_free_from acc l = true -> fold_left dedup_step l acc = acc ++ l.
Proof.
  revert acc; induction l as [|x l IH]; intros acc; simpl; [now rewrite app_nil_r|].
  intros [Hd Hf]%andb_true_iff. apply negb_true_iff in Hd.
  rewrite dedup_step_spec, Hd, IH by exact Hf. now rewrite <- app_assoc.
Qed.

Lemma uniqueCars_out l :
  dup_free_from [] (uniqueCars l) = true /\ sublist (uniqueCars l) (js_sort by_timestamp_desc l).
Proof.
  unfold uniqueCars. destruct (fold_dedup_out (js_sort by_timestamp_desc l) [])
    as (out & -> & Hf & Hs). simpl. auto.
Qed.

Lemma fold_dedup_keeps l acc x : In x acc -> In x (fold_left dedup_step l acc).
Proof.
  intros Hx. destruct (fold_dedup_out l acc) as (out & -> & _). apply in_or_app. now left.
Qed.

Lemma uniqueCars_sorted l : Sorted (le_c by_timestamp_desc) (uniqueCars l).
Proof.
  apply (sublist_sorted _ _ (js_sort by_timestamp_desc l)); [apply uniqueCars_out|].
  apply js_sort_sorted. unfold by_timestamp_desc. apply _.
Qed.

(** ** Duplicate-freedom of the result *)

Lemma url_keys_snoc acc x :
  url_keys (acc ++ [x]) = url_keys acc ++ (if str_truthy (dedup_key x) then [dedup_key x] else []).
Proof. unfold url_keys. rewrite map_app, List.filter_app. reflexivity. Qed.

Lemma priced_pairs_snoc acc x :
  priced_pairs (acc ++ [x]) =
    priced_pairs acc ++ (if js_pos (price_eur x) then [(price_eur x, mileage x)] else []).
Proof.
  unfold priced_pairs. rewrite List.filter_app, map_app. simpl.
  destruct (js_pos (price_eur x)); reflexivity.
Qed.

Lemma NoDup_snoc_opt {K} (l : list K) (b : bool) (k : K) :
  NoDup l -> (b = true -> k ∉ l) -> NoDup (l ++ if b then [k] else []).
Proof.
  intros Hl Hk. destruct b; [|now rewrite app_nil_r].
  apply NoDup_app. split; [exact Hl|split; [|apply NoDup_singleton]].
  intros y Hy ->%list_elem_of_singleton. now apply (Hk eq_refl).
Qed.

Lemma url_key_not_dup acc x :
  is_dup acc x = false -> str_truthy (dedup_key x) = true -> dedup_key x ∉ url_keys acc.
Proof.
  intros Hd Ht Hin. apply list_elem_of_In in Hin. unfold url_keys in Hin.
  apply filter_In in Hin as [Hin _]. apply in_map_iff in Hin as (y & Hy & Hyin).
  assert (Hdup : is_dup acc x = true).
  { apply is_dup_true. exists y. split; [exact Hyin|].
    unfold dup_of. rewrite Ht, Hy. simpl. unfold str_eqb. now rewrite String.eqb_refl. }
  congruence.
Qed.

Lemma priced_pair_not_dup acc x :
  is_dup acc x = false -> js_pos (price_eur x) = true ->
  (price_eur x, mileage x) ∉ priced_pairs acc.
Proof.
  intros Hd Hp Hin. apply list_elem_of_In in Hin. unfold priced_pairs in Hin.
  apply in_map_iff in Hin as (y & Hy & Hyin). apply filter_In in Hyin as [Hyin Hpy].
  injection Hy as Hpe Hkm.
  assert (Hdup : is_dup acc x = true).
  { apply is_dup_true. exists y. split; [exact Hyin|]. unfold dup_of, fallback_match.
    rewrite Hpy, Hpe, Hkm. destruct (price_eur x) as [v|], (mileage x) as [w|];
      simpl; rewrite ?Z.eqb_refl, ?orb_true_r; reflexivity. }
  congruence.
Qed.

Lemma dup_free_nodup acc out :
  dup_free_from acc out = true -> NoDup (url_keys acc) -> NoDup (priced_pairs acc) ->
  NoDup (url_keys (acc ++ out)) /\ NoDup (priced_pairs (acc ++ out)).
Proof.
  revert acc; induction out as [|x out IH]; intros acc; simpl.
  - rewrite app_nil_r. auto.
  - intros [Hd Hf]%andb_true_iff Hk Hp. apply negb_true_iff in Hd.
    replace (acc ++ x :: out) with ((acc ++ [x]) ++ out) by now rewrite <- app_assoc.
    apply IH; [exact Hf| |].
    + rewrite url_keys_snoc. apply NoDup_snoc_opt; [exact Hk|]. now apply url_key_not_dup.
    + rewrite priced_pairs_snoc. apply NoDup_snoc_opt; [exact Hp|]. now apply priced_pair_not_dup.
Qed.

(** (C2) No two cars of the garage share a normalized URL key, and no two
    cars with a positive EUR price share their [(price_eur, mileage)]
    pair. *)
Theorem uniqueCars_no_duplicates l :
  NoDup (url_keys (uniqueCars l)) /\ NoDup (priced_pairs (uniqueCars l)).
Proof.
  apply (dup_free_nodup [] (uniqueCars l)); [apply uniqueCars_out|constructor|constructor].
Qed.

(** ** Idempotence *)

(** Deduplicating the garage again changes nothing. *)
Theorem uniqueCars_idem l : uniqueCars (uniqueCars l) = uniqueCars l.
Proof.
  unfold uniqueCars at 1. rewrite js_sort_sorted_id by (apply _ || apply uniqueCars_sorted).
  apply fold_dedup_free, uniqueCars_out.
Qed.

(** ** Every dropped car has a kept duplicate at least as recent *)

Lemma fold_cover l acc :
  StronglySorted (le_c by_timestamp_desc) l ->
  (forall y z, In y acc -> In z l -> time_of z <= time_of y) ->
  forall x, In x l ->
  In x (fold_left dedup_step l acc) \/
  exists y, In y (fold_left dedup_step l acc) /\ dup_of y x = true /\ time_of x <= time_of y.
Proof.
  revert acc; induction l as [|z l IH]; intros acc Hs Hacc x Hx; [destruct Hx|].
  inversion Hs as [|? ? Hs' Hall]; subst. simpl.
  destruct Hx as [-> | Hx].
  - rewrite dedup_step_spec. destruct (is_dup acc x) eqn:Hd.
    + right. apply is_dup_true in Hd as (y & Hy & Hdup). exists y.
      split; [now apply fold_dedup_keeps|]. split; [exact Hdup|]. apply Hacc; [exact Hy|now left].
    + left. apply fold_dedup_keeps. apply in_or_app. right. now left.
  - apply IH; [exact Hs'| |exact Hx]. intros y w Hy Hw.
    rewrite dedup_step_spec in Hy. destruct (is_dup acc z).
    + apply Hacc; [exact Hy|now right].
    + apply in_app_or in Hy as [Hy|[<-|[]]]; [apply Hacc; [exact Hy|now right]|].
      rewrite List.Forall_forall in Hall. specialize (Hall w Hw).
      unfold le_c, by_timestamp_desc, by_key_desc in Hall. lia.
Qed.

(** (C1) Recency preference: every fetched car is either in the garage or
    has a duplicate there (same URL key, or same positive EUR price and
    mileage) whose [timestamp.seconds] is at least its own. *)
Theorem uniqueCars_cover l x :
  In x l ->
  In x (uniqueCars l) \/
  exists y, In y (uniqueCars l) /\ dup_of y x = true /\ time_of x <= time_of y.
Proof.
  intros Hx. unfold uniqueCars. apply fold_cover.
  - apply (Sorted_StronglySorted (le_c_trans by_timestamp_desc)). apply js_sort_sorted. apply _.
  - intros y z [].
  - now apply (Permutation_in _ (js_sort_perm by_timestamp_desc l)).
Qed.

(** ** Cars that cannot be identified are always kept *)

Lemma anon_not_dup acc x :
  str_truthy (dedup_key x) = false -> js_pos (price_eur x) = false -> is_dup acc x = false.
Proof.
  intros Hk Hp. rewrite is_dup_split, Hk. simpl. apply not_true_iff_false.
  intros (y & _ & Hy)%existsb_exists. unfold fallback_match in Hy.
  apply andb_true_iff in Hy as [[He _]%andb_true_iff Hpy].
  apply js_eq_num_spec in He. rewrite He in Hpy. congruence.
Qed.

Lemma fold_keeps_never_dup l acc x :
  In x l -> (forall acc', is_dup acc' x = false) -> In x (fold_left dedup_step l acc).
Proof.
  revert acc; induction l as [|z l IH]; intros acc Hx Hnd; [destruct Hx|]. simpl.
  destruct Hx as [<-|Hx]; [|now apply IH].
  apply fold_dedup_keeps. rewrite dedup_step_spec, Hnd. apply in_or_app. right. now left.
Qed.

(** A car with neither a URL key nor a positive [price_eur] is never
    dropped, whatever else was fetched: there is not enough information
    to prove it a duplicate. *)
Theorem uniqueCars_keeps_anonymous l x :
  In x l -> dedup_key x = EmptyString -> js_pos (price_eur x) = false -> In x (uniqueCars l).
Proof.
  intros Hx Hk Hp. unfold uniqueCars. apply fold_keeps_never_dup.
  - now apply (Permutation_in _ (js_sort_perm by_timestamp_desc l)).
  - intros acc. apply anon_not_dup; [now rewrite Hk|exact Hp].
Qed.

(** ** Concrete runs *)

Local Open Scope string_scope.

(** The example of the spec: A (seconds 100, 500000 CZK) and B (seconds
    200, 520000 CZK) with the same link up to the query string and case
    collapse to B alone, in either fetch order. *)
Example uniqueCars_recency_example :
  let A := sample_car "A" (Some "https://suchen.mobile.de/auto/123?ref=x") 100
             (Some 20000) (Some 50000) (Some 500000) in
  let B := sample_car "B" (Some "https://Suchen.Mobile.de/auto/123") 200
             (Some 20500) (Some 50100) (Some 520000) in
  uniqueCars [A; B] = [B] /\ uniqueCars [B; A] = [B].
Proof. vm_compute. split; reflexivity. Qed.

(** The price/mileage fallback: two cars without a URL, with equal
    positive [price_eur] and equal [mileage], collapse to the newer one;
    with [price_eur = 0] both are kept. *)
Example uniqueCars_fallback_example :
  uniqueCars [sample_car "A" None 100 (Some 25000) (Some 40000) None;
              sample_car "B" None 200 (Some 25000) (Some 40000) None]
    = [sample_car "B" None 200 (Some 25000) (Some 40000) None] /\
  List.length (uniqueCars [sample_car "A" None 100 (Some 0) (Some 40000) None;
                      sample_car "B" None 200 (Some 0) (Some 40000) None]) = 2%nat.
Proof. vm_compute. split; reflexivity. Qed.

(** With equal [timestamp.seconds], which of two duplicates is kept
    depends on the order the store returned them in: the spec assumes no
    order from [listAll] and says the most recent capture is kept, but a
    tie leaves the choice to the fetch order. *)
Example uniqueCars_tie_order :
  let A := sample_car "A" (Some "https://www.sauto.cz/1") 100 None None None in
  let B := sample_car "B" (Some "https://www.sauto.cz/1") 100 None None None in
  Permutation [A; B] [B; A] /\ uniqueCars [A; B] = [A] /\ uniqueCars [B; A] = [B].
Proof. split; [apply perm_swap|]. vm_compute. split; reflexivity. Qed.

(** Witnesses. *)
Lemma uniqueCars_cover_witness :
  let A := sample_car "A" (Some "https://x.cz/1") 100 None None None in
  let B := sample_car "B" (Some "https://x.cz/1?a") 200 None None None in
  In A (uniqueCars [A; B]) \/
  exists y, In y (uniqueCars [A; B]) /\ dup_of y A = true /\ time_of A <= time_of y.
Proof. apply uniqueCars_cover. simpl. now left. Defined.

Lemma uniqueCars_keeps_anonymous_witness :
  let A := sample_car "A" None 100 (Some 0) (Some 10) None in
  In A (uniqueCars [A; A; sample_car "B" None 300 (Some 0) (Some 10) None]).
Proof. apply uniqueCars_keeps_anonymous; [simpl; now left|reflexivity|reflexivity]. Defined.

(** ** Maps the deduplication does not see

    A map that keeps the keys [uniqueCars] reads (the two URLs, the EUR
    price, the mileage and the timestamp) commutes with it: the local
    merge of an edit changes the kept cars but not which are kept. *)
Section DedupMap.
Variable f : Car -> Car.
Hypothesis f_keeps : forall c, link (f c) = link c /\ url (f c) = url c /\ price_eur (f c) = price_eur c
                               /\ mileage (f c) = mileage c /\ timestamp (f c) = timestamp c.

Lemma dedup_key_map c : dedup_key (f c) = dedup_key c.
Proof. destruct (f_keeps c) as (H1 & H2 & _). unfold dedup_key. now rewrite H1, H2. Qed.

Lemma fallback_match_map c d : fallback_match (f c) (f d) = fallback_match c d.
Proof.
  destruct (f_keeps c) as (_ & _ & H3 & H4 & _), (f_keeps d) as (_ & _ & H3' & H4' & _).
  unfold fallback_match. now rewrite H3, H4, H3', H4'.
Qed.

Lemma dedup_step_map acc c : dedup_step (map f acc) (f c) = map f (dedup_step acc c).
Proof.
  unfold dedup_step. rewrite dedup_key_map.
  rewrite (find_map_ext f _ (fun x => str_eqb (dedup_key x) (dedup_key c))) by (intros; now rewrite dedup_key_map).
  rewrite (find_map_ext f _ (fallback_match c)) by (intros; apply fallback_match_map).
  destruct (str_truthy (dedup_key c));
    [destruct (List.find (fun x => str_eqb (dedup_key x) (dedup_key c)) acc); cbn; [reflexivity|]|cbn];
    destruct (List.find (fallback_match c) acc); cbn; [reflexivity| |reflexivity|];
    rewrite map_app; reflexivity.
Qed.

Lemma fold_dedup_map l acc : fold_left dedup_step (map f l) (map f acc) = map f (fold_left dedup_step l acc).
Proof. revert acc. induction l as [|c l IH]; intros acc; cbn; [reflexivity|]. now rewrite dedup_step_map. Qed.

Lemma uniqueCars_map l : uniqueCars (map f l) = map f (uniqueCars l).
Proof.
  unfold uniqueCars. rewrite (js_sort_map by_timestamp_desc by_timestamp_desc f).
  - exact (fold_dedup_map _ []).
  - intros a b. unfold by_timestamp_desc, by_key_desc, time_of.
    now rewrite (proj2 (proj2 (proj2 (proj2 (f_keeps a))))), (proj2 (proj2 (proj2 (proj2 (f_keeps b))))).
Qed.
End DedupMap.
