(* ===== verification/Select.v ===== *)
(** * The Filter/Sort Engine and the garage view

    [processedCars] of [App.tsx] (lines 244-270): the deduplicated cars
    filtered by the search box (case-insensitive substring of [model],
    [make], [location], [notes] or a tag) and sorted by one of the five
    options of the select box, each a difference of integer keys with
    missing values read as 0.  [garage_body] is what the garage tab
    renders below its header (lines 495-597), and [saved_count] the number
    shown next to "Uložené inzeráty" (line 430).

    The theorems: the engine returns the filtered cars ordered by the
    field each option names, stably; filtering and sorting commute (a
    requirement of the spec), the engine is idempotent, the filter is exactly the spec's
    case-insensitive substring test, the sort is stable — and the rendered
    grid and table ignore both the filter and the sort. *)

From S2P Require Import Prelude JsSort Listing Dedup.

Local Open Scope Z_scope.

(** [field?.toLowerCase().includes(searchLower)]: false for an absent field. *)
Definition opt_includes (field : option string) (searchLower : string) : bool :=
  match field with
  | Some f => includes searchLower (lower f)
  | None => false
  end.

(** The [filter] callback (lines 245-255). *)
Definition matchesFilter (filterText : string) (car : Car) : bool :=
  if negb (str_truthy filterText) then true
  else
    let searchLower := lower filterText in
    (opt_includes (model car) searchLower
     || opt_includes (make car) searchLower
     || opt_includes (location car) searchLower
     || opt_includes (notes car) searchLower
     || match tags car with
        | Some ts => existsb (fun tag => includes searchLower (lower tag)) ts
        | None => false
        end)%bool.

(** The values of [<select>] (lines 461-465). *)
Inductive SortOption := price_asc | price_desc | mileage_asc | score_desc | date_desc.

(** The [sort] callback (lines 256-269). *)
Definition sort_cmp (o : SortOption) : Car -> Car -> Z :=
  match o with
  | price_asc => by_key_asc (fun c => js_or_num (price_czk c) 0)
  | price_desc => by_key_desc (fun c => js_or_num (price_czk c) 0)
  | mileage_asc => by_key_asc (fun c => js_or_num (mileage c) 0)
  | score_desc => by_key_desc (fun c => js_or_num (expert_score c) 0)
  | date_desc => by_key_desc time_of
  end.

(** [records.filter(...).sort(...)]: the engine on any list. *)
Definition select_cars (records : list Car) (filterText : string) (o : SortOption) : list Car :=
  js_sort (sort_cmp o) (List.filter (matchesFilter filterText) records).

(** [processedCars = uniqueCars.filter(...).sort(...)]. *)
Definition processedCars (cars : list Car) (filterText : string) (o : SortOption) : list Car :=
  select_cars (uniqueCars cars) filterText o.

Inductive ViewMode := grid | table.

(** What the garage tab shows under its header (lines 495-597). *)
Inductive GarageBody :=
  | body_loading
  | body_empty
  | body_grid (cars : list Car)
  | body_table (cars : list Car).

Definition garage_body (loading analyzing : bool) (cars : list Car) (viewMode : ViewMode)
    (filterText : string) (o : SortOption) : GarageBody :=
  if (loading && negb analyzing)%bool then body_loading
  else match cars with
       | [] => body_empty
       | _ => match viewMode with
              | grid => body_grid (uniqueCars cars)
              | table => body_table (uniqueCars cars)
              end
       end.

(** The count shown next to the list title (line 430). *)
Definition saved_count (cars : list Car) (filterText : string) (o : SortOption) : nat :=
  List.length (processedCars cars filterText o).

(** The cars a garage body lists. *)
Definition body_cars (b : GarageBody) : list Car :=
  match b with body_grid l | body_table l => l | _ => [] end.

(** A car with only an id, a model and a score (concrete runs). *)
Definition scored_car (i : string) (m : option string) (score : option Z) : Car :=
  mkCar i m None None None None None None None None None score None None None None no_display.

(** The strings the search box is matched against. *)
Definition searchable_fields (car : Car) : list string :=
  option_list (model car) ++ option_list (make car) ++ option_list (location car)
  ++ option_list (notes car) ++ default [] (tags car).

#[export] Instance sort_cmp_comparator o : JsComparator (sort_cmp o).
Proof. destruct o; simpl; apply _. Qed.

(** ** The filter is the spec's case-insensitive substring test *)

Lemma str_truthy_lower s : str_truthy (lower s) = str_truthy s.
Proof. now destruct s. Qed.

Lemma opt_includes_spec o s :
  opt_includes o s = true <-> exists f, In f (option_list o) /\ includes s (lower f) = true.
Proof.
  destruct o as [f|]; simpl; split.
  - intros H. exists f. auto.
  - intros (g & [<-|[]] & H). exact H.
  - discriminate.
  - intros (g & [] & _).
Qed.

Lemma tags_includes_spec (t : option (list string)) s :
  match t with Some ts => existsb (fun tag => includes s (lower tag)) ts | None => false end = true
  <-> exists f, In f (default [] t) /\ includes s (lower f) = true.
Proof.
  destruct t as [ts|]; simpl; [apply existsb_exists|].
  split; [discriminate|intros (? & [] & _)].
Qed.

(** (C11) A car passes the search box exactly when the box is empty or the
    lower-cased text occurs in the lower-cased [model], [make],
    [location], [notes] or one of the tags. *)
Theorem matchesFilter_spec ft c :
  matchesFilter ft c = true <->
  ft = EmptyString \/
  exists f p q, In f (searchable_fields c) /\
                lower f = String.append p (String.append (lower ft) q).
Proof.
  unfold matchesFilter, searchable_fields. destruct (str_truthy ft) eqn:Ht; simpl.
  - rewrite !orb_true_iff, !opt_includes_spec, tags_includes_spec. split.
    + intros H. right.
      destruct H as [[[[H|H]|H]|H]|H]; destruct H as (f & Hin & Hinc);
        apply includes_spec in Hinc as (p & q & Hpq); exists f, p, q;
        (split; [rewrite !in_app_iff; tauto|exact Hpq]).
    + intros [->|(f & p & q & Hin & Hpq)]; [discriminate|].
      assert (Hinc : includes (lower ft) (lower f) = true) by (apply includes_spec; eauto).
      rewrite !in_app_iff in Hin.
      destruct Hin as [H|[H|[H|[H|H]]]];
        [left; left; left; left|left; left; left; right|left; left; right|left; right|right];
        exists f; auto.
  - split; [intros _; left; destruct ft; [reflexivity|discriminate]|auto].
Qed.

(** Only the lower-cased search text matters: texts equal up to case
    select the same cars. *)
Theorem matchesFilter_case ft1 ft2 c :
  lower ft1 = lower ft2 -> matchesFilter ft1 c = matchesFilter ft2 c.
Proof.
  intros H. unfold matchesFilter. rewrite <- (str_truthy_lower ft1), <- (str_truthy_lower ft2), H.
  reflexivity.
Qed.

(** ** Filtering and sorting commute *)

(** Sorting then filtering gives the same list as filtering then sorting. *)
Theorem select_cars_commute l ft o :
  select_cars l ft o = List.filter (matchesFilter ft) (js_sort (sort_cmp o) l).
Proof. unfold select_cars. apply js_sort_filter, sort_cmp_comparator. Qed.

(** (C6) What the engine returns, option by option: exactly the cars that
    pass the filter, each once, ordered by ascending price
    ([price_czk || 0]), descending price, ascending mileage
    ([mileage || 0]), descending expert score ([expert_score || 0]) or
    newest first ([time_of], the [createdAt] stamp), with cars of equal
    key kept in their input order. *)
Theorem processed_sorted_spec l ft o :
  Permutation (select_cars l ft o) (List.filter (matchesFilter ft) l) /\
  Sorted (fun a b => match o with
                     | price_asc => js_or_num (price_czk a) 0 <= js_or_num (price_czk b) 0
                     | price_desc => js_or_num (price_czk b) 0 <= js_or_num (price_czk a) 0
                     | mileage_asc => js_or_num (mileage a) 0 <= js_or_num (mileage b) 0
                     | score_desc => js_or_num (expert_score b) 0 <= js_or_num (expert_score a) 0
                     | date_desc => time_of b <= time_of a
                     end) (select_cars l ft o) /\
  stable_wrt (sort_cmp o) (List.filter (matchesFilter ft) l) (select_cars l ft o).
Proof.
  unfold select_cars. split; [symmetry; apply js_sort_perm|]. split; [|apply js_sort_stable; apply _].
  apply (Sorted_weaken (le_c (sort_cmp o))); [|apply js_sort_sorted; apply _].
  intros a b. unfold le_c. destruct o; cbn [sort_cmp]; unfold by_key_asc, by_key_desc; lia.
Qed.

(** Running the engine on its own output changes nothing. *)
Theorem select_cars_idem l ft o : select_cars (select_cars l ft o) ft o = select_cars l ft o.
Proof.
  unfold select_cars at 1. rewrite js_sort_filter by apply sort_cmp_comparator. unfold select_cars.
  rewrite js_sort_idem by apply sort_cmp_comparator.
  rewrite <- js_sort_filter by apply sort_cmp_comparator. now rewrite filter_idem.
Qed.

(** ** What the garage tab renders *)

(** (C34) The grid and the table list [uniqueCars], not [processedCars]: a
    car the search text excludes is still rendered, while the count next
    to the title leaves it out; the filter box and the sort selector have
    no effect on the rendered list. *)
Theorem garage_renders_unfiltered loading analyzing cars vm ft o c :
  (loading && negb analyzing)%bool = false ->
  In c (uniqueCars cars) -> matchesFilter ft c = false ->
  In c (body_cars (garage_body loading analyzing cars vm ft o)) /\
  ~ In c (processedCars cars ft o).
Proof.
  intros Hl Hin Hf. split.
  - unfold garage_body. rewrite Hl. destruct cars as [|x r]; [destruct Hin|].
    destruct vm; exact Hin.
  - unfold processedCars, select_cars. rewrite js_sort_filter by apply sort_cmp_comparator. intros Hin'.
    apply filter_In in Hin' as [_ Hm]. congruence.
Qed.

(** ** Concrete runs *)

Local Open Scope string_scope.

(** The spec's examples: [model = "Model Y"] matches "model y" and
    "MODEL" but not "kia"; scores [50; 50; 90] sorted by [score_desc] give
    ids [3; 1; 2] (the tie keeps the input order). *)
Example select_spec_examples :
  matchesFilter "model y" (scored_car "1" (Some "Model Y") None) = true /\
  matchesFilter "MODEL" (scored_car "1" (Some "Model Y") None) = true /\
  matchesFilter "kia" (scored_car "1" (Some "Model Y") None) = false /\
  map id (select_cars [scored_car "1" None (Some 50); scored_car "2" None (Some 50);
                       scored_car "3" None (Some 90)] "" score_desc) = ["3"; "1"; "2"].
Proof. vm_compute. repeat split. Qed.

(** Witness. *)
Lemma garage_renders_unfiltered_witness :
  let c := scored_car "1" (Some "Model Y") None in
  In c (body_cars (garage_body false false [c] grid "kia" date_desc)) /\
  ~ In c (processedCars [c] "kia" date_desc).
Proof. apply garage_renders_unfiltered; [reflexivity|simpl; now left|reflexivity]. Defined.

Lemma matchesFilter_case_witness :
  matchesFilter "MODEL y" (scored_car "1" (Some "Model Y") None)
  = matchesFilter "model Y" (scored_car "1" (Some "Model Y") None).
Proof. apply matchesFilter_case. vm_compute. reflexivity. Defined.
