(* ===== verification/Breakdown.v ===== *)
(** * The Cost Breakdown Presenter

    [ScrollytellingCalculator] of [ScrollytellingCalculator.tsx]: the
    section list built from a record's [cost_breakdown] (lines 108-170),
    the running total over the revealed sections (173-181), the warning
    header (184-185), and the IntersectionObserver callback that reveals
    sections as they scroll into view (188-204), with the wrapper that
    falls back to a two-row summary for records without a breakdown
    (77-100, 352-357).

    The reveal state is [visibleSections] and [pulseKey]; the callback is
    [observe], and [reveal_step] is the step relation whose entries are
    any intersection reports on the observed elements (the sections and,
    when there are warnings, the warnings block — every element with a
    [data-section-id], line 215).  Section labels, icons and visuals are
    constant per section and not modelled; notes are modelled by which
    note is shown. *)

From S2P Require Import Prelude Listing.
From stdpp Require Import gmap.
From Stdlib Require Import QArith_base Qround Qabs Lqa.

Local Open Scope Z_scope.

(** The handwritten note under a section. *)
Inductive SectionNote :=
  | note_base_price (base_price_eur : Q)   (* `${base_price_eur} € × 25,2` *)
  | note_vat_saving                        (* 'Netto → CZ DPH 21% = úspora' *)
  | note_vat_recompute                     (* 'Přepočet DPH DE→CZ' *)
  | note_logistics
  | note_tires
  | note_service.

Record CalcSection := mkSection {
  section_id : string;
  amount : Z;
  note : SectionNote;
  alwaysShow : bool
}.

(** [Math.round(x)] rounds half up: [floor(x + 1/2)]. *)
Definition js_round (x : Q) : Z := Qfloor (x + (1 # 2))%Q.

(** [Math.abs(v) > 1]. *)
Definition vat_shown (v : Q) : bool := negb (Qle_bool (Qabs v) 1).

(** [Math.round(breakdown.vat_adjustment_eur * 25.2)]. *)
Definition vat_czk (v : Q) : Z := js_round (v * (252 # 10))%Q.

(** The [useMemo] that pushes the sections in order (lines 108-170). *)
Definition buildSections (b : CostBreakdown) : list CalcSection :=
  let s := [mkSection "base"%string (base_czk b) (note_base_price (base_price_eur b)) true] in
  let s := if vat_shown (vat_adjustment_eur b)
           then let vatCzk := vat_czk (vat_adjustment_eur b) in
                s ++ [mkSection "vat"%string vatCzk
                        (if Z.ltb vatCzk 0 then note_vat_saving else note_vat_recompute) true]
           else s in
  let s := s ++ [mkSection "logistics"%string (logistics_czk b) note_logistics true] in
  let s := if Z.ltb 0 (tires_czk b) then s ++ [mkSection "tires"%string (tires_czk b) note_tires false]
           else s in
  if Z.ltb 0 (service_czk b) then s ++ [mkSection "service"%string (service_czk b) note_service false]
  else s.

(** [currentTotal] (lines 173-181): the amounts of the revealed sections. *)
Definition currentTotal (sections : list CalcSection) (visible : gset string) : Z :=
  fold_left (fun total s => if decide (section_id s ∈ visible) then total + amount s else total)
            sections 0.

Definition hasWarnings (b : CostBreakdown) : bool := negb (Nat.eqb (length (warnings b)) 0).

(** [hasWarnings && visibleSections.size === sections.length] (line 185). *)
Definition showWarningHeader (b : CostBreakdown) (visible : gset string) : bool :=
  hasWarnings b && Nat.eqb (size visible) (length (buildSections b)).

(** The [data-section-id]s of the observed elements (line 215): the
    sections, then the warnings block when there are warnings (298). *)
Definition observed_ids (b : CostBreakdown) : list string :=
  map section_id (buildSections b) ++ (if hasWarnings b then ["warnings"%string] else []).

(** One [IntersectionObserverEntry]: [dataset.sectionId] and [isIntersecting]. *)
Record ObsEntry := mkEntry { entry_id : option string; isIntersecting : bool }.

Record RevealState := mkReveal { visibleSections : gset string; pulseKey : Z }.

Definition initial_reveal : RevealState := mkReveal ∅ 0.

(** The body of [entries.forEach]: add an intersecting, not yet visible id. *)
Definition add_entry (acc : gset string * bool) (e : ObsEntry) : gset string * bool :=
  let '(next, changed) := acc in
  match entry_id e with
  | Some i => if (isIntersecting e && negb (bool_decide (i ∈ next)))%bool
              then ({[i]} ∪ next, true) else (next, changed)
  | None => (next, changed)
  end.

(** [new Set(prev)], then [entries.forEach]: the grown set and [changed]. *)
Definition add_entries (entries : list ObsEntry) (prev : gset string) : gset string * bool :=
  fold_left add_entry entries (prev, false).

(** [observerCallback] (lines 188-204): the state update and the
    [setPulseKey(k => k + 1)] it triggers when something changed. *)
Definition observe (entries : list ObsEntry) (st : RevealState) : RevealState :=
  let '(next, changed) := add_entries entries (visibleSections st) in
  if changed then mkReveal next (pulseKey st + 1) else st.

(** One callback, on entries that report observed elements. *)
Inductive reveal_step (b : CostBreakdown) : RevealState -> RevealState -> Prop :=
  | reveal_cb entries st :
      Forall (fun e => match entry_id e with Some i => In i (observed_ids b) | None => True end)
             entries ->
      reveal_step b st (observe entries st).

Inductive reachable (b : CostBreakdown) : RevealState -> Prop :=
  | reach_init : reachable b initial_reveal
  | reach_step st st' : reachable b st -> reveal_step b st st' -> reachable b st'.

(** The fallback for records without [cost_breakdown] (lines 77-100):
    the listing price, and the real price when it differs. *)
Definition fallback_rows (car : Car) : Z * option Z :=
  let priceCzk := js_or_num (price_czk car) 0 in
  let realPrice := js_or_num (real_price_czk car) priceCzk in
  (priceCzk, if Z.eqb realPrice priceCzk then None else Some realPrice).

Inductive CalculatorView :=
  | view_fallback (price : Z) (real : option Z)
  | view_sections (sections : list CalcSection) (total_czk : Z).

(** [ScrollytellingCalculatorWrapper] (lines 352-357). *)
Definition calculator_view (car : Car) : CalculatorView :=
  match cost_breakdown car with
  | None => let '(p, r) := fallback_rows car in view_fallback p r
  | Some b => view_sections (buildSections b) (total_czk b)
  end.

(** The sum of the amounts of a list of sections. *)
Definition sections_sum (l : list CalcSection) : Z := fold_right (fun s t => amount s + t) 0 l.

(** Intersection reports for the given ids, all intersecting. *)
Definition entries_for (ids : list string) : list ObsEntry := map (fun i => mkEntry (Some i) true) ids.

(** A breakdown for concrete runs: 30000 EUR net, a 2000 EUR VAT saving,
    logistics, no tires or service, one warning. *)
Definition demo_breakdown : CostBreakdown :=
  mkCostBreakdown (30000 # 1) (-(2000 # 1))%Q (28000 # 1) 756000 25000 0 0 745600
                  [mkWarning high_mileage "High mileage"%string].

(** ** The sections *)

Lemma vat_shown_spec v : vat_shown v = true <-> (1 < Qabs v)%Q.
Proof.
  unfold vat_shown. rewrite negb_true_iff. split.
  - intros H. apply Qnot_le_lt. intros Hle. apply Qle_bool_iff in Hle. congruence.
  - intros H. destruct (Qle_bool (Qabs v) 1) eqn:E; [|reflexivity].
    apply Qle_bool_iff in E. exfalso. apply (Qlt_not_le _ _ H E).
Qed.

Lemma section_ids b :
  map section_id (buildSections b) =
    ["base"%string] ++ (if vat_shown (vat_adjustment_eur b) then ["vat"%string] else [])
    ++ ["logistics"%string] ++ (if Z.ltb 0 (tires_czk b) then ["tires"%string] else [])
    ++ (if Z.ltb 0 (service_czk b) then ["service"%string] else []).
Proof.
  unfold buildSections. destruct (vat_shown _), (Z.ltb 0 (tires_czk b)), (Z.ltb 0 (service_czk b));
    rewrite ?map_app; reflexivity.
Qed.

(** With no tire and no service costs the calculator shows exactly
    the base and logistics sections, with the VAT section between them
    exactly when [|vat_adjustment_eur| > 1]. *)
Theorem sections_without_extras b :
  tires_czk b <= 0 -> service_czk b <= 0 ->
  map section_id (buildSections b) =
    ("base" :: (if vat_shown (vat_adjustment_eur b) then ["vat"] else []) ++ ["logistics"])%string
  /\ (vat_shown (vat_adjustment_eur b) = true <-> (1 < Qabs (vat_adjustment_eur b))%Q).
Proof.
  intros Ht Hs. split; [|apply vat_shown_spec].
  rewrite section_ids. replace (Z.ltb 0 (tires_czk b)) with false by lia.
  replace (Z.ltb 0 (service_czk b)) with false by lia.
  destruct (vat_shown _); reflexivity.
Qed.

(** The observed elements have distinct ids: the sections' ids and
    the warnings block are pairwise different. *)
Theorem observed_ids_nodup b : NoDup (observed_ids b).
Proof.
  unfold observed_ids. rewrite section_ids.
  destruct (vat_shown _), (Z.ltb 0 (tires_czk b)), (Z.ltb 0 (service_czk b)), (hasWarnings b);
    apply (bool_decide_unpack _); vm_compute; reflexivity.
Qed.

Lemma js_round_neg x : (x < 0)%Q -> (x + (1 # 2) < 0)%Q -> js_round x < 0.
Proof.
  intros _ H. unfold js_round. pose proof (Qfloor_le (x + (1 # 2))) as Hf.
  rewrite Zlt_Qlt. change (inject_Z 0) with 0%Q. lra.
Qed.

Lemma js_round_nonneg x : (0 <= x)%Q -> 0 <= js_round x.
Proof.
  intros H. unfold js_round. pose proof (Qlt_floor (x + (1 # 2))) as Hf.
  assert (Hq : (0 < Qfloor (x + (1 # 2)) + 1)%Z).
  { rewrite Zlt_Qlt, inject_Z_plus. rewrite inject_Z_plus in Hf.
    change (inject_Z 0) with 0%Q. change (inject_Z 1) with 1%Q in *. lra. }
  lia.
Qed.

(** When shown, the VAT amount has the sign of [vat_adjustment_eur]. *)
Lemma vat_czk_sign v : vat_shown v = true -> (vat_czk v < 0 <-> (v < 0)%Q).
Proof.
  rewrite vat_shown_spec. intros Habs. unfold vat_czk. split.
  - intros Hn. apply Qnot_le_lt. intros Hv.
    assert (H : (0 <= v * (252 # 10))%Q) by nra.
    pose proof (js_round_nonneg _ H). lia.
  - intros Hv. assert (Hv' : (v < -1)%Q).
    { destruct (Qlt_le_dec v 0) as [Hn|Hn]; [|lra].
      rewrite Qabs_neg in Habs by lra. lra. }
    apply js_round_neg; lra.
Qed.

(** The VAT section, when shown, carries [Math.round(v * 25.2)] and
    the "saving" note exactly when [vat_adjustment_eur] is negative. *)
Theorem vat_section_spec b :
  vat_shown (vat_adjustment_eur b) = true ->
  In (mkSection "vat" (vat_czk (vat_adjustment_eur b))
        (if Z.ltb (vat_czk (vat_adjustment_eur b)) 0 then note_vat_saving else note_vat_recompute)
        true) (buildSections b) /\
  (Z.ltb (vat_czk (vat_adjustment_eur b)) 0 = true <-> (vat_adjustment_eur b < 0)%Q).
Proof.
  intros Hv. split.
  - unfold buildSections. rewrite Hv.
    destruct (Z.ltb 0 (tires_czk b)), (Z.ltb 0 (service_czk b));
      rewrite ?in_app_iff; simpl; tauto.
  - rewrite Z.ltb_lt. now apply vat_czk_sign.
Qed.

(** ** The running total *)

Lemma currentTotal_acc (l : list CalcSection) (V : gset string) acc :
  fold_left (fun total s => if decide (section_id s ∈ V) then total + amount s else total) l acc
  = acc + sections_sum (List.filter (fun s => bool_decide (section_id s ∈ V)) l).
Proof.
  revert acc; induction l as [|x l IH]; intros acc; simpl; [lia|].
  rewrite IH. destruct (decide (section_id x ∈ V)) as [H|H];
    [rewrite bool_decide_true by exact H|rewrite bool_decide_false by exact H]; simpl; lia.
Qed.

Lemma currentTotal_filter (l : list CalcSection) (V : gset string) :
  currentTotal l V = sections_sum (List.filter (fun s => bool_decide (section_id s ∈ V)) l).
Proof. unfold currentTotal. now rewrite currentTotal_acc. Qed.

(** Once every section is revealed, the sticky header shows the sum
    of the section amounts — computed from the sections, not from the
    authoritative [total_czk]. *)
Theorem currentTotal_all_revealed b (V : gset string) :
  (forall s, In s (buildSections b) -> section_id s ∈ V) ->
  currentTotal (buildSections b) V = sections_sum (buildSections b).
Proof.
  intros Hall. rewrite currentTotal_filter. f_equal.
  induction (buildSections b) as [|x l IH]; simpl; [reflexivity|].
  rewrite bool_decide_true by (apply Hall; now left).
  f_equal. apply IH. intros s Hs. apply Hall. now right.
Qed.

(** If no section amount is negative (no VAT saving), revealing more
    sections never lowers the running total. *)
Theorem currentTotal_monotone (l : list CalcSection) (V V' : gset string) :
  (forall s, In s l -> 0 <= amount s) -> V ⊆ V' -> currentTotal l V <= currentTotal l V'.
Proof.
  intros Hpos Hsub. rewrite !currentTotal_filter.
  induction l as [|x l IH]; simpl; [lia|].
  assert (Hx : 0 <= amount x) by (apply Hpos; now left).
  assert (IH' : sections_sum (List.filter (fun s => bool_decide (section_id s ∈ V)) l) <=
                sections_sum (List.filter (fun s => bool_decide (section_id s ∈ V')) l))
    by (apply IH; intros s Hs; apply Hpos; now right).
  destruct (bool_decide (section_id x ∈ V)) eqn:E1, (bool_decide (section_id x ∈ V')) eqn:E2;
    simpl; try lia.
  apply bool_decide_eq_true in E1. apply bool_decide_eq_false in E2. set_solver.
Qed.

(** ** The reveal state machine *)

Lemma add_entry_cases acc e :
  add_entry acc e = acc \/
  exists i, entry_id e = Some i /\ isIntersecting e = true /\ i ∉ acc.1 /\
            add_entry acc e = ({[i]} ∪ acc.1, true).
Proof.
  destruct acc as [next changed]. unfold add_entry. simpl.
  destruct (entry_id e) as [i|]; [|now left].
  destruct (isIntersecting e) eqn:Hi, (bool_decide (i ∈ next)) eqn:Hb; simpl; try now left.
  right. exists i. apply bool_decide_eq_false in Hb. auto.
Qed.

Lemma size_add_fresh (i : string) (X : gset string) : i ∉ X -> size ({[i]} ∪ X) = S (size X).
Proof. intros Hi. rewrite size_union by set_solver. now rewrite size_singleton. Qed.

(** What one callback does to the set: it only grows, by reported ids,
    and either nothing changes or the set strictly grows and [changed]
    is set. *)
Lemma add_entries_fold es n0 c0 :
  forall r, r = fold_left add_entry es (n0, c0) ->
  n0 ⊆ r.1 /\ (forall i, i ∈ r.1 -> i ∈ n0 \/ exists e, In e es /\ entry_id e = Some i) /\
  (r = (n0, c0) \/ (size n0 < size r.1)%nat /\ r.2 = true).
Proof.
  revert n0 c0; induction es as [|e es IH]; intros n0 c0 r ->; cbn [fold_left].
  - split; [set_solver|split; [auto|now left]].
  - destruct (add_entry_cases (n0, c0) e) as [He|(i & Hid & _ & Hni & He)]; rewrite He.
    + destruct (IH n0 c0 _ eq_refl) as (H1 & H2 & H3). split; [exact H1|split; [|exact H3]].
      intros j Hj. destruct (H2 j Hj) as [Hj'|(e' & Hin & He')]; [now left|].
      right. exists e'. split; [now right|exact He'].
    + simpl in *. destruct (IH ({[i]} ∪ n0) true _ eq_refl) as (H1 & H2 & H3).
      split; [set_solver|split].
      * intros j Hj. destruct (H2 j Hj) as [Hj'|(e' & Hin & He')].
        -- apply elem_of_union in Hj' as [->%elem_of_singleton|Hj']; [|now left].
           right. exists e. split; [now left|exact Hid].
        -- right. exists e'. split; [now right|exact He'].
      * right. pose proof (size_add_fresh i n0 Hni).
        destruct H3 as [->|[Hlt Hc]]; simpl; [split; [lia|reflexivity]|split; [lia|exact Hc]].
Qed.

Lemma add_entries_covers es acc e i :
  In e es -> entry_id e = Some i -> isIntersecting e = true -> i ∈ (fold_left add_entry es acc).1.
Proof.
  revert acc; induction es as [|e' es IH]; intros acc Hin Hid Hint; [destruct Hin|].
  cbn [fold_left]. destruct Hin as [->|Hin]; [|now apply IH].
  destruct acc as [n0 c0].
  assert (Hi : i ∈ (add_entry (n0, c0) e).1).
  { unfold add_entry. rewrite Hid, Hint. simpl.
    destruct (bool_decide (i ∈ n0)) eqn:Hb; simpl; [now apply bool_decide_eq_true in Hb|set_solver]. }
  destruct (add_entry (n0, c0) e) as [n1 c1].
  destruct (add_entries_fold es n1 c1 _ eq_refl) as (H1 & _). simpl in *. set_solver.
Qed.

Lemma observe_spec entries st :
  visibleSections st ⊆ visibleSections (observe entries st) /\
  (forall i, i ∈ visibleSections (observe entries st) ->
             i ∈ visibleSections st \/ exists e, In e entries /\ entry_id e = Some i) /\
  (observe entries st = st \/
   (size (visibleSections st) < size (visibleSections (observe entries st)))%nat /\
   pulseKey (observe entries st) = pulseKey st + 1).
Proof.
  unfold observe, add_entries.
  destruct (add_entries_fold entries (visibleSections st) false _ eq_refl) as (H1 & H2 & H3).
  destruct (fold_left add_entry entries (visibleSections st, false)) as [next changed].
  simpl in *. destruct changed; simpl.
  - split; [exact H1|split; [exact H2|right]].
    destruct H3 as [H3|[H3 _]]; [congruence|]. split; [exact H3|reflexivity].
  - split; [set_solver|split; [auto|now left]].
Qed.

Lemma observe_covers entries st e i :
  In e entries -> entry_id e = Some i -> isIntersecting e = true ->
  i ∈ visibleSections (observe entries st).
Proof.
  intros Hin Hid Hint. pose proof (add_entries_covers entries (visibleSections st, false) e i Hin Hid Hint).
  destruct (add_entries_fold entries (visibleSections st) false _ eq_refl) as (_ & _ & H3).
  unfold observe, add_entries in *.
  destruct (fold_left add_entry entries (visibleSections st, false)) as [next changed].
  simpl in *. destruct changed; simpl; [exact H|].
  destruct H3 as [H3|[_ H3]]; [injection H3 as ->; exact H|discriminate].
Qed.

(** (C36) Invariant of the reveal state, by induction on the callbacks:
    only ids of observed elements are ever visible, and [pulseKey] counts
    the callbacks that revealed something, so it never exceeds the number
    of visible ids. *)
Theorem reveal_invariant b st :
  reachable b st ->
  visibleSections st ⊆ list_to_set (observed_ids b) /\
  0 <= pulseKey st <= Z.of_nat (size (visibleSections st)).
Proof.
  induction 1 as [|st st' Hr IH Hs].
  - unfold initial_reveal; simpl. split; [set_solver|lia].
  - inversion Hs as [entries st0 Hall]; subst.
    destruct (observe_spec entries st) as (H1 & H2 & H3). destruct IH as [IHs IHp]. split.
    + intros i Hi. destruct (H2 i Hi) as [Hi'|(e & He & Hid)]; [now apply IHs|].
      rewrite List.Forall_forall in Hall. specialize (Hall e He). rewrite Hid in Hall.
      apply elem_of_list_to_set, list_elem_of_In, Hall.
    + destruct H3 as [->|[Hlt Hp]]; [exact IHp|]. rewrite Hp. lia.
Qed.

(** ** The warning header *)

Lemma observed_ids_length b :
  length (observed_ids b) = (length (buildSections b) + if hasWarnings b then 1 else 0)%nat.
Proof. unfold observed_ids. rewrite length_app, length_map. now destruct (hasWarnings b). Qed.

(** Once every section and the warnings block have been revealed, the
    warning header is off again: [visibleSections] then holds one id more
    than there are sections, so [size === sections.length] fails. *)
Theorem warning_header_off b (V : gset string) :
  hasWarnings b = true -> list_to_set (observed_ids b) ⊆ V -> showWarningHeader b V = false.
Proof.
  intros Hw Hsub. unfold showWarningHeader. rewrite Hw. simpl. apply Nat.eqb_neq.
  pose proof (subseteq_size _ _ Hsub) as Hs.
  rewrite size_list_to_set in Hs by apply observed_ids_nodup.
  rewrite observed_ids_length, Hw in Hs. lia.
Qed.

Lemma entries_for_observed b ids :
  (forall i, In i ids -> In i (observed_ids b)) ->
  Forall (fun e => match entry_id e with Some i => In i (observed_ids b) | None => True end)
         (entries_for ids).
Proof.
  intros H. apply List.Forall_forall. intros e He. unfold entries_for in He.
  apply in_map_iff in He as (i & <- & Hi). simpl. now apply H.
Qed.

Lemma observe_entries_for ids st i : In i ids -> i ∈ visibleSections (observe (entries_for ids) st).
Proof.
  intros Hi. apply (observe_covers _ _ (mkEntry (Some i) true)); [|reflexivity|reflexivity].
  unfold entries_for. apply in_map_iff. eauto.
Qed.

(** (C35) The warning header flickers: for every breakdown with warnings,
    revealing all the sections turns the header on, and the next callback,
    revealing the warnings block below them, turns it off again. *)
Theorem warning_header_flicker b :
  hasWarnings b = true ->
  exists st1 st2, reachable b st1 /\ reveal_step b st1 st2 /\
    showWarningHeader b (visibleSections st1) = true /\
    showWarningHeader b (visibleSections st2) = false.
Proof.
  intros Hw. set (ids := map section_id (buildSections b)).
  set (st1 := observe (entries_for ids) initial_reveal).
  exists st1, (observe (entries_for ["warnings"%string]) st1).
  assert (Hobs : observed_ids b = ids ++ ["warnings"%string]) by (unfold observed_ids; now rewrite Hw).
  assert (Hnd : NoDup ids) by (pose proof (observed_ids_nodup b) as H; rewrite Hobs in H;
                               now apply NoDup_app in H as [H _]).
  split; [|split; [|split]].
  - eapply reach_step; [apply reach_init|]. apply reveal_cb, entries_for_observed.
    intros i Hi. rewrite Hobs. apply in_or_app. now left.
  - apply reveal_cb, entries_for_observed. intros i [<-|[]]. rewrite Hobs. apply in_or_app. now right; left.
  - unfold showWarningHeader. rewrite Hw. simpl. apply Nat.eqb_eq.
    destruct (observe_spec (entries_for ids) initial_reveal) as (_ & H2 & _).
    assert (Hsub1 : visibleSections st1 ⊆ list_to_set ids).
    { intros i Hi. destruct (H2 i Hi) as [Hi'|(e & He & Hid)]; [set_solver|].
      unfold entries_for in He. apply in_map_iff in He as (j & <- & Hj). injection Hid as ->.
      apply elem_of_list_to_set, list_elem_of_In, Hj. }
    assert (Hsub2 : list_to_set ids ⊆ visibleSections st1).
    { intros i Hi. apply elem_of_list_to_set, list_elem_of_In in Hi. now apply observe_entries_for. }
    pose proof (subseteq_size _ _ Hsub1). pose proof (subseteq_size _ _ Hsub2).
    rewrite size_list_to_set in * by exact Hnd. unfold ids in *. rewrite length_map in *. lia.
  - apply warning_header_off; [exact Hw|]. rewrite Hobs. intros i Hi.
    apply elem_of_list_to_set, list_elem_of_In, in_app_or in Hi as [Hi|[<-|[]]].
    + destruct (observe_spec (entries_for ["warnings"%string]) st1) as (H1 & _).
      apply H1. now apply observe_entries_for.
    + apply observe_entries_for. now left.
Qed.

(** ** Concrete runs *)

(** On the demo breakdown the calculator shows base, VAT and
    logistics; the VAT row is [round(-2000 * 25.2) = -50400] with the
    saving note; with everything revealed the header shows 730600, while
    the summary shows the authoritative [total_czk] 745600. *)
Example calculator_demo :
  map section_id (buildSections demo_breakdown) = ["base"; "vat"; "logistics"]%string /\
  In (mkSection "vat" (-50400) note_vat_saving true) (buildSections demo_breakdown) /\
  currentTotal (buildSections demo_breakdown) (list_to_set (observed_ids demo_breakdown)) = 730600 /\
  total_czk demo_breakdown = 745600.
Proof. vm_compute. split; [reflexivity|split; [tauto|split; reflexivity]]. Qed.

(** Witnesses. *)
Lemma sections_without_extras_witness :
  map section_id (buildSections demo_breakdown) =
    ("base" :: (if vat_shown (vat_adjustment_eur demo_breakdown) then ["vat"] else []) ++ ["logistics"])%string
  /\ (vat_shown (vat_adjustment_eur demo_breakdown) = true <-> (1 < Qabs (vat_adjustment_eur demo_breakdown))%Q).
Proof. apply sections_without_extras; simpl; lia. Defined.

Lemma vat_section_spec_witness :
  In (mkSection "vat" (vat_czk (vat_adjustment_eur demo_breakdown))
        (if Z.ltb (vat_czk (vat_adjustment_eur demo_breakdown)) 0 then note_vat_saving else note_vat_recompute)
        true) (buildSections demo_breakdown) /\
  (Z.ltb (vat_czk (vat_adjustment_eur demo_breakdown)) 0 = true <-> (vat_adjustment_eur demo_breakdown < 0)%Q).
Proof. apply vat_section_spec. vm_compute. reflexivity. Defined.

Lemma currentTotal_all_revealed_witness :
  currentTotal (buildSections demo_breakdown) (list_to_set (observed_ids demo_breakdown))
  = sections_sum (buildSections demo_breakdown).
Proof.
  apply currentTotal_all_revealed. intros s Hs. apply elem_of_list_to_set, list_elem_of_In.
  unfold observed_ids. apply in_or_app. left. apply in_map. exact Hs.
Defined.

Lemma currentTotal_monotone_witness :
  currentTotal [mkSection "base" 100 note_logistics true; mkSection "tires" 20 note_tires false]
    (∅ : gset string) <=
  currentTotal [mkSection "base" 100 note_logistics true; mkSection "tires" 20 note_tires false]
    {["base"%string]}.
Proof.
  apply currentTotal_monotone; [|set_solver].
  intros s [<-|[<-|[]]]; simpl; lia.
Defined.

Lemma reveal_invariant_witness :
  visibleSections initial_reveal ⊆ list_to_set (observed_ids demo_breakdown) /\
  0 <= pulseKey initial_reveal <= Z.of_nat (size (visibleSections initial_reveal)).
Proof. apply reveal_invariant, reach_init. Defined.

Lemma warning_header_off_witness :
  showWarningHeader demo_breakdown (list_to_set (observed_ids demo_breakdown)) = false.
Proof. apply warning_header_off; [reflexivity|set_solver]. Defined.

Lemma warning_header_flicker_witness :
  exists st1 st2, reachable demo_breakdown st1 /\ reveal_step demo_breakdown st1 st2 /\
    showWarningHeader demo_breakdown (visibleSections st1) = true /\
    showWarningHeader demo_breakdown (visibleSections st2) = false.
Proof. apply warning_header_flicker. reflexivity. Defined.
