(* ===== verification/Editor.v ===== *)
(** * The notes, tags and links editor of the detail modal

    [CarDetailModal] ([CarDetailModal.tsx] lines 15-71) keeps local
    editing state — the active tab, the notes text, the tag list with the
    tag being typed, the link list with the URL and label being typed —
    loaded from the car when it changes (the [useEffect] of lines 24-31),
    changed by the input handlers [addTag], [removeTag], [addLink],
    [removeLink] and the text fields, and sent by [handleSave] as the
    partial update [{notes, tags, externalLinks}].

    The editor is a state machine: [editor_step] maps an [EditorEvent] to
    the new state and [run_editor] folds a sequence of events.  The
    theorems: the tag list stays duplicate-free, adding a tag twice adds
    it once, removing a just-added tag restores the list, and the trash
    button of one link removes every link with the same URL. *)

From S2P Require Import Prelude Listing.

Local Open Scope Z_scope.

Inductive DetailTab := tab_info | tab_notes | tab_analysis | tab_calculator.

Record EditorState := mkEditor {
  activeTab : DetailTab;
  ed_notes : string;
  ed_tags : list string;
  newTag : string;
  ed_links : list ExternalLink;
  newLinkUrl : string;
  newLinkLabel : string
}.

(** The [useState] initial values (lines 16-22). *)
Definition initial_editor : EditorState :=
  mkEditor tab_info EmptyString [] EmptyString [] EmptyString EmptyString.

(** The [useEffect] on [car] (lines 24-31): [car.notes || ''],
    [car.tags || []], [car.externalLinks || []] and the info tab; the
    text being typed is not reset. *)
Definition load_car (car : Car) (st : EditorState) : EditorState :=
  mkEditor tab_info
    (match notes car with Some n => n | None => EmptyString end)
    (default [] (tags car)) (newTag st) (default [] (externalLinks car))
    (newLinkUrl st) (newLinkLabel st).

(** [addTag] (lines 46-51). *)
Definition addTag (st : EditorState) : EditorState :=
  let t := trim (newTag st) in
  if (str_truthy t && negb (existsb (str_eqb t) (ed_tags st)))%bool
  then mkEditor (activeTab st) (ed_notes st) (ed_tags st ++ [t]) EmptyString
                (ed_links st) (newLinkUrl st) (newLinkLabel st)
  else st.

(** [removeTag] (lines 53-55). *)
Definition removeTag (tagToRemove : string) (st : EditorState) : EditorState :=
  mkEditor (activeTab st) (ed_notes st)
    (List.filter (fun t => negb (str_eqb t tagToRemove)) (ed_tags st))
    (newTag st) (ed_links st) (newLinkUrl st) (newLinkLabel st).

(** [addLink] (lines 57-67): the URL is stored untrimmed, the label
    defaults to the URL. *)
Definition addLink (st : EditorState) : EditorState :=
  if str_truthy (trim (newLinkUrl st))
  then mkEditor (activeTab st) (ed_notes st) (ed_tags st) (newTag st)
         (ed_links st ++ [mkExternalLink (newLinkUrl st)
                            (if str_truthy (newLinkLabel st) then newLinkLabel st else newLinkUrl st)
                            link_other])
         EmptyString EmptyString
  else st.

(** [removeLink] (lines 69-71). *)
Definition removeLink (urlToRemove : string) (st : EditorState) : EditorState :=
  mkEditor (activeTab st) (ed_notes st) (ed_tags st) (newTag st)
    (List.filter (fun l => negb (str_eqb (link_url l) urlToRemove)) (ed_links st))
    (newLinkUrl st) (newLinkLabel st).

Inductive EditorEvent :=
  | ev_load (car : Car)
  | ev_tab (t : DetailTab)
  | ev_notes (s : string)
  | ev_newTag (s : string)
  | ev_addTag
  | ev_removeTag (t : string)
  | ev_newLinkUrl (s : string)
  | ev_newLinkLabel (s : string)
  | ev_addLink
  | ev_removeLink (u : string).

(** One handler of the modal: the [onChange]/[onClick] wiring of lines
    119-141 and 298-392. *)
Definition editor_step (ev : EditorEvent) (st : EditorState) : EditorState :=
  match ev with
  | ev_load car => load_car car st
  | ev_tab t => mkEditor t (ed_notes st) (ed_tags st) (newTag st) (ed_links st)
                         (newLinkUrl st) (newLinkLabel st)
  | ev_notes s => mkEditor (activeTab st) s (ed_tags st) (newTag st) (ed_links st)
                           (newLinkUrl st) (newLinkLabel st)
  | ev_newTag s => mkEditor (activeTab st) (ed_notes st) (ed_tags st) s (ed_links st)
                            (newLinkUrl st) (newLinkLabel st)
  | ev_addTag => addTag st
  | ev_removeTag t => removeTag t st
  | ev_newLinkUrl s => mkEditor (activeTab st) (ed_notes st) (ed_tags st) (newTag st)
                                (ed_links st) s (newLinkLabel st)
  | ev_newLinkLabel s => mkEditor (activeTab st) (ed_notes st) (ed_tags st) (newTag st)
                                  (ed_links st) (newLinkUrl st) s
  | ev_addLink => addLink st
  | ev_removeLink u => removeLink u st
  end.

Definition run_editor (evs : list EditorEvent) (st : EditorState) : EditorState :=
  fold_left (fun s ev => editor_step ev s) evs st.

(** The partial update [handleSave] sends (lines 36-44). *)
Record CarPatch := mkPatch { patch_notes : string; patch_tags : list string;
                             patch_links : list ExternalLink }.

(** [handleSave]: [Some (car.id, patch)] when [car.id && onUpdate]. *)
Definition handleSave (car : Car) (hasOnUpdate : bool) (st : EditorState) : option (string * CarPatch) :=
  if (str_truthy (id car) && hasOnUpdate)%bool
  then Some (id car, mkPatch (ed_notes st) (ed_tags st) (ed_links st))
  else None.

(** [{ ...c, ...data }] for the patch of [handleSave]. *)
Definition apply_patch (c : Car) (p : CarPatch) : Car :=
  mkCar (id c) (model c) (make c) (link c) (url c) (price_czk c) (real_price_czk c)
        (price_eur c) (mileage c) (location c) (timestamp c) (expert_score c)
        (Some (patch_notes p)) (Some (patch_tags p)) (Some (patch_links p)) (cost_breakdown c)
        (display c).

(** The local-state update of [handleUpdateCar] (line 191). *)
Definition merge_update (carId : string) (p : CarPatch) (cars : list Car) : list Car :=
  map (fun c => if str_eqb (id c) carId then apply_patch c p else c) cars.

(** Events that keep the tag list free of duplicates when they load a car. *)
Definition load_ok (ev : EditorEvent) : Prop :=
  match ev with ev_load car => NoDup (default [] (tags car)) | _ => True end.

(** ** Tags *)

Lemma existsb_str_eqb_false t l : existsb (str_eqb t) l = false -> ~ In t l.
Proof.
  intros H Hin. assert (existsb (str_eqb t) l = true) as Ht.
  { apply existsb_exists. exists t. split; [exact Hin|]. now apply str_eqb_spec. }
  congruence.
Qed.

Lemma filter_not_in t l :
  existsb (str_eqb t) l = false -> List.filter (fun x => negb (str_eqb x t)) l = l.
Proof.
  induction l as [|x l IH]; simpl; [reflexivity|].
  intros [Hx Hl]%orb_false_iff. rewrite IH by exact Hl.
  unfold str_eqb in *. rewrite String.eqb_sym, Hx. reflexivity.
Qed.

Lemma editor_step_nodup ev st :
  load_ok ev -> NoDup (ed_tags st) -> NoDup (ed_tags (editor_step ev st)).
Proof.
  intros Hok Hnd. destruct ev; simpl in *; try exact Hnd.
  - exact Hok.
  - unfold addTag. destruct (str_truthy (trim (newTag st))) eqn:Ht; [|exact Hnd].
    destruct (existsb (str_eqb (trim (newTag st))) (ed_tags st)) eqn:He; simpl; [exact Hnd|].
    apply NoDup_app. split; [exact Hnd|split; [|apply NoDup_singleton]].
    intros x Hx ->%list_elem_of_singleton. apply list_elem_of_In in Hx.
    exact (existsb_str_eqb_false _ _ He Hx).
  - apply NoDup_ListNoDup, List.NoDup_filter, NoDup_ListNoDup, Hnd.
  - unfold addLink. now destruct (str_truthy (trim (newLinkUrl st))).
Qed.

(** Invariant of the editor: as long as every loaded car has a
    duplicate-free tag list, no sequence of edits puts the same tag
    twice in the list. *)
Theorem run_editor_tags_nodup evs st :
  Forall load_ok evs -> NoDup (ed_tags st) -> NoDup (ed_tags (run_editor evs st)).
Proof.
  unfold run_editor. revert st; induction evs as [|ev evs IH]; intros st Hall Hnd; simpl; [exact Hnd|].
  inversion Hall as [|? ? Hok Hrest]; subst.
  apply IH; [exact Hrest|]. now apply editor_step_nodup.
Qed.

(** Pressing Enter twice adds the typed tag once: [addTag] is
    idempotent, since a successful add clears the input. *)
Theorem addTag_idem st : addTag (addTag st) = addTag st.
Proof.
  unfold addTag.
  destruct (str_truthy (trim (newTag st)) && negb (existsb (str_eqb (trim (newTag st))) (ed_tags st)))%bool
    eqn:Hc; simpl; [reflexivity|now rewrite Hc].
Qed.

(** Removing a tag right after adding it restores the tag list,
    when the tag was not already there. *)
Theorem removeTag_addTag st :
  existsb (str_eqb (trim (newTag st))) (ed_tags st) = false ->
  ed_tags (removeTag (trim (newTag st)) (addTag st)) = ed_tags st.
Proof.
  intros Hn. unfold addTag. rewrite Hn. destruct (str_truthy (trim (newTag st))); simpl.
  - rewrite List.filter_app, filter_not_in by exact Hn. simpl.
    unfold str_eqb. rewrite String.eqb_refl. simpl. apply app_nil_r.
  - now apply filter_not_in.
Qed.

(** ** Links *)

(** (C40) The trash button of a link calls [removeLink(link.url)]: it
    removes every link with that URL, not only the clicked one. *)
Theorem removeLink_removes_same_url st l1 l2 :
  In l1 (ed_links st) -> In l2 (ed_links st) -> link_url l2 = link_url l1 ->
  ~ In l2 (ed_links (removeLink (link_url l1) st)).
Proof.
  intros _ _ Heq Hin. simpl in Hin. apply filter_In in Hin as [_ Hf].
  rewrite Heq in Hf. unfold str_eqb in Hf. now rewrite String.eqb_refl in Hf.
Qed.

(** ** Saving *)

(** (C39) After [handleSave] and the local merge of [handleUpdateCar],
    every car of the list that carries the saved id reopens in the editor
    with exactly the notes, tags and links that were saved. *)
Theorem save_reload_roundtrip car cars st st' carId p c' :
  handleSave car true st = Some (carId, p) ->
  In c' (merge_update carId p cars) -> id c' = carId ->
  ed_notes (load_car c' st') = ed_notes st /\
  ed_tags (load_car c' st') = ed_tags st /\
  ed_links (load_car c' st') = ed_links st.
Proof.
  unfold handleSave. destruct (str_truthy (id car)); simpl; [|discriminate].
  intros Hs Hin Hid. injection Hs as _ <-.
  unfold merge_update in Hin. apply in_map_iff in Hin as (c & Hc & _).
  destruct (str_eqb (id c) carId) eqn:He.
  - subst c'. simpl. auto.
  - subst c'. rewrite Hid in He. unfold str_eqb in He. now rewrite String.eqb_refl in He.
Qed.

(** ** Concrete runs *)

Local Open Scope string_scope.

(** Adding the same URL twice keeps two links (the second with its
    own label); the trash button of either one removes both. *)
Example duplicate_links_removed_together :
  let u := "https://youtu.be/abc" in
  let st := run_editor [ev_newLinkUrl u; ev_addLink; ev_newLinkUrl u; ev_newLinkLabel "Review";
                        ev_addLink] initial_editor in
  List.length (ed_links st) = 2%nat /\ ed_links (removeLink u st) = [].
Proof. vm_compute. split; reflexivity. Qed.

(** Witnesses. *)
Lemma run_editor_tags_nodup_witness :
  NoDup (ed_tags (run_editor [ev_newTag " #favorit "; ev_addTag; ev_addTag; ev_newTag "#favorit";
                              ev_addTag; ev_newTag "#tepelko"; ev_addTag] initial_editor)).
Proof. apply run_editor_tags_nodup; [repeat constructor|constructor]. Defined.

Lemma removeTag_addTag_witness :
  ed_tags (removeTag (trim " b ") (addTag (mkEditor tab_notes "" ["a"] " b " [] "" "")))
  = ["a"].
Proof. exact (removeTag_addTag (mkEditor tab_notes "" ["a"] " b " [] "" "") eq_refl). Defined.

Lemma removeLink_removes_same_url_witness :
  let l1 := mkExternalLink "https://x.cz" "one" link_other in
  let l2 := mkExternalLink "https://x.cz" "two" link_video in
  ~ In l2 (ed_links (removeLink (link_url l1) (mkEditor tab_notes "" [] "" [l1; l2] "" ""))).
Proof. apply (removeLink_removes_same_url _ _ _); simpl; auto. Defined.

Lemma save_reload_roundtrip_witness :
  let car := mkCar "x" None None None None None None None None None None None None None None None no_display in
  let st := mkEditor tab_notes "nice" ["#a"] "" [] "" "" in
  ed_notes (load_car (apply_patch car (mkPatch "nice" ["#a"] [])) initial_editor) = ed_notes st /\
  ed_tags (load_car (apply_patch car (mkPatch "nice" ["#a"] [])) initial_editor) = ed_tags st /\
  ed_links (load_car (apply_patch car (mkPatch "nice" ["#a"] [])) initial_editor) = ed_links st.
Proof.
  apply (save_reload_roundtrip
           (mkCar "x" None None None None None None None None None None None None None None None no_display)
           [mkCar "x" None None None None None None None None None None None None None None None no_display]
           _ _ "x" (mkPatch "nice" ["#a"] [])); [reflexivity|simpl; now left|reflexivity].
Defined.
