(* ===== verification/CatalogData.v ===== *)
(** * The static catalog ([data/cars_static.ts])

    The types of a catalog entry (lines 1-40) and [CARS_DATA] (lines
    42-368), the thirteen cars the catalog tab, the brand grid, the link
    generators and the catalog modal read; and the brand catalog of
    [data/brandLogos.ts] the brand grid shows.  Each entry is a definition
    of its own ([car_*], [brand_*]) and the arrays list them in the order
    of the source.  Text fields are code-point strings; the bank rates,
    the only fractional numbers, are rationals. *)

From S2P Require Import Prelude.
From Stdlib Require Import QArith_base.

Local Open Scope Z_scope.

Record Review := mkReview { title : ustring; url : ustring; thumbnail : ustring; channel : ustring }.

Record Bank := mkBank { bank_name : ustring; rate : Q; bank_link : ustring; termYears : Z }.

Record Insurance := mkInsurance { provider : ustring; insurance_link : ustring; description : ustring }.

Record BazaarLinkSet := mkBazaarLinkSet { mobileDe : ustring; autoscout : ustring; carvago : ustring; sauto : ustring }.

Record CarStaticData := mkStatic {
  id : ustring;
  make : ustring;
  model : ustring;
  variant : ustring;
  priceFrom : Z;
  rangeWLTP : Z;
  battery : Z;
  charging : Z;
  image : ustring;
  bazaarLinks : BazaarLinkSet;
  youtubeReviews : list Review;
  financing : list Bank;
  insurance : list Insurance
}.

(** [BrandModel] and [BrandInfo] ([data/brandLogos.ts] lines 20-35); the
    logo component is represented by the name of its import. *)
Module Brands.
Inductive Segment := mainstream | premium | budget.
Record BrandModel := mkModel { name : ustring; badge : option ustring }.
Record BrandInfo := mkBrand {
  make : ustring;
  displayName : ustring;
  textLogo : ustring;
  logoComponent : ustring;
  accentColor : ustring;
  description : ustring;
  segment : Segment;
  models : list BrandModel
}.
End Brands.

(** [skoda-enyaq] (lines 43-73). *)
Definition car_skoda_enyaq : CarStaticData :=
  mkStatic (u "skoda-enyaq") (u "Škoda") (u "Enyaq iV") (u "80 / 85")
    750000 537 77 135
    (u "https://cdn.skoda-storyboard.com/2020/09/Enyaq_iV_80_1-scaled.jpg")
    (mkBazaarLinkSet (u "https://www.mobile.de/cz/osobn%C3%AD-v%C5%AFz/skoda-enyaq/vhc:car,pgn:2,pgs:10,srt:price,sro:asc,ms1:22900_25_,frn:2021,ful:electricity,cnd:used,dmg:true")
       (u "https://www.autoscout24.cz/")
       (u "https://carvago.com/cs/auta/skoda/enyaq/elektrina?price-from=400000&price-to=600000&registration-date-from=2021")
       (u "https://www.sauto.cz/inzerce/osobni/skoda/enyaq"))
    [mkReview (u "ŠKODA ENYAQ iV 80 - POV Test Drive")
          (u "https://www.youtube.com/watch?v=l9vOJYcqSXs")
          (u "https://img.youtube.com/vi/l9vOJYcqSXs/maxresdefault.jpg") (u "fDrive.cz");
        mkReview (u "Škoda Enyaq iV Sportline - Range Test")
          (u "https://www.youtube.com/watch?v=2tJfFaSBilw")
          (u "https://img.youtube.com/vi/2tJfFaSBilw/maxresdefault.jpg") (u "fDrive.cz")]
    [mkBank (u "Raiffeisenbank") (48 # 10) (u "https://www.rb.cz/osobni/pujcky/pujcka-na-auto") 5;
        mkBank (u "ČSOB") (51 # 10) (u "https://www.csobleasing.cz/autopujcka") 5;
        mkBank (u "Moneta") (46 # 10) (u "https://www.monetaauto.cz/") 5]
    [mkInsurance (u "Kooperativa") (u "https://www.koop.cz/pojisteni/pojisteni-vozidel/elektromobil")
          (u "Specializované pojištění pro EV včetně kabelů a wallboxu.");
        mkInsurance (u "Allianz") (u "https://www.allianz.cz/cs_CZ/pojisteni/vozidla/elektromobil.html")
          (u "Asistence při vybití, krytí baterie.");
        mkInsurance (u "Generali") (u "https://www.generaliceska.cz/povinne-ruceni")
          (u "Vyšší limity pro EV při střetu se zvěří.")].

(** [tesla-model-3] (lines 74-101). *)
Definition car_tesla_model_3 : CarStaticData :=
  mkStatic (u "tesla-model-3") (u "Tesla") (u "Model 3") (u "Long Range / Highland")
    600000 602 75 250
    (u "https://tesla-cdn.thron.com/delivery/public/image/tesla/03e533bf-8b1d-463f-9813-9a597aabb560/bvlatuR/std/1200x628/Model-3-Hero-Desktop-LHD")
    (mkBazaarLinkSet (u "https://www.mobile.de/cz/osobn%C3%AD-v%C5%AFz/tesla-model-3/vhc:car,ms1:135_5_,prx:22500,ful:electricity")
       (u "https://www.autoscout24.cz/lst/tesla/model-3")
       (u "https://carvago.com/cs/auta/tesla/model-3")
       (u "https://www.sauto.cz/inzerce/osobni/tesla/model-3"))
    [mkReview (u "Tesla Model 3 Highland - 1000km Test")
          (u "https://www.youtube.com/watch?v=szE3XbkPHtQ")
          (u "https://img.youtube.com/vi/szE3XbkPHtQ/maxresdefault.jpg") (u "fDrive.cz")]
    [mkBank (u "Raiffeisenbank") (48 # 10) (u "https://www.rb.cz/osobni/pujcky/pujcka-na-auto") 5;
        mkBank (u "Moneta") (46 # 10) (u "https://www.monetaauto.cz/") 5]
    [mkInsurance (u "Allianz") (u "https://www.allianz.cz/cs_CZ/pojisteni/vozidla/elektromobil.html")
          (u "Komplexní ochrana pro Tesly.");
        mkInsurance (u "ČPP") (u "https://www.cpp.cz/pojisteni-vozidel")
          (u "Výhodné povinné ručení.")].

(** [tesla-model-y] (lines 102-129). *)
Definition car_tesla_model_y : CarStaticData :=
  mkStatic (u "tesla-model-y") (u "Tesla") (u "Model Y") (u "Long Range")
    850000 533 75 250
    (u "https://tesla-cdn.thron.com/delivery/public/image/tesla/8e2df1b9-a4bf-4eb9-beec-2cf5cc77fca0/bvlatuR/std/1200x628/Model-Y-Hero-Desktop-Global")
    (mkBazaarLinkSet (u "https://www.mobile.de/cz/osobn%C3%AD-v%C5%AFz/tesla-model-y/vhc:car,ms1:135_6_")
       (u "https://www.autoscout24.cz/lst/tesla/model-y")
       (u "https://carvago.com/cs/auta/tesla/model-y")
       (u "https://www.sauto.cz/inzerce/osobni/tesla/model-y"))
    [mkReview (u "Tesla Model Y Long Range - Týdenní test")
          (u "https://www.youtube.com/watch?v=S014L281W4w")
          (u "https://img.youtube.com/vi/S014L281W4w/maxresdefault.jpg") (u "Electro Dad")]
    [mkBank (u "ČSOB") (51 # 10) (u "https://www.csobleasing.cz/autopujcka") 5;
        mkBank (u "Moneta") (46 # 10) (u "https://www.monetaauto.cz/") 5]
    [mkInsurance (u "Kooperativa") (u "https://www.koop.cz")
          (u "Pojištění skel a baterie.");
        mkInsurance (u "Allianz") (u "https://www.allianz.cz")
          (u "Ideální pro dražší vozy.")].

(** [kia-eniro] (lines 130-155). *)
Definition car_kia_eniro : CarStaticData :=
  mkStatic (u "kia-eniro") (u "Kia") (u "e-Niro") (u "64 kWh")
    550000 455 64 77
    (u "https://www.kia.com/content/dam/kwcms/kme/global/en/assets/vehicles/niro-ev/discover/kia-niro-ev-my23-discover-header.png")
    (mkBazaarLinkSet (u "https://www.mobile.de/cz/osobn%C3%AD-v%C5%AFz/kia-niro/vhc:car,ms1:13200_18_,ful:electricity")
       (u "https://www.autoscout24.cz/lst/kia/niro")
       (u "https://carvago.com/cs/auta/kia/niro/elektrina")
       (u "https://www.sauto.cz/inzerce/osobni/kia/niro"))
    [mkReview (u "TEST Kia e-Niro 64 kWh - Eso v rukávu")
          (u "https://www.youtube.com/results?search_query=TEST+Kia+e-Niro+64+kWh+-+Eso+v+ruk%C3%A1vu")
          (u "") (u "YouTube Search")]
    [mkBank (u "Moneta") (46 # 10) (u "https://www.monetaauto.cz/") 5]
    [mkInsurance (u "Generali") (u "https://www.generaliceska.cz")
          (u "Sleva za bezpečnostní asistenty.")].

(** [vw-id4] (lines 156-177). *)
Definition car_vw_id4 : CarStaticData :=
  mkStatic (u "vw-id4") (u "Volkswagen") (u "ID.4") (u "Pro Performance")
    700000 520 77 135
    (u "https://www.volkswagen.cz/idhub/content/dam/onehub_pkw/importers/cz/modely/id/id-4-2021/gallery/1920x1080/01_ID4.jpg")
    (mkBazaarLinkSet (u "https://www.mobile.de/cz/osobn%C3%AD-v%C5%AFz/volkswagen-id-4/vhc:car,ms1:25200_20_,ful:electricity")
       (u "https://www.autoscout24.cz/lst/volkswagen/id-4")
       (u "https://carvago.com/cs/auta/volkswagen/id-4")
       (u "https://www.sauto.cz/inzerce/osobni/volkswagen/id-4"))
    [mkReview (u "Volkswagen ID.4 | Test spotřeby")
          (u "https://www.youtube.com/results?search_query=Volkswagen+ID.4+Test+spot%C5%99eby")
          (u "") (u "YouTube Search")]
    []
    [].

(** [vw-id3] (lines 178-199). *)
Definition car_vw_id3 : CarStaticData :=
  mkStatic (u "vw-id3") (u "Volkswagen") (u "ID.3") (u "Pro S")
    500000 420 58 120
    (u "https://www.volkswagen.cz/idhub/content/dam/onehub_pkw/importers/cz/modely/id/id-3-2020/gallery/1920x1080/01_ID3.jpg")
    (mkBazaarLinkSet (u "https://www.mobile.de/cz/osobn%C3%AD-v%C5%AFz/volkswagen-id-3/vhc:car,ms1:25200_15_,ful:electricity")
       (u "https://www.autoscout24.cz/lst/volkswagen/id-3")
       (u "https://carvago.com/cs/auta/volkswagen/id-3")
       (u "https://www.sauto.cz/inzerce/osobni/volkswagen/id-3"))
    [mkReview (u "Volkswagen ID.3 Pro S 77 kWh test")
          (u "https://www.youtube.com/results?search_query=Volkswagen+ID.3+Pro+S+77+kWh+dlouhodob%C3%BD+test")
          (u "") (u "YouTube Search")]
    []
    [].

(** [hyundai-kona] (lines 200-221). *)
Definition car_hyundai_kona : CarStaticData :=
  mkStatic (u "hyundai-kona") (u "Hyundai") (u "Kona Electric") (u "64 kWh")
    500000 484 64 77
    (u "https://s7g10.scene7.com/is/image/hyundaiautoever/Kona_Electric_OS_PE_2021_Gallery_1_1280x720?wid=1280&hei=720&fmt=jpg")
    (mkBazaarLinkSet (u "https://www.mobile.de/cz/osobn%C3%AD-v%C5%AFz/hyundai-kona/vhc:car,ms1:11600_41_,ful:electricity")
       (u "https://www.autoscout24.cz/lst/hyundai/kona")
       (u "https://carvago.com/cs/auta/hyundai/kona/elektrina")
       (u "https://www.sauto.cz/inzerce/osobni/hyundai/kona"))
    [mkReview (u "Hyundai Kona Electric - půlroční test")
          (u "https://www.youtube.com/results?search_query=Hyundai+Kona+Electric+p%C5%AFlro%C4%8Dn%C3%AD+test")
          (u "") (u "YouTube Search")]
    []
    [].

(** [hyundai-ioniq5] (lines 222-248). *)
Definition car_hyundai_ioniq5 : CarStaticData :=
  mkStatic (u "hyundai-ioniq5") (u "Hyundai") (u "Ioniq 5") (u "Long Range AWD")
    850000 460 73 233
    (u "https://s7g10.scene7.com/is/image/hyundaiautoever/IONIQ_5_NE_2021_Gallery_1_1280x720?wid=1280&hei=720&fmt=jpg")
    (mkBazaarLinkSet (u "https://www.mobile.de/cz/osobn%C3%AD-v%C5%AFz/hyundai-ioniq-5/vhc:car,ms1:11600_44_,ful:electricity")
       (u "https://www.autoscout24.cz/lst/hyundai/ioniq-5")
       (u "https://carvago.com/cs/auta/hyundai/ioniq-5")
       (u "https://www.sauto.cz/inzerce/osobni/hyundai/ioniq-5"))
    [mkReview (u "Hyundai Ioniq 5 review with 0-60mph test!")
          (u "https://www.youtube.com/watch?v=Q6K_J7J3-eU")
          (u "https://img.youtube.com/vi/Q6K_J7J3-eU/maxresdefault.jpg") (u "carwow");
        mkReview (u "Hyundai Ioniq 5 Review | What Do I Think After Two Years?")
          (u "https://www.youtube.com/watch?v=wN287p9qJgM")
          (u "https://img.youtube.com/vi/wN287p9qJgM/maxresdefault.jpg") (u "Fully Charged")]
    [mkBank (u "Raiffeisenbank") (48 # 10) (u "https://www.rb.cz/osobni/pujcky/pujcka-na-auto") 5]
    [mkInsurance (u "Kooperativa") (u "https://www.koop.cz")
          (u "Komplexní balíček.")].

(** [kia-ev6] (lines 249-274). *)
Definition car_kia_ev6 : CarStaticData :=
  mkStatic (u "kia-ev6") (u "Kia") (u "EV6") (u "Long Range")
    900000 528 77 240
    (u "https://www.kia.com/content/dam/kwcms/kme/global/en/assets/vehicles/ev6/discover/kia-ev6-my22-discover-header.png")
    (mkBazaarLinkSet (u "https://www.mobile.de/cz/osobn%C3%AD-v%C5%AFz/kia-ev6/vhc:car,ms1:13200_30_,ful:electricity")
       (u "https://www.autoscout24.cz/lst/kia/ev6")
       (u "https://carvago.com/cs/auta/kia/ev6")
       (u "https://www.sauto.cz/inzerce/osobni/kia/ev6"))
    [mkReview (u "Kia EV6 2025 – Facelift Test")
          (u "https://www.youtube.com/watch?v=jJ1M-w9vB_U")
          (u "https://img.youtube.com/vi/jJ1M-w9vB_U/maxresdefault.jpg") (u "Electro Dad")]
    [mkBank (u "Moneta") (46 # 10) (u "https://www.monetaauto.cz/") 5]
    [mkInsurance (u "Allianz") (u "https://www.allianz.cz")
          (u "Pojištění pro EV roku.")].

(** [audi-q4] (lines 275-296). *)
Definition car_audi_q4 : CarStaticData :=
  mkStatic (u "audi-q4") (u "Audi") (u "Q4 e-tron") (u "40")
    850000 520 77 135
    (u "https://mediaservice.audi.com/media/live/50900/fly1400x601n1/f4bca/2022.png")
    (mkBazaarLinkSet (u "https://www.mobile.de/cz/osobn%C3%AD-v%C5%AFz/audi-q4-e-tron/vhc:car,ms1:1900_40_,ful:electricity")
       (u "https://www.autoscout24.cz/lst/audi/q4-e-tron")
       (u "https://carvago.com/cs/auta/audi/q4-e-tron")
       (u "https://www.sauto.cz/inzerce/osobni/audi/q4-e-tron"))
    [mkReview (u "Audi Q4 e-tron (TEST)")
          (u "https://www.youtube.com/results?search_query=Audi+Q4+e-tron+TEST+Dostupn%C4%9Bj%C5%A1%C3%AD+elekt%C5%99ina")
          (u "") (u "YouTube Search")]
    []
    [].

(** [bmw-i3] (lines 297-318). *)
Definition car_bmw_i3 : CarStaticData :=
  mkStatic (u "bmw-i3") (u "BMW") (u "i3") (u "120Ah")
    400000 300 42 50
    (u "https://www.bmw.cz/content/dam/bmw/common/all-models/i-series/i3/2018/navigation/bmw-i3-modelfinder-890x501.png")
    (mkBazaarLinkSet (u "https://www.mobile.de/cz/osobn%C3%AD-v%C5%AFz/bmw-i3/vhc:car,ms1:3500_83_,ful:electricity")
       (u "https://www.autoscout24.cz/lst/bmw/i3")
       (u "https://carvago.com/cs/auta/bmw/i3")
       (u "https://www.sauto.cz/inzerce/osobni/bmw/i3"))
    [mkReview (u "BMW i3: Městské posunovadlo?")
          (u "https://www.youtube.com/results?search_query=BMW+i3+M%C4%9Bstsk%C3%A9+posunovadlo")
          (u "") (u "YouTube Search")]
    []
    [].

(** [renault-megane] (lines 319-340). *)
Definition car_renault_megane : CarStaticData :=
  mkStatic (u "renault-megane") (u "Renault") (u "Megane E-Tech") (u "EV60")
    650000 450 60 130
    (u "https://cdn.group.renault.com/ren/master/renault-new-cars/megane-e-tech/design/renault-megane-e-tech-exterior-001.jpg")
    (mkBazaarLinkSet (u "https://www.mobile.de/cz/osobn%C3%AD-v%C5%AFz/renault-megane-e-tech/vhc:car,ms1:20700_44_,ful:electricity")
       (u "https://www.autoscout24.cz/lst/renault/megane")
       (u "https://carvago.com/cs/auta/renault/megane/elektrina")
       (u "https://www.sauto.cz/inzerce/osobni/renault/megane-e-tech"))
    [mkReview (u "Velký TEST Renaultu Mégane E-Tech")
          (u "https://www.youtube.com/results?search_query=Renault+M%C3%A9gane+E-Tech+TEST")
          (u "") (u "YouTube Search")]
    []
    [].

(** [mercedes-eqa] (lines 341-366). *)
Definition car_mercedes_eqa : CarStaticData :=
  mkStatic (u "mercedes-eqa") (u "Mercedes-Benz") (u "EQA") (u "250+")
    750000 531 70 100
    (u "https://www.mercedes-benz.cz/content/dam/hq/passengercars/cars/eqa/h243-fl/overview/images/mercedes-benz-eqa-h243-fl-startpage-exterior-1-544x340.jpg")
    (mkBazaarLinkSet (u "https://www.mobile.de/cz/osobn%C3%AD-v%C5%AFz/mercedes-benz-eqa/vhc:car,ms1:17200_67_,ful:electricity")
       (u "https://www.autoscout24.cz/lst/mercedes-benz/eqa")
       (u "https://carvago.com/cs/auta/mercedes-benz/eqa")
       (u "https://www.sauto.cz/inzerce/osobni/mercedes-benz/eqa"))
    [mkReview (u "Mercedes EQA 250+ Test")
          (u "https://www.youtube.com/results?search_query=Mercedes+EQA+250+test+cz")
          (u "") (u "YouTube Search")]
    [mkBank (u "Raiffeisenbank") (48 # 10) (u "https://www.rb.cz/osobni/pujcky/pujcka-na-auto") 5]
    [mkInsurance (u "Allianz") (u "https://www.allianz.cz")
          (u "Premium pojištění pro Mercedes vozy.")].

(** [CARS_DATA]. *)
Definition CARS_DATA : list CarStaticData := [
  car_skoda_enyaq; car_tesla_model_3; car_tesla_model_y; car_kia_eniro; car_vw_id4; car_vw_id3; car_hyundai_kona; car_hyundai_ioniq5; car_kia_ev6; car_audi_q4; car_bmw_i3; car_renault_megane; car_mercedes_eqa
].

(** [BRAND_CATALOG] ([data/brandLogos.ts] lines 37-223). *)
(** Škoda (lines 38-52). *)
Definition brand_skoda : Brands.BrandInfo :=
  Brands.mkBrand (u "Škoda") (u "Škoda") (u "Š") (u "SkodaLogo")
    (u "#4ba82e") (u "Kompaktní až rodinné SUV") Brands.mainstream
    [Brands.mkModel (u "Elroq") (Some (u "novinka!"));
     Brands.mkModel (u "Enyaq") None;
     Brands.mkModel (u "Enyaq Coupé") None;
     Brands.mkModel (u "Epiq") (Some (u "předobjednávky"))].

(** Volkswagen (lines 53-68). *)
Definition brand_volkswagen : Brands.BrandInfo :=
  Brands.mkBrand (u "Volkswagen") (u "VW") (u "VW") (u "VWLogo")
    (u "#001e50") (u "Hatchback, SUV, MPV") Brands.mainstream
    [Brands.mkModel (u "ID.3") None;
     Brands.mkModel (u "ID.4") None;
     Brands.mkModel (u "ID.5") None;
     Brands.mkModel (u "ID.7") (Some (u "vlajková loď"));
     Brands.mkModel (u "ID. Buzz") None].

(** Hyundai (lines 69-83). *)
Definition brand_hyundai : Brands.BrandInfo :=
  Brands.mkBrand (u "Hyundai") (u "Hyundai") (u "H") (u "HyundaiLogo")
    (u "#002c5f") (u "Mix kategorií") Brands.mainstream
    [Brands.mkModel (u "Ioniq 5") None;
     Brands.mkModel (u "Ioniq 6") None;
     Brands.mkModel (u "Kona Electric") None;
     Brands.mkModel (u "Inster") (Some (u "městské"))].

(** Kia (lines 84-98). *)
Definition brand_kia : Brands.BrandInfo :=
  Brands.mkBrand (u "Kia") (u "Kia") (u "K") (u "KiaLogo")
    (u "#05141f") (u "Crossovery, velká SUV") Brands.mainstream
    [Brands.mkModel (u "EV6") None;
     Brands.mkModel (u "EV9") (Some (u "7místné"));
     Brands.mkModel (u "EV3") None;
     Brands.mkModel (u "Niro EV") None].

(** Tesla (lines 99-113). *)
Definition brand_tesla : Brands.BrandInfo :=
  Brands.mkBrand (u "Tesla") (u "Tesla") (u "T") (u "TeslaLogo")
    (u "#cc0000") (u "Crossovery, sedany") Brands.mainstream
    [Brands.mkModel (u "Model Y") None;
     Brands.mkModel (u "Model 3") (Some (u "Highland"));
     Brands.mkModel (u "Model S") None;
     Brands.mkModel (u "Model X") None].

(** Renault (lines 114-127). *)
Definition brand_renault : Brands.BrandInfo :=
  Brands.mkBrand (u "Renault") (u "Renault") (u "R") (u "RenaultLogo")
    (u "#efdf00") (u "Stylové crossovery") Brands.mainstream
    [Brands.mkModel (u "Mégane E-Tech") None;
     Brands.mkModel (u "Scenic E-Tech") None;
     Brands.mkModel (u "Renault 5 E-Tech") None].

(** MG (lines 128-142). *)
Definition brand_mg : Brands.BrandInfo :=
  Brands.mkBrand (u "MG") (u "MG") (u "MG") (u "MGLogo")
    (u "#c1272d") (u "Cenově dostupné, sportovní") Brands.mainstream
    [Brands.mkModel (u "MG4 Electric") None;
     Brands.mkModel (u "MG5") (Some (u "kombi"));
     Brands.mkModel (u "ZS EV") None;
     Brands.mkModel (u "Cyberster") None].

(** Volvo (lines 143-157). *)
Definition brand_volvo : Brands.BrandInfo :=
  Brands.mkBrand (u "Volvo") (u "Volvo") (u "V") (u "VolvoLogo")
    (u "#003057") (u "Skandinávský design, bezpečnost") Brands.mainstream
    [Brands.mkModel (u "EX30") None;
     Brands.mkModel (u "EX40") (Some (u "dříve XC40"));
     Brands.mkModel (u "EX90") None;
     Brands.mkModel (u "EX60") None].

(** BMW (lines 160-176). *)
Definition brand_bmw : Brands.BrandInfo :=
  Brands.mkBrand (u "BMW") (u "BMW") (u "B") (u "BMWLogo")
    (u "#0066b1") (u "Prémiové sedany a SUV") Brands.premium
    [Brands.mkModel (u "i4") None;
     Brands.mkModel (u "iX3") (Some (u "nová generace"));
     Brands.mkModel (u "iX1") None;
     Brands.mkModel (u "iX") None;
     Brands.mkModel (u "i5") None;
     Brands.mkModel (u "i7") None].

(** Mercedes-Benz (lines 177-192). *)
Definition brand_mercedes_benz : Brands.BrandInfo :=
  Brands.mkBrand (u "Mercedes-Benz") (u "Mercedes") (u "M") (u "MercedesLogo")
    (u "#333333") (u "Luxusní segment") Brands.premium
    [Brands.mkModel (u "EQA") None;
     Brands.mkModel (u "EQB") None;
     Brands.mkModel (u "EQE") None;
     Brands.mkModel (u "EQS") None;
     Brands.mkModel (u "CLA") (Some (u "nová generace"))].

(** Audi (lines 193-207). *)
Definition brand_audi : Brands.BrandInfo :=
  Brands.mkBrand (u "Audi") (u "Audi") (u "A") (u "AudiLogo")
    (u "#bb0a30") (u "Prémiové SUV") Brands.premium
    [Brands.mkModel (u "Q4 e-tron") None;
     Brands.mkModel (u "Q6 e-tron") None;
     Brands.mkModel (u "Q8 e-tron") None;
     Brands.mkModel (u "e-tron GT") None].

(** Dacia (lines 210-221). *)
Definition brand_dacia : Brands.BrandInfo :=
  Brands.mkBrand (u "Dacia") (u "Dacia") (u "D") (u "DaciaLogo")
    (u "#646b52") (u "Nejlevnější městské auto") Brands.budget
    [Brands.mkModel (u "Spring") None].

Definition BRAND_CATALOG : list Brands.BrandInfo := [
  brand_skoda; brand_volkswagen; brand_hyundai; brand_kia; brand_tesla; brand_renault; brand_mg; brand_volvo; brand_bmw; brand_mercedes_benz; brand_audi; brand_dacia
].

(** The first car of the catalog (the Škoda Enyaq), the fixture of the examples. *)
Definition enyaq : CarStaticData :=
  nth 0 CARS_DATA (mkStatic [] [] [] [] 0 0 0 0 [] (mkBazaarLinkSet [] [] [] []) [] [] []).
