(* ===== verification/Garage.v ===== *)
(** * The garage: the Firestore collection and the handlers of [App]

    [App.tsx] keeps the fetched cars in React state and talks to the
    Firestore collection [car_analysis_results] through [fetchCars]
    (lines 38-71), [handleDeleteCar] (73-86), [handleClearGarage]
    (88-110) and [handleUpdateCar] (185-206); [handleAnalyze] (112-162)
    asks the analysis service, which writes a new document on its own.

    The collection is a finite map from document ids to their data
    ([gmap string DocData]), part of the state next to the React state.
    Each handler runs up to its first [await] as one transition of
    [app_step]; a Firestore call that may fail takes its outcome as an
    argument ([ok : bool]).  A [fetchCars()] call reads the collection
    when it starts ([start_fetch] records the snapshot) and sets the list
    when it completes ([ev_fetch_done i]); a [handleAnalyze] request
    completes in [ev_analyze_done i]: in-flight calls may complete in any
    order, with other events in between.  The analysis service's write is
    the event [ev_backend_insert], unordered with respect to its reply.

    [query_docs] is what [getDocs(query(..., orderBy("timestamp",
    "desc")))] returns: Firestore's [orderBy] keeps only the documents
    that have the field, most recent first.

    The controls of the page (lines 285-490: tabs, mode switch, inputs,
    Enter in the URL field, the analyze and clear buttons, search, sort,
    view mode) and the catalog's [onSelectCar] and [onAnalyze] are
    events of [app_step] too, each with the guard the markup gives it.

    The theorems: the local merge of [handleUpdateCar] refines a refetch;
    a delete followed by its fetch; from any state the asynchronous work
    settles after one completion per call in flight, whatever the
    replies, the refresh timers of successful analyses included
    ([drain_events]); a fetch that straddles a save reverts it; through the
    garage controls at most one analysis is in flight
    ([single_request]); and the races and error paths the code leaves
    open. *)

From S2P Require Import Prelude CatalogData JsSort Listing Dedup Select Editor.
From stdpp Require Import gmap.

Local Open Scope Z_scope.
Local Open Scope string_scope.

(** The messages of [setNotification]. *)
Inductive Message :=
  | msg_deleted          (* 'Inzerát byl smazán.' *)
  | msg_delete_error     (* 'Chyba při mazání.' *)
  | msg_cleared          (* 'Celá garáž byla vyprázdněna.' *)
  | msg_clear_error      (* 'Chyba při hromadném mazání.' *)
  | msg_saved            (* 'Změny byly uloženy.' *)
  | msg_save_error       (* 'Chyba při ukládání změn.' *)
  | msg_analyzed         (* 'Úspěch! Model: ..., Zisk: ... Kč' *)
  | msg_analyze_error (detail : string)
  | msg_server_down.

Inductive NotificationType := notif_success | notif_error.

Record Notification := mkNotification { notif_type : NotificationType; notif_message : Message }.

Inductive MainTab := tab_catalog | tab_garage.
Inductive InputMode := mode_url | mode_text.

(** The endpoints of the analysis service and the JSON bodies sent to them. *)
Inductive Endpoint := analyze_url_endpoint | analyze_text_endpoint.

Inductive AnalyzeBody :=
  | body_url (url : string) (api_key : option string)
  | body_text (text : string) (api_key : option string).

Definition AnalyzeRequest : Type := Endpoint * AnalyzeBody.

(** How a [fetch] to the analysis service ends: [response.ok], an error
    reply with its [detail], or no reply (the [catch] branch). *)
Inductive AnalyzeOutcome := resp_ok | resp_error (detail : string) | resp_unreachable.

(** The Firestore collection, the state hooks of [App] (lines 19-36) that
    the handlers change, and the calls in flight: the snapshots the
    started [fetchCars] calls have read, the requests sent by
    [handleAnalyze], and the [setTimeout(() => fetchCars(), 2000)] timers
    not yet fired. *)
Record AppState := mkApp {
  store : gmap string DocData;
  cars : list Car;
  loading : bool;
  selectedCar : option Car;
  selectedCatalogCar : option CarStaticData;
  mainTab : MainTab;
  viewMode : ViewMode;
  filterText : string;
  sortOption : SortOption;
  inputMode : InputMode;
  urlInput : string;
  textInput : string;
  apiKey : string;
  analyzing : bool;
  notification : option Notification;
  fetches : list (gmap string DocData);
  analyses : list AnalyzeRequest;
  fetch_timers : nat
}.

(** The state setters. *)
Definition set_store m s :=
  mkApp m (cars s) (loading s) (selectedCar s) (selectedCatalogCar s) (mainTab s) (viewMode s)
    (filterText s) (sortOption s) (inputMode s) (urlInput s) (textInput s) (apiKey s) (analyzing s)
    (notification s) (fetches s) (analyses s) (fetch_timers s).
Definition set_cars l s :=
  mkApp (store s) l (loading s) (selectedCar s) (selectedCatalogCar s) (mainTab s) (viewMode s)
    (filterText s) (sortOption s) (inputMode s) (urlInput s) (textInput s) (apiKey s) (analyzing s)
    (notification s) (fetches s) (analyses s) (fetch_timers s).
Definition set_loading b s :=
  mkApp (store s) (cars s) b (selectedCar s) (selectedCatalogCar s) (mainTab s) (viewMode s)
    (filterText s) (sortOption s) (inputMode s) (urlInput s) (textInput s) (apiKey s) (analyzing s)
    (notification s) (fetches s) (analyses s) (fetch_timers s).
Definition set_selected c s :=
  mkApp (store s) (cars s) (loading s) c (selectedCatalogCar s) (mainTab s) (viewMode s)
    (filterText s) (sortOption s) (inputMode s) (urlInput s) (textInput s) (apiKey s) (analyzing s)
    (notification s) (fetches s) (analyses s) (fetch_timers s).
Definition set_catalog_car c s :=
  mkApp (store s) (cars s) (loading s) (selectedCar s) c (mainTab s) (viewMode s) (filterText s)
    (sortOption s) (inputMode s) (urlInput s) (textInput s) (apiKey s) (analyzing s)
    (notification s) (fetches s) (analyses s) (fetch_timers s).
Definition set_inputs t mo u x s :=
  mkApp (store s) (cars s) (loading s) (selectedCar s) (selectedCatalogCar s) t (viewMode s)
    (filterText s) (sortOption s) mo u x (apiKey s) (analyzing s) (notification s) (fetches s)
    (analyses s) (fetch_timers s).
Definition set_view v s :=
  mkApp (store s) (cars s) (loading s) (selectedCar s) (selectedCatalogCar s) (mainTab s) v
    (filterText s) (sortOption s) (inputMode s) (urlInput s) (textInput s) (apiKey s) (analyzing s)
    (notification s) (fetches s) (analyses s) (fetch_timers s).
Definition set_filter f s :=
  mkApp (store s) (cars s) (loading s) (selectedCar s) (selectedCatalogCar s) (mainTab s)
    (viewMode s) f (sortOption s) (inputMode s) (urlInput s) (textInput s) (apiKey s) (analyzing s)
    (notification s) (fetches s) (analyses s) (fetch_timers s).
Definition set_sort o s :=
  mkApp (store s) (cars s) (loading s) (selectedCar s) (selectedCatalogCar s) (mainTab s)
    (viewMode s) (filterText s) o (inputMode s) (urlInput s) (textInput s) (apiKey s) (analyzing s)
    (notification s) (fetches s) (analyses s) (fetch_timers s).
Definition set_api_key k s :=
  mkApp (store s) (cars s) (loading s) (selectedCar s) (selectedCatalogCar s) (mainTab s)
    (viewMode s) (filterText s) (sortOption s) (inputMode s) (urlInput s) (textInput s) k
    (analyzing s) (notification s) (fetches s) (analyses s) (fetch_timers s).
Definition set_analyzing b s :=
  mkApp (store s) (cars s) (loading s) (selectedCar s) (selectedCatalogCar s) (mainTab s)
    (viewMode s) (filterText s) (sortOption s) (inputMode s) (urlInput s) (textInput s) (apiKey s) b
    (notification s) (fetches s) (analyses s) (fetch_timers s).
Definition set_notification n s :=
  mkApp (store s) (cars s) (loading s) (selectedCar s) (selectedCatalogCar s) (mainTab s)
    (viewMode s) (filterText s) (sortOption s) (inputMode s) (urlInput s) (textInput s) (apiKey s)
    (analyzing s) n (fetches s) (analyses s) (fetch_timers s).
Definition set_fetches f s :=
  mkApp (store s) (cars s) (loading s) (selectedCar s) (selectedCatalogCar s) (mainTab s)
    (viewMode s) (filterText s) (sortOption s) (inputMode s) (urlInput s) (textInput s) (apiKey s)
    (analyzing s) (notification s) f (analyses s) (fetch_timers s).
Definition set_analyses a s :=
  mkApp (store s) (cars s) (loading s) (selectedCar s) (selectedCatalogCar s) (mainTab s)
    (viewMode s) (filterText s) (sortOption s) (inputMode s) (urlInput s) (textInput s) (apiKey s)
    (analyzing s) (notification s) (fetches s) a (fetch_timers s).
Definition set_timers n s :=
  mkApp (store s) (cars s) (loading s) (selectedCar s) (selectedCatalogCar s) (mainTab s)
    (viewMode s) (filterText s) (sortOption s) (inputMode s) (urlInput s) (textInput s) (apiKey s)
    (analyzing s) (notification s) (fetches s) (analyses s) n.

Definition success (m : Message) : option Notification := Some (mkNotification notif_success m).
Definition failure (m : Message) : option Notification := Some (mkNotification notif_error m).

(** [useState] initial values, over a collection [m]. *)
Definition initial_app (m : gmap string DocData) : AppState :=
  mkApp m [] true None None tab_catalog grid "" date_desc mode_url "" "" "" false None [] [] 0.

(** [timestamp] as Firestore orders it: seconds, then nanoseconds. *)
Definition ts_order_key (d : DocData) : Z :=
  match data_timestamp d with
  | Some t => seconds t * 1000000000 + nanoseconds t
  | None => 0
  end.

Definition has_timestamp (d : DocData) : bool :=
  match data_timestamp d with Some _ => true | None => false end.

(** [getDocs(query(collection(db, "car_analysis_results"),
    orderBy("timestamp", "desc")))] (lines 42-50): the documents that have
    a [timestamp], most recent first. *)
Definition query_docs (m : gmap string DocData) : list (string * DocData) :=
  js_sort (by_key_desc (fun kd : string * DocData => ts_order_key kd.2))
          (List.filter (fun kd => has_timestamp kd.2) (map_to_list m)).

(** [carsData] (lines 51-63): each document reconciled. *)
Definition fetched_cars (m : gmap string DocData) : list Car :=
  map (fun kd => reconcile kd.1 kd.2) (query_docs m).

(** [fetchCars()] up to its [await getDocs(q)]: [setLoading(true)] and the
    read of the collection. *)
Definition start_fetch (s : AppState) : AppState :=
  set_fetches (fetches s ++ [store s]) (set_loading true s).

(** The [i]-th fetch in flight completes: [setCars(carsData)], or
    [setCars([])] in the [catch], then [setLoading(false)]. *)
Definition fetch_done (i : nat) (ok : bool) (s : AppState) : AppState :=
  match fetches s !! i with
  | Some snap =>
      set_fetches (delete i (fetches s))
        (set_loading false (set_cars (if ok then fetched_cars snap else []) s))
  | None => s
  end.

(** [handleDeleteCar(id)] (lines 73-86): after [confirm], [deleteDoc]
    (which succeeds whether or not the document exists), a success
    notification, a [fetchCars()] that is not awaited, and the detail
    modal closed if it shows that id. *)
Definition handleDeleteCar (confirmed ok : bool) (carId : string) (s : AppState) : AppState :=
  if negb confirmed then s
  else if ok then
    set_selected (match selectedCar s with
                  | Some c => if str_eqb (id c) carId then None else Some c
                  | None => None
                  end)
      (start_fetch (set_notification (success msg_deleted) (set_store (delete carId (store s)) s)))
  else set_notification (failure msg_delete_error) s.

(** [handleClearGarage] (lines 88-110): [setLoading(true)], a batch
    deleting every document of the collection, a [fetchCars()] that is
    not awaited; on failure an error and [setLoading(false)]. *)
Definition handleClearGarage (confirmed ok : bool) (s : AppState) : AppState :=
  if negb confirmed then s
  else if ok then start_fetch (set_notification (success msg_cleared) (set_store ∅ (set_loading true s)))
  else set_loading false (set_notification (failure msg_clear_error) (set_loading true s)).

(** [updateDoc(carRef, {notes, tags, externalLinks})] on the document. *)
Definition update_doc (p : CarPatch) (d : DocData) : DocData :=
  mkDocData (data_id d) (data_model d) (data_make d) (data_link d) (data_url d)
    (data_price_czk d) (data_real_price_czk d) (data_price_eur d) (data_mileage d)
    (data_location d) (data_timestamp d) (data_expert_score d)
    (Some (patch_notes p)) (Some (patch_tags p)) (Some (patch_links p))
    (data_cost_breakdown d) (import_price_czk d) (additional_costs d) (data_display d).

(** [handleUpdateCar(carId, data)] (lines 185-206): [updateDoc] fails on a
    missing document (and when the network does, [ok = false]); on success
    the local list and the selected car are merged with the update. *)
Definition handleUpdateCar (carId : string) (p : CarPatch) (ok : bool) (s : AppState) : AppState :=
  match store s !! carId with
  | Some d =>
      if ok then
        set_notification (success msg_saved)
          (set_selected (match selectedCar s with
                         | Some c => if str_eqb (id c) carId then Some (apply_patch c p) else Some c
                         | None => None
                         end)
             (set_cars (merge_update carId p (cars s))
                (set_store (<[carId := update_doc p d]> (store s)) s)))
      else set_notification (failure msg_save_error) s
  | None => set_notification (failure msg_save_error) s
  end.

(** [overrideUrl || urlInput] and [apiKey || null]. *)
Definition js_or_str (a : option string) (b : string) : string :=
  match a with Some u => if str_truthy u then u else b | None => b end.

Definition opt_truthy (a : option string) : bool :=
  match a with Some u => str_truthy u | None => false end.

Definition key_or_null (k : string) : option string := if str_truthy k then Some k else None.

(** The request [handleAnalyze(overrideUrl)] sends (lines 115-127), read
    from the state [s] its closure sees; [None] for the early returns. *)
Definition analyze_request (overrideUrl : option string) (s : AppState) : option AnalyzeRequest :=
  let finalUrl := js_or_str overrideUrl (urlInput s) in
  if (match inputMode s with mode_url => true | mode_text => false end || opt_truthy overrideUrl)%bool
  then if negb (str_truthy finalUrl) then None
       else Some (analyze_url_endpoint, body_url finalUrl (key_or_null (apiKey s)))
  else if negb (str_truthy (textInput s)) then None
       else Some (analyze_text_endpoint, body_text (textInput s) (key_or_null (apiKey s))).

(** [handleAnalyze] up to its [await fetch(...)]: [setAnalyzing(true)],
    then either an early [return] (whose [finally] resets [analyzing]) or
    the request in flight.  [closure] is the state the handler was
    created in, [s] the state it runs on. *)
Definition handleAnalyze (closure : AppState) (overrideUrl : option string) (s : AppState) : AppState :=
  match analyze_request overrideUrl closure with
  | None => set_analyzing false (set_analyzing true s)
  | Some r => set_analyses (analyses s ++ [r]) (set_analyzing true s)
  end.

(** The [i]-th request in flight completes (lines 135-161): on success the
    inputs are cleared and a [fetchCars()] is scheduled in 2000 ms; the
    [finally] resets [analyzing]. *)
Definition analyze_done (i : nat) (o : AnalyzeOutcome) (s : AppState) : AppState :=
  match analyses s !! i with
  | Some _ =>
      let s1 := set_analyses (delete i (analyses s)) s in
      set_analyzing false
        (match o with
         | resp_ok =>
             set_timers (S (fetch_timers s1))
               (set_inputs (mainTab s1) (inputMode s1) "" "" (set_notification (success msg_analyzed) s1))
         | resp_error d => set_notification (failure (msg_analyze_error d)) s1
         | resp_unreachable => set_notification (failure msg_server_down) s1
         end)
  | None => s
  end.

(** A [setTimeout(() => fetchCars(), 2000)] fires. *)
Definition fetch_timer (s : AppState) : AppState :=
  match fetch_timers s with
  | S n => start_fetch (set_timers n s)
  | O => s
  end.

(** The mount effect (lines 164-183): [fetchCars()], and for
    [?import=URL] the garage tab in URL mode with the URL filled in (the
    analysis it schedules 500 ms later is an [ev_analyze (Some url)]). *)
Definition mount (importUrl : option string) (s : AppState) : AppState :=
  let s1 := start_fetch s in
  match importUrl with
  | Some u => if str_truthy u then set_inputs tab_garage mode_url u (textInput s1) s1 else s1
  | None => s1
  end.

(** [onAnalyze] of the catalog modal (lines 615-622): the modal closes,
    the garage tab opens in URL mode with the URL, and [handleAnalyze(url)]
    runs without the [!analyzing] guard of the garage's own button. *)
Definition catalog_analyze (url : string) (s : AppState) : AppState :=
  handleAnalyze s (Some url) (set_inputs tab_garage mode_url url (textInput s) (set_catalog_car None s)).

(** Enter in the URL field (lines 390-392): [handleAnalyze()] unless a
    request is running.  The field exists only on the garage tab in URL
    mode (lines 338 and 379). *)
Definition url_enter (s : AppState) : AppState :=
  match mainTab s, inputMode s with
  | tab_garage, mode_url => if analyzing s then s else handleAnalyze s None s
  | _, _ => s
  end.

(** The "Analyzovat" button (lines 394-401 and 412-419), on the garage
    tab only (line 338): disabled while a request runs or while the field
    of the current mode is empty. *)
Definition analyze_button (s : AppState) : AppState :=
  let field := match inputMode s with mode_url => urlInput s | mode_text => textInput s end in
  match mainTab s with
  | tab_garage => if (analyzing s || negb (str_truthy field))%bool then s else handleAnalyze s None s
  | tab_catalog => s
  end.

(** The "Smazat vše" button (lines 468-475) exists only when the list
    is not empty. *)
Definition clear_button (confirmed ok : bool) (s : AppState) : AppState :=
  match cars s with [] => s | _ :: _ => handleClearGarage confirmed ok s end.

Inductive AppEvent :=
  | ev_mount (importUrl : option string)
  | ev_fetch_done (i : nat) (ok : bool)
  | ev_fetch_timer
  | ev_delete (confirmed ok : bool) (carId : string)
  | ev_clear (confirmed ok : bool)
  | ev_update (carId : string) (p : CarPatch) (ok : bool)
  | ev_analyze (overrideUrl : option string)
  | ev_catalog_analyze (url : string)
  | ev_analyze_done (i : nat) (o : AnalyzeOutcome)
  | ev_backend_insert (docId : string) (d : DocData)
  | ev_select (c : option Car)
  | ev_notification_timeout
  | ev_main_tab (t : MainTab)
  | ev_input_mode (m : InputMode)
  | ev_api_key (k : string)
  | ev_url_input (x : string)
  | ev_text_input (x : string)
  | ev_url_enter
  | ev_analyze_button
  | ev_filter_input (x : string)
  | ev_view_mode (v : ViewMode)
  | ev_sort (o : SortOption)
  | ev_select_catalog (c : option CarStaticData).

(** One event: a handler run to its first [await], a call in flight
    completing, a timer firing, the analysis service writing a document,
    the user opening or closing the detail modal, or one of the controls
    of the page (lines 285-490: tabs, input mode, the fields, the filter,
    whose clear button is [ev_filter_input ""], the sort and view
    selectors) or the brand grid's [onSelectCar] (line 332). *)
Definition app_step (ev : AppEvent) (s : AppState) : AppState :=
  match ev with
  | ev_mount u => mount u s
  | ev_fetch_done i ok => fetch_done i ok s
  | ev_fetch_timer => fetch_timer s
  | ev_delete confirmed ok carId => handleDeleteCar confirmed ok carId s
  | ev_clear confirmed ok => clear_button confirmed ok s
  | ev_update carId p ok => handleUpdateCar carId p ok s
  | ev_analyze u => handleAnalyze s u s
  | ev_catalog_analyze u => catalog_analyze u s
  | ev_analyze_done i o => analyze_done i o s
  | ev_backend_insert k d => set_store (<[k := d]> (store s)) s
  | ev_select c => set_selected c s
  | ev_notification_timeout => set_notification None s
  | ev_main_tab t => set_inputs t (inputMode s) (urlInput s) (textInput s) s
  | ev_input_mode m => set_inputs (mainTab s) m (urlInput s) (textInput s) s
  | ev_api_key k => set_api_key k s
  | ev_url_input x => set_inputs (mainTab s) (inputMode s) x (textInput s) s
  | ev_text_input x => set_inputs (mainTab s) (inputMode s) (urlInput s) x s
  | ev_url_enter => url_enter s
  | ev_analyze_button => analyze_button s
  | ev_filter_input x => set_filter x s
  | ev_view_mode v => set_view v s
  | ev_sort o => set_sort o s
  | ev_select_catalog c => set_catalog_car c s
  end.

Definition run_app (evs : list AppEvent) (s : AppState) : AppState :=
  fold_left (fun s ev => app_step ev s) evs s.

(** The local list shows the collection as a fetch would, up to order. *)
Definition consistent (s : AppState) : Prop := Permutation (cars s) (fetched_cars (store s)).

(** No document carries an [id] key that differs from its document id. *)
Definition ids_not_shadowed (m : gmap string DocData) : Prop :=
  map_Forall (fun k d => data_id d = None \/ data_id d = Some k) m.

(** ** What a fetch returns *)

Definition has_ts_doc (kd : string * DocData) : bool := has_timestamp kd.2.
Definition reconcile_doc (kd : string * DocData) : Car := reconcile kd.1 kd.2.

Lemma fetched_cars_perm m :
  Permutation (fetched_cars m) (map reconcile_doc (List.filter has_ts_doc (map_to_list m))).
Proof. unfold fetched_cars, query_docs. apply Permutation_map. symmetry. apply js_sort_perm. Qed.

Lemma fetched_cars_split m k d :
  m !! k = Some d ->
  Permutation (fetched_cars m)
              (map reconcile_doc (List.filter has_ts_doc ((k, d) :: map_to_list (delete k m)))).
Proof.
  intros Hk. rewrite fetched_cars_perm. apply Permutation_map, filter_perm.
  symmetry. now apply map_to_list_delete.
Qed.

Lemma in_fetched m c :
  In c (fetched_cars m) <-> exists k d, m !! k = Some d /\ has_timestamp d = true /\ c = reconcile k d.
Proof.
  rewrite (fetched_cars_perm m), in_map_iff. split.
  - intros ([k d] & <- & Hin). apply filter_In in Hin as [Hin Ht].
    apply list_elem_of_In, elem_of_map_to_list in Hin. eauto.
  - intros (k & d & Hk & Ht & ->). exists (k, d). split; [done|].
    apply filter_In. split; [|done]. now apply list_elem_of_In, elem_of_map_to_list.
Qed.

Lemma reconcile_id_key m k d : ids_not_shadowed m -> m !! k = Some d -> id (reconcile k d) = k.
Proof. intros H Hk. destruct (H k d Hk) as [E|E]; cbn; now rewrite E. Qed.

Lemma in_fetched_id m c :
  ids_not_shadowed m -> In c (fetched_cars m) ->
  exists d, m !! id c = Some d /\ has_timestamp d = true /\ c = reconcile (id c) d.
Proof.
  intros Hs (k & d & Hk & Ht & ->)%in_fetched. rewrite (reconcile_id_key m k d) by done. eauto.
Qed.

Lemma ids_not_shadowed_delete m k : ids_not_shadowed m -> ids_not_shadowed (delete k m).
Proof. intros H k' d (_ & Hk)%lookup_delete_Some. eauto. Qed.

#[export] Hint Resolve ids_not_shadowed_delete : garage.

(** ** The local merge of [handleUpdateCar] refines a refetch *)

Lemma reconcile_update k p d : reconcile k (update_doc p d) = apply_patch (reconcile k d) p.
Proof. reflexivity. Qed.

(** The local merge is a [map], so it respects permutations. *)
#[export] Instance merge_update_perm k p : Proper (Permutation ==> Permutation) (merge_update k p).
Proof. intros l l' H. now apply Permutation_map. Qed.

Lemma merge_update_skip k p l : (forall c, In c l -> id c <> k) -> merge_update k p l = l.
Proof.
  intros H. unfold merge_update. erewrite map_ext_in; [apply map_id|].
  intros c Hc. destruct (str_eqb (id c) k) eqn:E; [|done].
  apply str_eqb_spec in E. now destruct (H c Hc).
Qed.

Lemma ids_not_shadowed_update m k p d :
  ids_not_shadowed m -> m !! k = Some d -> ids_not_shadowed (<[k := update_doc p d]> m).
Proof.
  intros H Hk k' d'. destruct (decide (k = k')) as [<-|Hne].
  - rewrite lookup_insert_eq. intros [= <-]. exact (H k d Hk).
  - rewrite lookup_insert_ne by done. apply H.
Qed.

Lemma merge_update_fetched m k p d :
  ids_not_shadowed m -> m !! k = Some d ->
  Permutation (merge_update k p (fetched_cars m)) (fetched_cars (<[k := update_doc p d]> m)).
Proof.
  intros Hs Hk. rewrite (fetched_cars_split m k d Hk).
  rewrite (fetched_cars_split _ k (update_doc p d)) by apply lookup_insert_eq.
  rewrite delete_insert_eq.
  assert (Hrest : merge_update k p (map reconcile_doc (List.filter has_ts_doc (map_to_list (delete k m))))
                  = map reconcile_doc (List.filter has_ts_doc (map_to_list (delete k m)))).
  { apply merge_update_skip. intros c ([k' d'] & <- & Hin)%in_map_iff.
    apply filter_In in Hin as [Hin _]. apply list_elem_of_In, elem_of_map_to_list in Hin.
    apply lookup_delete_Some in Hin as [Hne Hk'].
    unfold reconcile_doc; cbn [fst snd]. rewrite (reconcile_id_key m k' d') by done. congruence. }
  cbn [List.filter]. change (has_ts_doc (k, update_doc p d)) with (has_ts_doc (k, d)).
  unfold merge_update in Hrest |- *.
  destruct (has_ts_doc (k, d)); cbn [map]; rewrite Hrest; [|reflexivity].
  change (reconcile_doc (k, d)) with (reconcile k d).
  change (reconcile_doc (k, update_doc p d)) with (reconcile k (update_doc p d)).
  rewrite (reconcile_id_key m k d Hs Hk), reconcile_update. unfold str_eqb. now rewrite String.eqb_refl.
Qed.

Lemma handleUpdateCar_inv k p ok s :
  consistent s -> ids_not_shadowed (store s) ->
  consistent (handleUpdateCar k p ok s) /\ ids_not_shadowed (store (handleUpdateCar k p ok s)).
Proof.
  unfold handleUpdateCar. intros Hc Hs.
  destruct (store s !! k) as [d|] eqn:Hk; [destruct ok|]; [|split; assumption..].
  unfold consistent in *; cbn. split; [|now apply ids_not_shadowed_update].
  rewrite Hc. now apply merge_update_fetched.
Qed.

(** The events that neither complete a fetch nor write to the collection
    other than through [updateDoc]. *)
Definition local_event (ev : AppEvent) : bool :=
  match ev with
  | ev_mount _ | ev_fetch_timer | ev_update _ _ _ | ev_analyze _ | ev_catalog_analyze _
  | ev_analyze_done _ _ | ev_select _ | ev_notification_timeout
  | ev_main_tab _ | ev_input_mode _ | ev_api_key _ | ev_url_input _ | ev_text_input _
  | ev_url_enter | ev_analyze_button | ev_filter_input _ | ev_view_mode _ | ev_sort _
  | ev_select_catalog _ => true
  | ev_fetch_done _ _ | ev_delete _ _ _ | ev_clear _ _ | ev_backend_insert _ _ => false
  end.

Lemma start_fetch_keeps s : cars (start_fetch s) = cars s /\ store (start_fetch s) = store s.
Proof. done. Qed.

Lemma handleAnalyze_keeps c u s :
  cars (handleAnalyze c u s) = cars s /\ store (handleAnalyze c u s) = store s.
Proof. unfold handleAnalyze. now destruct (analyze_request u c). Qed.

Lemma analyze_done_keeps i o s :
  cars (analyze_done i o s) = cars s /\ store (analyze_done i o s) = store s.
Proof. unfold analyze_done. destruct (analyses s !! i); [destruct o|]; done. Qed.

Lemma local_event_keeps ev s :
  local_event ev = true -> (forall k p ok, ev <> ev_update k p ok) ->
  cars (app_step ev s) = cars s /\ store (app_step ev s) = store s.
Proof.
  intros Hl Hu. destruct ev; cbn [local_event app_step] in Hl |- *; try discriminate; try done.
  - unfold mount. destruct importUrl as [u|]; [destruct (str_truthy u)|]; done.
  - unfold fetch_timer. now destruct (fetch_timers s).
  - now destruct (Hu carId p ok).
  - apply handleAnalyze_keeps.
  - unfold catalog_analyze. now rewrite !(proj1 (handleAnalyze_keeps _ _ _)), !(proj2 (handleAnalyze_keeps _ _ _)).
  - apply analyze_done_keeps.
  - unfold url_enter. destruct (mainTab s), (inputMode s); try done.
    destruct (analyzing s); [done|apply handleAnalyze_keeps].
  - unfold analyze_button. destruct (mainTab s); [done|]. destruct (_ || _)%bool; [done|apply handleAnalyze_keeps].
Qed.

#[export] Hint Resolve start_fetch_keeps handleAnalyze_keeps analyze_done_keeps : garage.

(** Reduces the projections of the setters without unfolding the state. *)
Ltac app_red :=
  cbn [store cars loading selectedCar selectedCatalogCar mainTab viewMode filterText sortOption
       inputMode urlInput textInput apiKey analyzing notification fetches analyses fetch_timers
       set_store set_cars set_loading set_selected set_catalog_car set_inputs set_view set_filter
       set_sort set_api_key set_analyzing set_notification set_fetches set_analyses set_timers
       start_fetch].

Lemma fetch_done_last s ok :
  fetch_done (List.length (fetches s)) ok (start_fetch s)
  = set_fetches (fetches s) (set_loading false (set_cars (if ok then fetched_cars (store s) else []) s)).
Proof.
  unfold fetch_done, start_fetch, set_fetches, set_loading. cbn [fetches store].
  rewrite list_lookup_middle by reflexivity. rewrite delete_middle, app_nil_r. reflexivity.
Qed.

(** ** The Firestore handlers *)

(** (C3) Refinement of the collection by the local list: from a state
    whose list is a permutation of what a fetch returns, and where no
    document carries a shadowing [id] key, every sequence of events that
    completes no fetch and writes only through [handleUpdateCar] keeps the
    list a permutation of what a fetch of the updated collection returns:
    the local merge of [handleUpdateCar] is exactly the refetch it saves. *)
Theorem local_events_refine_fetch evs s :
  Forall (fun ev => local_event ev = true) evs ->
  consistent s -> ids_not_shadowed (store s) ->
  consistent (run_app evs s) /\ ids_not_shadowed (store (run_app evs s)).
Proof.
  intros H. revert s. induction H as [|ev evs Hev _ IH]; intros s Hc Hs; [done|].
  simpl. apply IH; destruct ev; try discriminate;
    try (apply handleUpdateCar_inv; assumption);
    (destruct (local_event_keeps _ s Hev) as [Ec Es]; [intros ???; discriminate|];
     unfold consistent; rewrite ?Ec, ?Es; assumption).
Qed.

Lemma handleDeleteCar_ok k s :
  handleDeleteCar true true k s
  = set_selected (match selectedCar s with
                  | Some c => if str_eqb (id c) k then None else Some c
                  | None => None
                  end)
      (start_fetch (set_notification (success msg_deleted) (set_store (delete k (store s)) s))).
Proof. reflexivity. Qed.

(** (C17) [handleDeleteCar(id)] followed by the completion of the fetch it
    starts: the list holds exactly the cars of the earlier collection
    whose id is not the deleted one, the document is gone, and the detail
    modal no longer shows a car with that id (documents without a
    shadowing [id] key). *)
Theorem delete_then_fetch k s :
  ids_not_shadowed (store s) ->
  let s' := fetch_done (List.length (fetches s)) true (handleDeleteCar true true k s) in
  (forall c, In c (cars s') <-> In c (fetched_cars (store s)) /\ id c <> k) /\
  store s' = delete k (store s) /\
  (forall c, selectedCar s' = Some c -> id c <> k).
Proof.
  intros Hs s'. subst s'. rewrite handleDeleteCar_ok.
  unfold fetch_done. app_red. rewrite list_lookup_middle by reflexivity. app_red. split; [|split; [reflexivity|]].
  - intros c. rewrite !in_fetched. split.
    + intros (k' & d & (Hne & Hk)%lookup_delete_Some & Ht & ->).
      rewrite (reconcile_id_key (store s) k' d) by done. split; [eauto|congruence].
    + intros ((k' & d & Hk & Ht & ->) & Hne).
      rewrite (reconcile_id_key (store s) k' d) in Hne by done.
      exists k', d. rewrite lookup_delete_Some. auto.
  - intros c. destruct (selectedCar s) as [c0|]; [|discriminate].
    destruct (str_eqb (id c0) k) eqn:E; intros [= <-]; [].
    intros Hid. apply str_eqb_spec in Hid. congruence.
Qed.

(** (C5) [handleDeleteCar] deletes the document named by the id the list
    shows, which is the document's own [id] key when it has one: for a
    document [k] whose data carries [id = i] naming no document, deleting
    the displayed car deletes nothing, the success notification is shown,
    and the refetch lists the car again. *)
Theorem delete_shadowed_car_survives k d s :
  store s !! k = Some d -> has_timestamp d = true ->
  store s !! id (reconcile k d) = None ->
  let s' := fetch_done (List.length (fetches s)) true (handleDeleteCar true true (id (reconcile k d)) s) in
  In (reconcile k d) (cars s') /\ store s' = store s /\ notification s' = success msg_deleted.
Proof.
  intros Hk Ht Hi s'. subst s'. rewrite handleDeleteCar_ok.
  unfold fetch_done. app_red. rewrite list_lookup_middle by reflexivity. app_red. rewrite delete_id by exact Hi.
  split; [|done]. apply in_fetched. eauto.
Qed.

(** (C13) Firestore's [orderBy("timestamp", "desc")] leaves out the
    documents without a [timestamp]: such a document is never listed,
    whereas the spec sorts it last as timestamp [0]. *)
Theorem fetch_skips_untimestamped m k d c :
  ids_not_shadowed m -> m !! k = Some d -> data_timestamp d = None ->
  In c (fetched_cars m) -> id c <> k.
Proof.
  intros Hs Hk Hn Hin Hid. apply in_fetched_id in Hin as (d' & Hd' & Ht & _); [|done].
  rewrite Hid, Hk in Hd'. injection Hd' as <-. unfold has_timestamp in Ht. now rewrite Hn in Ht.
Qed.

(** (C14) The [finally] of [handleAnalyze] resets [analyzing] when any one
    request completes, even while another request is still in flight: the
    spinner stops and the analyse buttons are enabled again. *)
Theorem analyzing_reset_while_in_flight i o s :
  (2 <= List.length (analyses s))%nat -> (i < List.length (analyses s))%nat ->
  analyzing (analyze_done i o s) = false /\ analyses (analyze_done i o s) <> [].
Proof.
  intros H2 Hi. unfold analyze_done.
  destruct (analyses s !! i) eqn:E; [|apply lookup_ge_None in E; lia].
  assert (Hl : List.length (delete i (analyses s)) = (List.length (analyses s) - 1)%nat)
    by (apply length_delete; eauto).
  destruct o; app_red; (split; [reflexivity|]); intros Hn; rewrite Hn in Hl; cbn in Hl; lia.
Qed.

(** ** The asynchronous work settles *)

(** Every call in flight completes: the requests, oldest first, with the
    replies [replies]; then the pending [setTimeout] refreshes, those the
    successful replies scheduled included; then every fetch, oldest
    first, with the outcomes [oks] (the fetches the timers start
    included). *)
Definition count_ok (replies : list AnalyzeOutcome) : nat :=
  List.length (List.filter (fun o => match o with resp_ok => true | _ => false end) replies).

Definition drain_events (replies : list AnalyzeOutcome) (oks : list bool) (s : AppState) : list AppEvent :=
  (map (ev_analyze_done 0) replies
   ++ repeat ev_fetch_timer (fetch_timers s + count_ok replies)
   ++ map (ev_fetch_done 0) oks)%list.

Lemma run_app_app l1 l2 s : run_app (l1 ++ l2)%list s = run_app l2 (run_app l1 s).
Proof. apply fold_left_app. Qed.

Lemma run_app_cons ev evs s : run_app (ev :: evs) s = run_app evs (app_step ev s).
Proof. reflexivity. Qed.

Lemma drain_analyses replies s :
  List.length replies = List.length (analyses s) ->
  let s' := run_app (map (ev_analyze_done 0) replies) s in
  analyses s' = [] /\ fetches s' = fetches s /\ fetch_timers s' = (fetch_timers s + count_ok replies)%nat
  /\ store s' = store s.
Proof.
  revert s. induction replies as [|o rs IH]; intros s Hn; cbn [map].
  - symmetry in Hn. apply length_zero_iff_nil in Hn. cbn. unfold count_ok. cbn. rewrite Nat.add_0_r. done.
  - destruct (analyses s) as [|a rest] eqn:Ha; [discriminate|]. rewrite run_app_cons.
    cbn [app_step]. unfold analyze_done. rewrite Ha. cbn [lookup list_lookup].
    unfold count_ok; cbn [List.filter].
    destruct o;
      (edestruct IH as (H1 & H2 & H3 & H4); [|split; [exact H1|]; split; [rewrite H2; reflexivity|];
                                                split; [rewrite H3|rewrite H4; reflexivity]]);
      app_red; cbn in Hn |- *; unfold count_ok in *; lia.
Qed.

Lemma drain_timers n s :
  fetch_timers s = n ->
  let s' := run_app (repeat ev_fetch_timer n) s in
  fetch_timers s' = 0%nat /\ fetches s' = (fetches s ++ repeat (store s) n)%list /\
  analyses s' = analyses s /\ store s' = store s.
Proof.
  revert s. induction n as [|n IH]; intros s Hn; cbn [repeat].
  - rewrite app_nil_r. done.
  - rewrite run_app_cons. cbn [app_step]. unfold fetch_timer. rewrite Hn.
    destruct (IH (start_fetch (set_timers n s))) as (H1 & H2 & H3 & H4); [reflexivity|].
    app_red. split; [exact H1|]. split; [rewrite H2; app_red; now rewrite <- app_assoc|]. auto.
Qed.

Lemma drain_fetches oks fs s :
  fetches s = fs -> List.length oks = List.length fs ->
  let s' := run_app (map (ev_fetch_done 0) oks) s in
  fetches s' = [] /\ analyses s' = analyses s /\ fetch_timers s' = fetch_timers s /\ store s' = store s /\
  (forall f b, last fs = Some f -> last oks = Some b ->
               cars s' = (if b then fetched_cars f else []) /\ loading s' = false).
Proof.
  revert oks s. induction fs as [|f fs IH]; intros [|b oks] s Hf Hl; try discriminate; cbn [map].
  - split; [done|]. split; [done|]. split; [done|]. split; [done|]. discriminate.
  - rewrite run_app_cons. cbn [app_step]. unfold fetch_done. rewrite Hf. cbn [lookup list_lookup].
    destruct (IH oks (set_fetches (delete 0%nat (f :: fs))
                        (set_loading false (set_cars (if b then fetched_cars f else []) s))))
      as (H1 & H2 & H3 & H4 & H5); [reflexivity|cbn in Hl; lia|]. app_red.
    split; [done|]. split; [done|]. split; [done|]. split; [done|].
    destruct fs as [|g fs]; [destruct oks; [intros ? ? [= <-] [= <-]; done|discriminate]|].
    destruct oks as [|b' oks]; [discriminate|]. exact H5.
Qed.

Lemma last_app_repeat {A} (l : list A) x n : n <> 0%nat -> last (l ++ repeat x n)%list = Some x.
Proof.
  intros Hn. destruct n as [|n]; [done|]. change (repeat x (S n)) with (x :: repeat x n).
  rewrite repeat_cons, app_assoc. apply last_snoc.
Qed.

(** (C18) The asynchronous work of the app terminates, whatever the
    replies and whatever the fetches return: after one completion per
    request in flight, per refresh timer (those the successful replies
    schedule included) and per fetch (those the timers start included),
    no request, fetch or timer is left and the collection is unchanged;
    when a refresh ran, the list shows the collection as it is, or
    nothing if that last fetch failed, and [loading] is off. *)
Theorem pending_work_settles s replies oks :
  List.length replies = List.length (analyses s) ->
  List.length oks = (List.length (fetches s) + fetch_timers s + count_ok replies)%nat ->
  let s' := run_app (drain_events replies oks s) s in
  analyses s' = [] /\ fetches s' = [] /\ fetch_timers s' = 0%nat /\ store s' = store s /\
  (forall b, (fetch_timers s + count_ok replies <> 0)%nat -> last oks = Some b ->
             cars s' = (if b then fetched_cars (store s) else []) /\ loading s' = false).
Proof.
  intros Hr Ho. cbv zeta. unfold drain_events. rewrite !run_app_app.
  destruct (drain_analyses _ s Hr) as (A1 & A2 & A3 & A4).
  set (s1 := run_app (map (ev_analyze_done 0) replies) s) in *.
  rewrite <- A3. destruct (drain_timers _ s1 eq_refl) as (T1 & T2 & T3 & T4).
  set (s2 := run_app (repeat ev_fetch_timer _) s1) in *.
  assert (Hl : List.length oks = List.length (fetches s2))
    by (rewrite T2, length_app, repeat_length, A2, A3, Ho; lia).
  destruct (drain_fetches oks _ s2 eq_refl Hl) as (F1 & F2 & F3 & F4 & F5).
  split; [congruence|]. split; [exact F1|]. split; [congruence|]. split; [congruence|].
  intros b Ht Hb. rewrite <- A4. apply (F5 _ b); [|exact Hb]. rewrite T2. now apply last_app_repeat.
Qed.


(** ** The garage page sends one analysis at a time *)

(** The events of the garage page and of the calls in flight: all but
    the two that call [handleAnalyze] without the [!analyzing] guard, the
    catalog modal's [onAnalyze] and the [?import=] timer of the mount
    effect. *)
Definition garage_ui_event (ev : AppEvent) : bool :=
  match ev with ev_analyze _ | ev_catalog_analyze _ => false | _ => true end.

(** At most one request in flight, and [analyzing] on while there is one. *)
Definition single_request (s : AppState) : Prop :=
  (List.length (analyses s) <= 1)%nat /\ (analyses s <> [] -> analyzing s = true).

Lemma single_request_idle s : single_request s -> analyzing s = false -> analyses s = [].
Proof. intros [_ H] Ha. destruct (analyses s); [reflexivity|]. rewrite H in Ha by discriminate. discriminate. Qed.

Lemma handleAnalyze_single s :
  single_request s -> analyzing s = false -> single_request (handleAnalyze s None s).
Proof.
  intros Hs Ha. pose proof (single_request_idle s Hs Ha) as Hn. unfold handleAnalyze, single_request.
  destruct (analyze_request None s); app_red; rewrite Hn; cbn; split; auto; congruence.
Qed.

Lemma analyze_done_single i o s : single_request s -> single_request (analyze_done i o s).
Proof.
  intros [Hl Hr]. unfold analyze_done. destruct (analyses s !! i) eqn:E; [|split; assumption].
  assert (Hd : List.length (delete i (analyses s)) = (List.length (analyses s) - 1)%nat)
    by (apply length_delete; eauto).
  assert (Hnil : delete i (analyses s) = []) by (apply length_zero_iff_nil; lia).
  unfold single_request. destruct o; app_red; rewrite Hnil; cbn; split; auto; congruence.
Qed.

Lemma app_step_single ev s :
  garage_ui_event ev = true -> single_request s -> single_request (app_step ev s).
Proof.
  intros Hui Hs. destruct ev; cbn [garage_ui_event] in Hui; try discriminate; cbn [app_step].
  all: try apply analyze_done_single, Hs.
  all: try (unfold url_enter; destruct (mainTab s), (inputMode s); try exact Hs;
            destruct (analyzing s) eqn:Ha; [exact Hs|apply handleAnalyze_single; assumption]).
  all: try (unfold analyze_button; destruct (mainTab s); [exact Hs|]; destruct (analyzing s) eqn:Ha; [exact Hs|];
            destruct (negb _); [exact Hs|apply handleAnalyze_single; assumption]).
  all: unfold single_request in *; unfold mount, fetch_done, fetch_timer, handleDeleteCar, clear_button,
         handleClearGarage, handleUpdateCar in *; repeat case_match; app_red; assumption.
Qed.

(** (C10) Through the garage page alone, at most one analysis request is
    ever in flight, and the spinner is on while it is: Enter and the
    button both check [analyzing] first.  Only the catalog modal's
    [onAnalyze] and the [?import=] timer can start a second one. *)
Theorem garage_ui_single_request evs s :
  Forall (fun ev => garage_ui_event ev = true) evs -> single_request s -> single_request (run_app evs s).
Proof.
  intros H. revert s. induction H as [|ev evs Hev _ IH]; intros s Hs; [exact Hs|].
  rewrite run_app_cons. apply IH, app_step_single; assumption.
Qed.

(** ** Concrete runs *)

(** A document with a model and a creation time, and an optional [id] key. *)
Definition stamped_doc (i : option string) (secs : Z) : DocData :=
  mkDocData i (Some "Model 3") None None None None None None None None
    (Some (mkTimestamp secs 0)) None None None None None None None no_display.

(** A loaded garage over the collection [m]. *)
Definition loaded_app (m : gmap string DocData) : AppState :=
  set_loading false (set_cars (fetched_cars m) (initial_app m)).

Definition plain_store : gmap string DocData := <["a" := stamped_doc None 100]> ∅.

(** Document ["b"] carries [id: "x"], which names no document. *)
Definition shadowed_store : gmap string DocData :=
  <["a" := stamped_doc None 100]> (<["b" := stamped_doc (Some "x") 200]> ∅).

(** A car whose document carries a foreign [id] key cannot be saved:
    the editor's [handleUpdateCar] targets the displayed id, which names
    no document, and fails. *)
Example shadowed_car_save_fails :
  let s := loaded_app shadowed_store in
  map id (cars s) = ["x"; "a"] /\
  notification (handleUpdateCar "x" (mkPatch "checked" [] []) true s) = failure msg_save_error.
Proof. vm_compute. split; reflexivity. Qed.

(** The catalog modal's [onAnalyze] skips the [!analyzing] guard:
    with a garage analysis running, analysing a listing from the catalog
    puts a second request in flight; when the first one answers, the
    spinner stops and the buttons come back although the second is still
    running. *)
Example catalog_second_request :
  let s := run_app [ev_main_tab tab_garage; ev_url_input "https://mobile.de/a"; ev_analyze_button; ev_main_tab tab_catalog;
                    ev_catalog_analyze "https://mobile.de/b"] (loaded_app plain_store) in
  List.length (analyses s) = 2%nat /\ analyzing s = true /\
  let s' := app_step (ev_analyze_done 0 resp_ok) s in
  List.length (analyses s') = 1%nat /\ analyzing s' = false.
Proof. vm_compute. repeat split; reflexivity. Qed.

(** Witnesses. *)
Lemma local_events_refine_fetch_witness :
  consistent (run_app [ev_select None; ev_update "a" (mkPatch "checked" ["#tag"] []) true;
                       ev_notification_timeout] (loaded_app plain_store)) /\
  ids_not_shadowed (store (run_app [ev_select None; ev_update "a" (mkPatch "checked" ["#tag"] []) true;
                                    ev_notification_timeout] (loaded_app plain_store))).
Proof.
  apply local_events_refine_fetch;
    [repeat constructor|apply Permutation_refl|apply (bool_decide_unpack _); vm_compute; reflexivity].
Defined.

Lemma delete_then_fetch_witness :
  let s' := fetch_done (List.length (fetches (loaded_app plain_store))) true
                       (handleDeleteCar true true "a" (loaded_app plain_store)) in
  (forall c, In c (cars s') <-> In c (fetched_cars (store (loaded_app plain_store))) /\ id c <> "a") /\
  store s' = delete "a" (store (loaded_app plain_store)) /\
  (forall c, selectedCar s' = Some c -> id c <> "a").
Proof. apply delete_then_fetch. apply (bool_decide_unpack _). vm_compute. reflexivity. Defined.

Lemma delete_shadowed_car_survives_witness :
  let s := loaded_app shadowed_store in
  let d := stamped_doc (Some "x") 200 in
  let s' := fetch_done (List.length (fetches s)) true (handleDeleteCar true true (id (reconcile "b" d)) s) in
  In (reconcile "b" d) (cars s') /\ store s' = store s /\ notification s' = success msg_deleted.
Proof. apply delete_shadowed_car_survives; vm_compute; reflexivity. Defined.

Lemma fetch_skips_untimestamped_witness :
  id (reconcile "a" (stamped_doc None 100)) <> "c".
Proof.
  apply (fetch_skips_untimestamped
           (<["a" := stamped_doc None 100]> (<["c" := price_doc (Some 1) None None None]> ∅))
           "c" (price_doc (Some 1) None None None));
    [apply (bool_decide_unpack _); vm_compute; reflexivity|vm_compute; reflexivity|reflexivity|].
  vm_compute. left. reflexivity.
Defined.

Lemma analyzing_reset_while_in_flight_witness :
  let s := run_app [ev_catalog_analyze "https://a"; ev_catalog_analyze "https://b"]
                   (loaded_app plain_store) in
  analyzing (analyze_done 0 resp_ok s) = false /\ analyses (analyze_done 0 resp_ok s) <> [].
Proof. apply analyzing_reset_while_in_flight; vm_compute; lia. Defined.

(** A save, then an analysis that succeeds and schedules a refresh: the
    refresh settles on the saved notes. *)
Lemma pending_work_settles_witness :
  let s := handleAnalyze (set_inputs tab_garage mode_url "https://a" "" (loaded_app plain_store)) None
             (handleUpdateCar "a" (mkPatch "checked" [] []) true
                (set_inputs tab_garage mode_url "https://a" "" (loaded_app plain_store))) in
  (List.length [resp_ok] = List.length (analyses s) /\
   List.length [true] = (List.length (fetches s) + fetch_timers s + count_ok [resp_ok])%nat) /\
  let s' := run_app (drain_events [resp_ok] [true] s) s in
  analyses s' = [] /\ fetches s' = [] /\ fetch_timers s' = 0%nat /\ store s' = store s /\
  (forall b, (fetch_timers s + count_ok [resp_ok] <> 0)%nat -> last [true] = Some b ->
             cars s' = (if b then fetched_cars (store s) else []) /\ loading s' = false).
Proof. split; [split; reflexivity|apply pending_work_settles; reflexivity]. Defined.


Lemma garage_ui_single_request_witness :
  let evs := [ev_main_tab tab_garage; ev_url_input "https://mobile.de/a"; ev_url_enter; ev_url_enter; ev_analyze_button;
              ev_analyze_done 0 resp_ok; ev_fetch_timer; ev_fetch_done 0 true] in
  Forall (fun ev => garage_ui_event ev = true) evs /\ single_request (loaded_app plain_store) /\
  single_request (run_app evs (loaded_app plain_store)).
Proof.
  cbv zeta. assert (H0 : single_request (loaded_app plain_store)) by (split; [cbn; lia|intros []; reflexivity]).
  assert (Hf : Forall (fun ev => garage_ui_event ev = true)
                 [ev_main_tab tab_garage; ev_url_input "https://mobile.de/a"; ev_url_enter; ev_url_enter; ev_analyze_button;
                  ev_analyze_done 0 resp_ok; ev_fetch_timer; ev_fetch_done 0 true]) by repeat constructor.
  split; [exact Hf|split; [exact H0|apply garage_ui_single_request; assumption]].
Defined.
