(* ===== verification/Views.v ===== *)
(** * What the garage shows of a car: the card, the table row, the detail panels

    The garage grid renders a [CarCard] ([components/CarCard.tsx]) per
    car, the table view a row ([App.tsx] lines 536-591), and the detail
    modal ([components/CarDetailModal.tsx] lines 73-551) the information,
    analysis and price panels.  Markup and CSS are left out; what is
    modelled is every value the views compute from a [Car]: the colour
    classes chosen by thresholds, the fallbacks of [||], the rounding of
    [toFixed(0)], the clamping of the score bar, the truncated lists, the
    texts derived from the audit strings, and the events the buttons send
    to [App] (as events of [Garage.app_step]).

    [toLocaleString] only formats a number; the model keeps the number.
    [CarCard], [table_row] and [garage_view] put the values together:
    what a card, a table row and the whole garage list show;
    [detail_view] is the detail modal: the active tab ([info_view],
    the editor of [Editor.v], [analysis_view], the calculator of
    [Breakdown.v]) and the [price_panel].

    The theorems: the three views agree on whether a car is profitable;
    they disagree on the battery colour exactly when [soh] is missing or
    [0]; the score bar and the score circle stay in range exactly for
    scores in [0, 100]; the mileage shown in thousands is within 500 km;
    the truncated warning and feature lists account for every item; the
    delete button of a card never opens the detail modal; saving in the
    editor leaves the garage list as it was (the deduplication commutes
    with the local merge); and the verdict "buy" wins over "avoid"
    whenever the text contains [KOUPIT]. *)

From S2P Require Import Prelude CatalogData Listing Dedup Select Breakdown Editor Garage.
From Stdlib Require Import QArith_base Qfield Lqa.

Local Open Scope Z_scope.

(** ** Helpers on JavaScript values *)

(** [q || d] for a possibly absent (or [NaN]) number that may be fractional. *)
Definition js_or_q (x : option Q) (d : Q) : Q :=
  match x with Some q => if Qeq_bool q 0 then d else q | None => d end.

(** [s || d] for a possibly absent string. *)
Definition js_or_s (x : option string) (d : string) : string :=
  match x with Some s => if str_truthy s then s else d | None => d end.

(** [x?.includes(k)]: [undefined] when [x] is absent, which is falsy. *)
Definition opt_includes_s (k : string) (x : option string) : bool :=
  match x with Some s => includes k s | None => false end.

(** ** [CarCard] *)

Inductive ProfitColor := text_gray_400 | text_green_600 | text_carvago_primary | text_red_600.

(** [const profit = data.arbitrage_profit || 0] (line 13). *)
Definition card_profit (c : Car) : Z := js_or_num (arbitrage_profit (display c)) 0.

(** [profitColor] (lines 16-19): the initial [text-gray-400] is always
    overwritten. *)
Definition card_profit_color (c : Car) : ProfitColor :=
  let profit := card_profit c in
  if 40000 <=? profit then text_green_600
  else if 0 <? profit then text_carvago_primary
  else text_red_600.

(** [(data.expert_score || 0) >= 90] (line 48): the EXPERT CHOICE badge. *)
Definition expert_choice (c : Car) : bool := 90 <=? js_or_num (expert_score c) 0.

Inductive SohColor := soh_red | soh_green | soh_orange.

(** [(data.soh || 0) < 90 ? 'text-red-500' : 'text-green-600'] (line 63). *)
Definition card_soh_color (c : Car) : SohColor :=
  if negb (Qle_bool 90 (js_or_q (soh (display c)) 0)) then soh_red else soh_green.

(** [data.model || 'Neznámý model'] (lines 43, 58). *)
Definition card_title (c : Car) : string := js_or_s (model c) "Neznámý model".

(** The price line (line 73) and the profit line (line 78): the sign is
    [+] for a positive profit. *)
Definition card_price (c : Car) : Z := js_or_num (real_price_czk c) 0.
Definition card_profit_sign (c : Car) : bool := 0 <? card_profit c.

(** The two click targets of the card.  The delete button calls
    [e.stopPropagation()], so the card's own [onClick] does not run, and
    then [data.id && onDelete(data.id)] (lines 86-89); [onDelete] is
    [handleDeleteCar], whose [confirm] and [deleteDoc] outcomes are the
    [confirmed] and [ok] of the event. *)
Inductive CardClick := card_body | card_delete (confirmed ok : bool).

Definition card_events (c : Car) (k : CardClick) : list AppEvent :=
  match k with
  | card_body => [ev_select (Some c)]
  | card_delete confirmed ok => if str_truthy (id c) then [ev_delete confirmed ok (id c)] else []
  end.

(** ** The table row of [App.tsx] (lines 536-591) *)

(** [car.price_czk ? ... + ' Kč' : 'N/A'] (line 547): [None] is [N/A]. *)
Definition row_price (c : Car) : option Z :=
  match price_czk c with Some p => if p =? 0 then None else Some p | None => None end.

(** [car.arbitrage_profit > 0 ? 'text-green-600' : 'text-red-500'] (line 554). *)
Definition row_profit_green (c : Car) : bool := js_pos (arbitrage_profit (display c)).

(** [car.arbitrage_profit ? ... : '-'] (line 555): [None] is [-]. *)
Definition row_profit (c : Car) : option Z :=
  match arbitrage_profit (display c) with Some p => if p =? 0 then None else Some p | None => None end.

(** [width: `${Math.min(car.expert_score || 0, 100)}%`] (line 563). *)
Definition score_bar_width (c : Car) : Z := Z.min (js_or_num (expert_score c) 0) 100.

(** A click on the row opens the detail modal (line 539); the two
    buttons call [e.stopPropagation()] first: the link button only opens
    [car.link] in a new window, the delete button calls
    [handleDeleteCar(car.id)] without the card's [car.id &&] guard. *)
Inductive RowClick := row_body | row_open_link | row_delete (confirmed ok : bool).

Definition row_events (c : Car) (k : RowClick) : list AppEvent :=
  match k with
  | row_body => [ev_select (Some c)]
  | row_open_link => []
  | row_delete confirmed ok => [ev_delete confirmed ok (id c)]
  end.

(** ** The detail modal of [CarDetailModal.tsx] *)

(** [formatPrice] (lines 74-76): [(price || 0)] before formatting. *)
Definition formatPrice (price : option Z) : Z := js_or_num price 0.

(** [isProfitPositive] (lines 79-80), which colours the margin line (line 509). *)
Definition modal_profit (c : Car) : Z := js_or_num (arbitrage_profit (display c)) 0.
Definition isProfitPositive (c : Car) : bool := 0 <? modal_profit c.

(** [(car.soh || 100) >= 90 ? 'text-green-600' : 'text-orange-500'] (line 185). *)
Definition modal_soh_color (c : Car) : SohColor :=
  if Qle_bool 90 (js_or_q (soh (display c)) 100) then soh_green else soh_orange.

(** [Number.prototype.toFixed(0)] of [m / 1000] for an integer [m]: the
    integer [n] nearest to [|m| / 1000], the larger one on a tie, with
    the sign of [m]. *)
Definition toFixed0_div1000 (m : Z) : Z :=
  if m <? 0 then - ((- m + 500) / 1000) else (m + 500) / 1000.

(** [car.mileage ? (car.mileage / 1000).toFixed(0) + 'k' : '?'] (line 194):
    [None] is [?]. *)
Definition mileage_k (c : Car) : option Z :=
  match mileage c with Some m => if m =? 0 then None else Some (toFixed0_div1000 m) | None => None end.

(** A list shown by its first [n] items and, when longer, a line
    "...a další k" / "+k dalších" with the number [k] of the others:
    [list.slice(0, n)] and [list.length > n && list.length - n]. *)
Definition preview {A} (n : nat) (l : list A) : list A * option nat :=
  (firstn n l, if Nat.ltb n (List.length l) then Some (List.length l - n)%nat else None).

(** The warnings block (lines 223-245): the first three warnings and the
    count of the others, or the "Bez varování" box ([None]) when there
    is no warning. *)
Definition warnings_view (c : Car) : option (list string * option nat) :=
  match car_warnings (display c) with
  | Some (w :: ws) => Some (preview 3 (w :: ws))
  | _ => None
  end.

(** The features block (lines 247-261): shown whenever [car.features] is
    set, even when empty; the first eight and the count of the others. *)
Definition features_view (c : Car) : option (list string * option nat) :=
  option_map (preview 8) (features (display c)).

Inductive VerdictClass := verdict_buy | verdict_avoid | verdict_caution.

(** The class of the verdict panel (lines 399-400) and of the verdict
    text (line 425). *)
Definition verdict_class (c : Car) : VerdictClass :=
  if opt_includes_s "KOUPIT" (audit_verdict c.(display)) then verdict_buy
  else if opt_includes_s "RUCE" (audit_verdict c.(display)) then verdict_avoid
  else verdict_caution.

(** The verdict text (line 426) and the recommendation under it (lines
    429-431): [true] is the purchase recommendation. *)
Definition verdict_text (c : Car) : string := js_or_s (audit_verdict (display c)) "ČEKÁM NA ANALÝZU...".
Definition recommends_purchase (c : Car) : bool := opt_includes_s "KOUPIT" (audit_verdict (display c)).

(** The score circle (lines 411-419): its dash offset [351.86 - (351.86 *
    score) / 100], and its colour by the thresholds 80 and 50. *)
Definition circle_length : Q := 35186 # 100.

Definition score_offset (c : Car) : Q :=
  circle_length - circle_length * inject_Z (js_or_num (expert_score c) 0) / 100.

Inductive ScoreColor := score_green | score_orange | score_red.

Definition score_color (c : Car) : ScoreColor :=
  let s := js_or_num (expert_score c) 0 in
  if 80 <=? s then score_green else if 50 <=? s then score_orange else score_red.

(** The [(car.expert_score || 0) >= 90] badge "AUDIT: PŘIJATO" (line 160),
    shown on the image header only. *)
Definition audit_accepted (c : Car) : bool :=
  (expert_choice c && match image (display c) with Some i => str_truthy i | None => false end)%bool.

(** The button under the price panel (lines 528-535): [car.url &&
    window.open(car.url)]; [None] when it is disabled. *)
Definition listing_button (c : Car) : option string :=
  match url c with Some u => if str_truthy u then Some u else None | None => None end.

(** ** The audit texts *)

Fixpoint str_drop (n : nat) (s : string) : string :=
  match n, s with
  | O, _ => s
  | S n', String _ r => str_drop n' r
  | S _, EmptyString => EmptyString
  end.

(** [s.replace(pat, rep)] with a string pattern: the first occurrence only. *)
Fixpoint replace_first_s (pat rep s : string) : string :=
  if prefixb pat s then (rep ++ str_drop (String.length pat) s)%string
  else match s with
       | EmptyString => EmptyString
       | String c r => String c (replace_first_s pat rep r)
       end.

(** The text after the first occurrence of [sep], if any. *)
Fixpoint after_first (sep s : string) : option string :=
  if prefixb sep s then Some (str_drop (String.length sep) s)
  else match s with EmptyString => None | String _ r => after_first sep r end.

(** The text before the first occurrence of [sep] (all of [s] without one). *)
Fixpoint before_first (sep s : string) : string :=
  if prefixb sep s then EmptyString
  else match s with EmptyString => EmptyString | String c r => String c (before_first sep r) end.

(** [s.split(sep)[1]] for a non-empty [sep]: the piece between the first
    and the second occurrence; [undefined] ([None]) without any. *)
Definition split_1 (sep s : string) : option string := option_map (before_first sep) (after_first sep s).

(** A reason of [car.audit_reasons] (lines 444-451): the bolt icon when
    it mentions [VERDIKT], and its text without the first [VERDIKT AI:]
    and then the first [AI:]. *)
Definition reason_has_bolt (r : string) : bool := includes "VERDIKT" r.
Definition reason_text (r : string) : string := replace_first_s "AI:" "" (replace_first_s "VERDIKT AI:" "" r).

(** The negotiation tip (lines 457-465): shown when [car.negotiation_draft]
    is truthy, as [draft.split('Tip pro vyjednávání:')[1] || draft]. *)
Definition negotiation_tip (c : Car) : option string :=
  match negotiation_draft (display c) with
  | Some d =>
      if str_truthy d then
        Some (match split_1 "Tip pro vyjednávání:" d with
              | Some t => if str_truthy t then t else d
              | None => d
              end)
      else None
  | None => None
  end.

(** ** The whole views *)

(** What a [CarCard] shows (lines 11-102): the image with the year badge
    when [data.image] is truthy (else the placeholder with the year and
    the title), the EXPERT CHOICE badge, the title, the mileage
    ([data.mileage ? ... : 0]), the battery health and its colour
    ([data.soh || '?'], [None] is [?]), the price, and the profit with
    its sign and colour. *)
Record CardView := mkCardView {
  cv_image : option string;
  cv_year : option Z;
  cv_title : string;
  cv_expert : bool;
  cv_mileage : Z;
  cv_soh : option Q;
  cv_soh_color : SohColor;
  cv_price : Z;
  cv_profit_sign : bool;
  cv_profit : Z;
  cv_profit_color : ProfitColor
}.

(** [data.image ? ... : ...]: the picture, when the URL is truthy. *)
Definition shown_image (c : Car) : option string :=
  match image (display c) with Some i => if str_truthy i then Some i else None | None => None end.

(** [data.soh || '?']: [None] is [?]. *)
Definition shown_soh (c : Car) : option Q :=
  match soh (display c) with Some q => if Qeq_bool q 0 then None else Some q | None => None end.

(** [x || '?'] for a number: [None] is [?]. *)
Definition js_or_unknown (x : option Z) : option Z :=
  match x with Some v => if v =? 0 then None else Some v | None => None end.

Definition CarCard (c : Car) : CardView :=
  mkCardView (shown_image c) (year (display c)) (card_title c) (expert_choice c) (js_or_num (mileage c) 0)
    (shown_soh c) (card_soh_color c) (card_price c) (card_profit_sign c) (card_profit c) (card_profit_color c).

(** What a row of the table shows (lines 537-591): the model and the
    link, the price, the mileage and the year, the profit and its colour,
    the score bar and the score. *)
Record RowView := mkRowView {
  rv_model : option string;
  rv_link : option string;
  rv_price : option Z;
  rv_mileage : option Z;
  rv_year : option Z;
  rv_profit_green : bool;
  rv_profit : option Z;
  rv_bar : Z;
  rv_score : Z
}.

Definition table_row (c : Car) : RowView :=
  mkRowView (model c) (link c) (row_price c) (mileage c) (year (display c)) (row_profit_green c)
            (row_profit c) (score_bar_width c) (js_or_num (expert_score c) 0).

(** The garage list (lines 495-597): the spinner, the empty garage, the
    cards of the grid or the rows of the table. *)
Inductive GarageView :=
  | view_loading
  | view_empty
  | view_grid (cards : list CardView)
  | view_table (rows : list RowView).

Definition garage_view (s : AppState) : GarageView :=
  match garage_body (loading s) (analyzing s) (cars s) (viewMode s) (filterText s) (sortOption s) with
  | body_loading => view_loading
  | body_empty => view_empty
  | body_grid cs => view_grid (map CarCard cs)
  | body_table cs => view_table (map table_row cs)
  end.

(** The information tab of the detail modal (lines 145-296): the header
    (picture, model, year, mileage, power: [power_kw ? ... : ''] over the
    picture, the raw value without one) with the AUDIT badge, the six
    figures of the specification grid, the warnings and features blocks,
    and the editor's notes and tags, saved or not. *)
Record InfoView := mkInfoView {
  iv_image : option string;
  iv_model : option string;
  iv_year : option Z;
  iv_mileage : option Z;
  iv_power : option Z;
  iv_audit : bool;
  iv_soh_color : SohColor;
  iv_soh : option Q;
  iv_mileage_k : option Z;
  iv_range : option Z;
  iv_year_spec : option Z;
  iv_power_spec : option Z;
  iv_location : string;
  iv_warnings : option (list string * option nat);
  iv_features : option (list string * option nat);
  iv_notes : option string;
  iv_tags : list string
}.

Definition info_view (c : Car) (st : EditorState) : InfoView :=
  let img := shown_image c in
  mkInfoView img (model c) (year (display c)) (mileage c)
    (match img with Some _ => js_or_unknown (power_kw (display c)) | None => power_kw (display c) end)
    (audit_accepted c) (modal_soh_color c) (shown_soh c) (mileage_k c) (js_or_unknown (range_wltp (display c)))
    (js_or_unknown (year (display c))) (js_or_unknown (power_kw (display c))) (js_or_s (location c) "EU")
    (warnings_view c) (features_view c)
    (if str_truthy (ed_notes st) then Some (ed_notes st) else None) (ed_tags st).

(** The analysis tab (lines 396-467): the verdict class, the green pulse
    of a score of at least 70, the score circle and the score, the
    verdict and the recommendation, the findings (when there are any)
    with their bolt and text, and the negotiation tip. *)
Record AnalysisView := mkAnalysisView {
  av_class : VerdictClass;
  av_pulse : bool;
  av_offset : Q;
  av_color : ScoreColor;
  av_score : Z;
  av_text : string;
  av_recommend : bool;
  av_reasons : option (list (bool * string));
  av_tip : option string
}.

Definition analysis_view (c : Car) : AnalysisView :=
  mkAnalysisView (verdict_class c) (70 <=? js_or_num (expert_score c) 0) (score_offset c) (score_color c)
    (js_or_num (expert_score c) 0) (verdict_text c) (recommends_purchase c)
    (match audit_reasons (display c) with
     | Some ((_ :: _) as rs) => Some (map (fun r => (reason_has_bolt r, reason_text r)) rs)
     | _ => None
     end)
    (negotiation_tip c).

(** The price panel on the right (lines 489-545): the price with import,
    the EUR price, the margin with its sign, the raw [expert_score] of the
    "Carvago TIP" ([undefined] renders nothing), and the listing button. *)
Record PricePanel := mkPricePanel {
  pp_price : Z;
  pp_eur : option Z;
  pp_profit_positive : bool;
  pp_profit : Z;
  pp_score : option Z;
  pp_listing : option string
}.

Definition price_panel (c : Car) : PricePanel :=
  mkPricePanel (formatPrice (real_price_czk c)) (price_eur c) (isProfitPositive c) (formatPrice (Some (modal_profit c)))
               (expert_score c) (listing_button c).

(** The left column shows the active tab (lines 144-485): the notes tab
    is the editor of [Editor.v], the calculator tab the
    [ScrollytellingCalculatorWrapper] of [Breakdown.v]. *)
Inductive TabView :=
  | tv_info (v : InfoView)
  | tv_notes (st : EditorState)
  | tv_analysis (v : AnalysisView)
  | tv_calculator (v : CalculatorView).

Definition detail_view (c : Car) (st : EditorState) : TabView * PricePanel :=
  (match activeTab st with
   | tab_info => tv_info (info_view c st)
   | tab_notes => tv_notes st
   | tab_analysis => tv_analysis (analysis_view c)
   | tab_calculator => tv_calculator (calculator_view c)
   end, price_panel c).

(** The main area of the page (lines 320-599): the catalog tab (its
    [BrandGrid] is [BrandGrid.v]) or the garage tab with the input mode,
    the busy buttons, the count of [processedCars] and the list. *)
Inductive MainView :=
  | main_catalog
  | main_garage (mode : InputMode) (busy : bool) (saved : nat) (list : GarageView).

(** The whole page of [App] (lines 271-632): the tab, the badge of the
    garage tab ([uniqueCars.length], when positive), the notification,
    the main area, and the two modals, open on the selected car. *)
Record AppView := mkAppView {
  ap_tab : MainTab;
  ap_badge : option nat;
  ap_notification : option Notification;
  ap_main : MainView;
  ap_detail : option Car;
  ap_catalog : option CarStaticData
}.

Definition app_view (s : AppState) : AppView :=
  let n := List.length (uniqueCars (cars s)) in
  mkAppView (mainTab s) (if Nat.ltb 0 n then Some n else None) (notification s)
    (match mainTab s with
     | tab_catalog => main_catalog
     | tab_garage => main_garage (inputMode s) (analyzing s) (saved_count (cars s) (filterText s) (sortOption s))
                                 (garage_view s)
     end)
    (selectedCar s) (selectedCatalogCar s).

(** ** Lemmas *)

Lemma preview_total {A} n (l : list A) :
  (fst (preview n l)) `prefix_of` l /\ (List.length (fst (preview n l)) <= n)%nat /\
  (List.length (fst (preview n l)) + default 0 (snd (preview n l)))%nat = List.length l.
Proof.
  unfold preview; cbn [fst snd]. split; [exists (skipn n l); symmetry; apply firstn_skipn|].
  rewrite length_firstn. destruct (Nat.ltb_spec n (List.length l)); cbn; lia.
Qed.

Lemma merge_update_keeps_keys carId p :
  forall c, let f := fun c => if str_eqb (id c) carId then apply_patch c p else c in
  link (f c) = link c /\ url (f c) = url c /\ price_eur (f c) = price_eur c
  /\ mileage (f c) = mileage c /\ timestamp (f c) = timestamp c.
Proof. intros c. cbn. destruct (str_eqb (id c) carId); repeat split. Qed.

Lemma merge_update_views carId p c :
  CarCard (if str_eqb (id c) carId then apply_patch c p else c) = CarCard c /\
  table_row (if str_eqb (id c) carId then apply_patch c p else c) = table_row c.
Proof. destruct (str_eqb (id c) carId); split; reflexivity. Qed.

(** ** The theorems *)

(** (C15) The card, the table row and the price panel of the detail modal
    agree on whether a car is profitable: the card's profit is red exactly
    when the row's is not green, and the row is green exactly when the
    panel shows the margin as positive (a missing and a zero profit alike). *)
Theorem profit_views_agree c :
  (card_profit_color c = text_red_600 <-> row_profit_green c = false) /\
  row_profit_green c = isProfitPositive c.
Proof.
  unfold card_profit_color, row_profit_green, isProfitPositive, card_profit, modal_profit.
  destruct (arbitrage_profit (display c)) as [p|]; cbn; [|split; [tauto|reflexivity]].
  destruct (Z.eqb_spec p 0) as [->|Hp]; [cbn; split; [tauto|reflexivity]|].
  zcmp; (split; [split; intros; (discriminate || reflexivity || lia)|reflexivity]).
Qed.

(** (C22) The battery colour of the card ([soh || 0 < 90] is red) and of
    the detail modal ([soh || 100 >= 90] is green) tell the same story
    exactly when [soh] is a non-zero number: a car without [soh] is red
    on the card and green in the modal. *)
Theorem soh_views_agree_iff c :
  (match card_soh_color c, modal_soh_color c with
   | soh_red, soh_orange | soh_green, soh_green => True
   | _, _ => False end)
  <-> exists q, soh (display c) = Some q /\ ~ q == 0.
Proof.
  unfold card_soh_color, modal_soh_color. destruct (soh (display c)) as [q|]; cbn; [destruct (Qeq_bool q 0) eqn:B|];
    cbn; try change (Qle_bool 90 0) with false; try change (Qle_bool 90 100) with true; cbn.
  - split; [tauto|]. intros (q' & [= <-] & Hq). apply Qeq_bool_iff in B. contradiction.
  - split; [intros _; exists q; split; [reflexivity|intros Hq; apply Qeq_bool_iff in Hq; congruence]|].
    intros _. destruct (Qle_bool 90 q); cbn; tauto.
  - split; [tauto|]. intros (q & Hs & _). discriminate.
Qed.

(** (C21) The score bar of the table is at most 100% wide, and exactly the
    score for scores in [0, 100]; the score circle of the detail modal
    has an offset in [0, 351.86] exactly for those scores (a score above
    100 makes it negative, one below 0 makes it exceed the circle). *)
Theorem score_display_bounds c :
  let s := js_or_num (expert_score c) 0 in
  score_bar_width c <= 100 /\ (0 <= s <= 100 -> score_bar_width c = s) /\
  ((0 <= score_offset c /\ score_offset c <= circle_length)%Q <-> 0 <= s <= 100).
Proof.
  intros s. unfold score_bar_width, score_offset. fold s.
  split; [lia|]. split; [lia|].
  rewrite (Zle_Qle 0 s), (Zle_Qle s 100). change (inject_Z 0) with 0%Q. change (inject_Z 100) with 100%Q.
  unfold circle_length.
  setoid_replace ((35186 # 100) * inject_Z s / 100)%Q with ((35186 # 10000) * inject_Z s)%Q using relation Qeq by field.
  split; intros [H1 H2]; split; lra.
Qed.

(** The mileage the detail modal shows in thousands
    ([(mileage / 1000).toFixed(0)]) is within 500 km of the real one. *)
Theorem mileage_k_close c m k :
  mileage c = Some m -> mileage_k c = Some k -> Z.abs (1000 * k - m) <= 500.
Proof.
  intros Hm. unfold mileage_k. rewrite Hm. destruct (m =? 0); [discriminate|].
  intros [= <-]. unfold toFixed0_div1000. destruct (Z.ltb_spec m 0).
  - pose proof (Z.div_mod (- m + 500) 1000 ltac:(lia)). pose proof (Z.mod_pos_bound (- m + 500) 1000 ltac:(lia)). lia.
  - pose proof (Z.div_mod (m + 500) 1000 ltac:(lia)). pose proof (Z.mod_pos_bound (m + 500) 1000 ltac:(lia)). lia.
Qed.

(** No warning is lost or repeated: the warnings block shows the
    first of the car's warnings, at most three, and the count of the
    others makes up the total. *)
Theorem warnings_view_accounts c shown more :
  warnings_view c = Some (shown, more) ->
  exists ws, car_warnings (display c) = Some ws /\ shown `prefix_of` ws /\ (List.length shown <= 3)%nat /\
             (List.length shown + default 0 more)%nat = List.length ws.
Proof.
  unfold warnings_view. destruct (car_warnings (display c)) as [[|w ws]|]; try discriminate.
  intros E. exists (w :: ws). split; [reflexivity|].
  destruct (preview_total 3 (w :: ws)) as (H1 & H2 & H3).
  destruct (preview 3 (w :: ws)) as [a b]. injection E as <- <-. auto.
Qed.

(** The delete button of a card never opens the detail modal: its
    click is stopped before the card's [onClick], so after the events it
    sends the modal shows what it showed before, or nothing when it
    showed the deleted car. *)
Theorem card_delete_keeps_modal c confirmed ok s :
  let s' := run_app (card_events c (card_delete confirmed ok)) s in
  selectedCar s' = selectedCar s \/ selectedCar s' = None.
Proof.
  cbv zeta. unfold card_events. destruct (str_truthy (id c)); [|now left].
  cbn [run_app fold_left app_step]. unfold handleDeleteCar.
  destruct confirmed; [|now left]. destruct ok; cbn [negb]; [|now left].
  app_red. destruct (selectedCar s) as [c0|]; [destruct (str_eqb (id c0) (id c))|]; auto.
Qed.

(** (C23) Saving in the editor never changes the garage list: after
    [handleUpdateCar], saved or failed, the grid shows the same cards and
    the table the same rows, in the same order — the edited notes, tags
    and links are not shown there and [uniqueCars] does not read them. *)
Theorem save_keeps_garage_view carId p ok s :
  garage_view (handleUpdateCar carId p ok s) = garage_view s.
Proof.
  unfold handleUpdateCar. destruct (store s !! carId); [destruct ok|]; try reflexivity.
  unfold garage_view, garage_body, merge_update. app_red.
  destruct (loading s && negb (analyzing s))%bool; [reflexivity|].
  destruct (cars s) as [|c0 l]; [reflexivity|].
  destruct (map _ (c0 :: l)) as [|c1 cs] eqn:Em; [discriminate|]. rewrite <- Em.
  destruct (viewMode s);
    rewrite (uniqueCars_map (fun c => if str_eqb (id c) carId then apply_patch c p else c)
                            (merge_update_keeps_keys carId p)), map_map;
    f_equal; apply map_ext; intros c; apply merge_update_views.
Qed.


(** A car with only an id and the given display keys (concrete runs). *)
Definition display_car (d : Display) : Car :=
  mkCar "x" None None None None None None None None None None None None None None None d.

(** (C33) The verdict panel (lines 399-400), the colour of the verdict
    (line 425) and the recommendation (lines 429-431) agree: a car is
    shown as a buy and recommended exactly when its verdict contains
    "KOUPIT" anywhere — so also "NEKOUPIT" ("do not buy") — and as one to
    avoid exactly when it contains "RUCE" but not "KOUPIT". *)
Theorem verdict_panel_spec c :
  (verdict_class c = verdict_buy <-> recommends_purchase c = true) /\
  (recommends_purchase c = true <->
     exists p q, audit_verdict (display c) = Some (String.append p (String.append "KOUPIT" q))) /\
  (verdict_class c = verdict_avoid <->
     recommends_purchase c = false /\
     exists p q, audit_verdict (display c) = Some (String.append p (String.append "RUCE" q))).
Proof.
  unfold verdict_class, recommends_purchase, opt_includes_s.
  destruct (audit_verdict (display c)) as [v|].
  - assert (EK : (exists p q, Some v = Some (String.append p (String.append "KOUPIT" q))) <-> includes "KOUPIT" v = true)
      by (rewrite includes_spec; split; intros (p & q & H); exists p, q; congruence).
    assert (ER : (exists p q, Some v = Some (String.append p (String.append "RUCE" q))) <-> includes "RUCE" v = true)
      by (rewrite includes_spec; split; intros (p & q & H); exists p, q; congruence).
    rewrite EK, ER. destruct (includes "KOUPIT" v), (includes "RUCE" v); intuition congruence.
  - assert (N : forall k, ~ exists p q, (None : option string) = Some (String.append p (String.append k q)))
      by (intros k (p & q & H); discriminate).
    pose proof (N "KOUPIT"); pose proof (N "RUCE"). intuition congruence.
Qed.

(** The verdict "NEKOUPIT" ("do not buy") gets the green "buy" panel and
    the purchase recommendation. *)
Example nekoupit_shown_as_buy :
  let c := display_car (mkDisplay None None None None None None None None (Some "NEKOUPIT") None None) in
  verdict_class c = verdict_buy /\ recommends_purchase c = true.
Proof. vm_compute. split; reflexivity. Qed.

(** Witnesses. *)
Lemma mileage_k_close_witness :
  mileage (sample_car "a" None 0 None (Some 123456) None) = Some 123456 /\
  mileage_k (sample_car "a" None 0 None (Some 123456) None) = Some 123 /\
  Z.abs (1000 * 123 - 123456) <= 500.
Proof.
  split; [reflexivity|]. split; [reflexivity|].
  apply (mileage_k_close (sample_car "a" None 0 None (Some 123456) None)); reflexivity.
Defined.

Lemma warnings_view_accounts_witness :
  let c := display_car (mkDisplay None None None None None None (Some ["a"; "b"; "c"; "d"; "e"]) None None None None) in
  warnings_view c = Some (["a"; "b"; "c"], Some 2%nat) /\
  exists ws, car_warnings (display c) = Some ws /\ ["a"; "b"; "c"] `prefix_of` ws /\
             (List.length ["a"; "b"; "c"] <= 3)%nat /\ (List.length ["a"; "b"; "c"] + default 0 (Some 2%nat))%nat = List.length ws.
Proof.
  cbv zeta. split; [reflexivity|]. apply warnings_view_accounts. reflexivity.
Defined.
