(* ===== verification/Animation.v ===== *)
(** * The animated price counter ([ScrollytellingCalculator.tsx] lines 7-44)

    [AnimatedPrice] shows a number that counts from its previous target
    to a new [value] in 600 ms with an ease-out cubic, one step per
    [requestAnimationFrame].  Its state is the [display] hook, the ref
    [prevRef] (the target of the last animation that {e finished}) and
    the frame callback that is pending, if any.  Two things happen to it:
    a render with a [value] different from the last one re-runs the
    effect (the cleanup cancels the pending frame and a new animation
    starts from [prevRef] at [performance.now()]), and a frame fires with
    its timestamp.  Times are rationals (milliseconds); [Math.round] is
    [Breakdown.js_round].

    The theorems: an animation finishes exactly at the first frame stamped
    600 ms or more after its start, showing its target; with frames at a
    fixed positive interval that frame comes; while it runs, the number
    shown stays between the two targets; and a new value arriving before
    the animation has finished restarts the count from the older target,
    so the number shown jumps back. *)

From S2P Require Import Prelude Breakdown.
From Stdlib Require Import QArith_base QArith.Qminmax Qround Qpower Qfield Lqa.

Local Open Scope Q_scope.

(** One animation: [from], [to] and [start] of the effect (lines 13-16). *)
Record Anim := mkAnim { anim_from : Z; anim_to : Z; anim_start : Q }.

(** The state: the [value] of the last render ([None] before the first),
    [display], [prevRef.current], and the animation whose frame is pending. *)
Record Counter := mkCounter {
  last_value : option Z;
  display : Z;
  prevRef : Z;
  running : option Anim
}.

(** [useState(0)] and [useRef(0)] (lines 8-9). *)
Definition initial_counter : Counter := mkCounter None 0 0 None.

Definition duration : Q := 600.

(** [Math.min(elapsed / duration, 1)] (lines 19-20). *)
Definition progress (a : Anim) (now : Q) : Q := Qmin ((now - anim_start a) / duration) 1.

(** [1 - Math.pow(1 - progress, 3)] (line 22). *)
Definition eased (p : Q) : Q := 1 - Qpower (1 - p) 3.

(** [Math.round(from + (to - from) * eased)] (line 23). *)
Definition shown_at (a : Anim) (now : Q) : Z :=
  js_round (inject_Z (anim_from a) + inject_Z (anim_to a - anim_from a) * eased (progress a now)).

(** [tick(now)] (lines 18-30): set the display, then either ask for the
    next frame or record the target in [prevRef]. *)
Definition tick (a : Anim) (now : Q) (c : Counter) : Counter :=
  if Qle_bool 1 (progress a now)
  then mkCounter (last_value c) (shown_at a now) (anim_to a) None
  else mkCounter (last_value c) (shown_at a now) (prevRef c) (Some a).

(** A frame fires with timestamp [now]: the pending [tick], if any. *)
Definition frame (now : Q) (c : Counter) : Counter :=
  match running c with Some a => tick a now c | None => c end.

(** A render with [value] at time [now] (lines 12-34): when [value]
    changed, the cleanup cancels the pending frame and the effect starts
    a new animation from [prevRef.current]. *)
Definition render (value : Z) (now : Q) (c : Counter) : Counter :=
  match last_value c with
  | Some v => if Z.eqb v value then c else
                mkCounter (Some value) (display c) (prevRef c) (Some (mkAnim (prevRef c) value now))
  | None => mkCounter (Some value) (display c) (prevRef c) (Some (mkAnim (prevRef c) value now))
  end.

Inductive CounterEvent := ce_render (value : Z) (now : Q) | ce_frame (now : Q).

Definition counter_step (e : CounterEvent) (c : Counter) : Counter :=
  match e with ce_render v now => render v now c | ce_frame now => frame now c end.

Definition run_counter (es : list CounterEvent) (c : Counter) : Counter :=
  fold_left (fun c e => counter_step e c) es c.

(** Frames only. *)
Definition run_frames (ts : list Q) (c : Counter) : Counter :=
  fold_left (fun c t => frame t c) ts c.

(** ** Lemmas *)

Lemma inject_Z_sub a b : inject_Z (a - b) == inject_Z a - inject_Z b.
Proof. unfold Qminus. rewrite <- inject_Z_opp, <- inject_Z_plus. reflexivity. Qed.

Lemma js_round_int q z : q == inject_Z z -> js_round q = z.
Proof.
  intros Hq. unfold js_round. rewrite (Qfloor_comp _ (inject_Z z + (1 # 2))) by (rewrite Hq; reflexivity).
  pose proof (Qfloor_le (inject_Z z + (1 # 2))) as H1.
  pose proof (Qlt_floor (inject_Z z + (1 # 2))) as H2.
  rewrite inject_Z_plus in H2. change (inject_Z 1) with 1 in H2.
  assert (A : inject_Z (Qfloor (inject_Z z + (1 # 2))) < inject_Z (z + 1))
    by (rewrite inject_Z_plus; change (inject_Z 1) with 1; lra).
  assert (B : inject_Z z < inject_Z (Qfloor (inject_Z z + (1 # 2)) + 1)) by (rewrite inject_Z_plus; change (inject_Z 1) with 1; lra).
  rewrite <- Zlt_Qlt in A, B. lia.
Qed.

Lemma js_round_mono x y : x <= y -> (js_round x <= js_round y)%Z.
Proof. intros H. unfold js_round. apply Qfloor_resp_le. lra. Qed.

Lemma progress_done a now : Qle_bool 1 (progress a now) = true <-> anim_start a + 600 <= now.
Proof.
  rewrite Qle_bool_iff. unfold progress, duration.
  assert (D : (now - anim_start a) / 600 == (now - anim_start a) * (1 # 600)) by field.
  destruct (Qlt_le_dec ((now - anim_start a) / 600) 1) as [H|H].
  - rewrite Q.min_l by lra. split; intros H'; lra.
  - rewrite Q.min_r by exact H. split; intros _; lra.
Qed.

Lemma progress_range a now : anim_start a <= now -> 0 <= progress a now <= 1.
Proof.
  intros H. unfold progress, duration. split; [|apply Q.le_min_r].
  assert (D : (now - anim_start a) / 600 == (now - anim_start a) * (1 # 600)) by field.
  apply Q.min_glb; [lra|discriminate].
Qed.

Lemma cube q : Qpower q 3 == q * q * q.
Proof. simpl. ring. Qed.

Lemma eased_range p : 0 <= p <= 1 -> 0 <= eased p <= 1.
Proof.
  intros H. unfold eased. rewrite cube. set (q := 1 - p).
  assert (0 <= q <= 1) by (unfold q; lra). assert (0 <= q * q <= 1) by nra. split; nra.
Qed.

Lemma eased_done a now : Qle_bool 1 (progress a now) = true -> eased (progress a now) == 1.
Proof.
  intros H. apply Qle_bool_iff in H. assert (E : progress a now == 1)
    by (pose proof (Q.le_min_r ((now - anim_start a) / duration) 1); unfold progress in *; lra).
  unfold eased. rewrite E. reflexivity.
Qed.

Lemma shown_done a now : Qle_bool 1 (progress a now) = true -> shown_at a now = anim_to a.
Proof.
  intros H. unfold shown_at. apply js_round_int. rewrite (eased_done a now H).
  rewrite inject_Z_sub. ring.
Qed.

Lemma run_frames_idle ts c : running c = None -> run_frames ts c = c.
Proof.
  induction ts as [|t ts IH]; intros H; [reflexivity|].
  change (run_frames ts (frame t c) = c). replace (frame t c) with c by (unfold frame; now rewrite H). now apply IH.
Qed.

(** ** The theorems *)

(** An animation ends at the first frame stamped at least 600 ms
    after its start and at no other: the frames [ts] end it exactly when
    one of them is that late, and then the number shown is the target and
    [prevRef] holds it. *)
Theorem anim_finishes a c ts :
  running c = Some a ->
  (running (run_frames ts c) = None <-> Exists (fun t => anim_start a + 600 <= t) ts) /\
  (running (run_frames ts c) = None -> display (run_frames ts c) = anim_to a /\ prevRef (run_frames ts c) = anim_to a).
Proof.
  revert c. induction ts as [|t ts IH]; intros c Hc; cbn [run_frames fold_left].
  - rewrite Hc. split; [split; [discriminate|intros H; inversion H]|discriminate].
  - assert (E : frame t c = tick a t c) by (unfold frame; rewrite Hc; reflexivity).
    change (fold_left _ ts (frame t c)) with (run_frames ts (frame t c)). rewrite E.
    unfold tick. destruct (Qle_bool 1 (progress a t)) eqn:Hp.
    + rewrite run_frames_idle by reflexivity. cbn [running display prevRef].
      split; [split; [intros _; left; apply progress_done, Hp|reflexivity]|rewrite (shown_done a t Hp); auto].
    + destruct (IH (mkCounter (last_value c) (shown_at a t) (prevRef c) (Some a)) eq_refl) as [H1 H2].
      split; [|exact H2]. rewrite H1. split.
      * intros H. right. exact H.
      * intros H. inversion H as [? ? Ht|]; subst; [|assumption].
        apply progress_done in Ht. congruence.
Qed.

(** The frames of a display refreshing every [delta] ms. *)
Definition frames_every (start delta : Q) (n : nat) : list Q :=
  map (fun k => start + inject_Z (Z.of_nat k) * delta) (seq 1 n).

(** (C16) The animation terminates: with a frame every [delta > 0] ms it
    has ended, showing its target, after [ceil(600 / delta)] frames. *)
Theorem anim_terminates a c delta :
  running c = Some a -> 0 < delta ->
  let c' := run_frames (frames_every (anim_start a) delta (Z.to_nat (Qceiling (600 / delta)))) c in
  running c' = None /\ display c' = anim_to a.
Proof.
  intros Hc Hd c'. set (n := Z.to_nat (Qceiling (600 / delta))) in c'.
  assert (Hq : 600 / delta <= inject_Z (Qceiling (600 / delta))) by apply Qle_ceiling.
  assert (Hpos : 0 < 600 / delta) by (apply Qlt_shift_div_l; [exact Hd|lra]).
  assert (Hn : inject_Z (Z.of_nat n) == inject_Z (Qceiling (600 / delta))).
  { unfold n. rewrite Z2Nat.id; [reflexivity|]. rewrite Zle_Qle. change (inject_Z 0) with 0. lra. }
  assert (Hlast : 600 <= inject_Z (Z.of_nat n) * delta).
  { rewrite Hn. assert (E : (600 / delta) * delta == 600) by (field; intros E; rewrite E in Hd; discriminate).
    apply Qle_trans with ((600 / delta) * delta); [rewrite E; apply Qle_refl|apply Qmult_le_compat_r; lra]. }
  assert (Hn1 : (1 <= n)%nat).
  { destruct n as [|m] eqn:E; [|lia]. change (inject_Z (Z.of_nat 0)) with 0 in Hn. lra. }
  destruct (anim_finishes a c (frames_every (anim_start a) delta n) Hc) as [H1 H2].
  assert (Hr : running c' = None).
  { apply H1. apply List.Exists_exists. exists (anim_start a + inject_Z (Z.of_nat n) * delta).
    split; [|lra]. apply in_map_iff. exists n. split; [reflexivity|apply in_seq; lia]. }
  split; [exact Hr|exact (proj1 (H2 Hr))].
Qed.

(** (C19) While an animation runs, the number shown stays between where it
    started and its target (for frames stamped after its start). *)
Theorem shown_between a now :
  anim_start a <= now ->
  (Z.min (anim_from a) (anim_to a) <= shown_at a now <= Z.max (anim_from a) (anim_to a))%Z.
Proof.
  intros Hn. pose proof (eased_range _ (progress_range a now Hn)) as He. unfold shown_at.
  set (e := eased (progress a now)) in *. set (f := anim_from a). set (t := anim_to a).
  set (x := inject_Z f + inject_Z (t - f) * e).
  assert (Hx : x == inject_Z f + (inject_Z t - inject_Z f) * e) by (unfold x; rewrite inject_Z_sub; reflexivity).
  assert (Rf : js_round (inject_Z f) = f) by (apply js_round_int; reflexivity).
  assert (Rt : js_round (inject_Z t) = t) by (apply js_round_int; reflexivity).
  destruct (Z.le_ge_cases f t) as [Hft|Hft];
    [rewrite Z.min_l, Z.max_r by exact Hft|rewrite Z.min_r, Z.max_l by exact Hft];
    rewrite Zle_Qle in Hft; split.
  - apply Z.le_trans with (js_round (inject_Z f)); [lia|apply js_round_mono; nra].
  - apply Z.le_trans with (js_round (inject_Z t)); [apply js_round_mono; nra|lia].
  - apply Z.le_trans with (js_round (inject_Z t)); [lia|apply js_round_mono; nra].
  - apply Z.le_trans with (js_round (inject_Z f)); [apply js_round_mono; nra|lia].
Qed.

(** (C31) [prevRef] only moves when an animation finishes: a value that
    changes before the running count has finished starts the next count
    from the older target, so the first frame of the new animation shows
    [prevRef], whatever number was on the screen. *)
Theorem new_value_restarts_from_prev v now c :
  last_value c <> Some v -> display (frame now (render v now c)) = prevRef c.
Proof.
  intros Hv. assert (E : render v now c = mkCounter (Some v) (display c) (prevRef c) (Some (mkAnim (prevRef c) v now))).
  { unfold render. destruct (last_value c) as [w|]; [|reflexivity].
    destruct (Z.eqb_spec w v); [congruence|reflexivity]. }
  rewrite E. unfold frame, tick. cbn [running].
  assert (P : progress (mkAnim (prevRef c) v now) now == 0).
  { unfold progress, duration. cbn [anim_start]. assert (D : (now - now) / 600 == 0) by field.
    rewrite Q.min_l; [exact D|lra]. }
  assert (S : shown_at (mkAnim (prevRef c) v now) now = prevRef c).
  { unfold shown_at. apply js_round_int. unfold eased. rewrite P. cbn. ring. }
  destruct (Qle_bool 1 _) eqn:B; cbn; [|exact S]. apply Qle_bool_iff in B. rewrite P in B. lra.
Qed.

(** ** Concrete runs *)

(** The count jumps back: the section total grows from 1000 to 2000
    Kč while the first count (0 to 1000) is half-way, showing 875; the
    second count starts again from 0, and the next frame shows 156. *)
Example counter_jumps_back :
  let c1 := run_counter [ce_render 1000 0; ce_frame 300] initial_counter in
  let c2 := run_counter [ce_render 2000 300; ce_frame 316] c1 in
  display c1 = 875%Z /\ display c2 = 156%Z /\ prevRef c2 = 0%Z.
Proof. vm_compute. repeat split; reflexivity. Qed.

(** A frame stamped before the start of its animation (a
    [requestAnimationFrame] timestamp may precede the [performance.now()]
    read by the effect) has a negative progress, and the cubic then
    overshoots below the starting value. *)
Example frame_before_start_overshoots :
  display (run_counter [ce_render 1000 100; ce_frame 84] initial_counter) = (-82)%Z.
Proof. vm_compute. reflexivity. Qed.

(** Witnesses. *)
Lemma anim_finishes_witness :
  running (render 1000 0 initial_counter) = Some (mkAnim 0 1000 0) /\
  (running (run_frames [300; 700] (render 1000 0 initial_counter)) = None
     <-> Exists (fun t => anim_start (mkAnim 0 1000 0) + 600 <= t) [300; 700]) /\
  (running (run_frames [300; 700] (render 1000 0 initial_counter)) = None ->
     display (run_frames [300; 700] (render 1000 0 initial_counter)) = anim_to (mkAnim 0 1000 0) /\
     prevRef (run_frames [300; 700] (render 1000 0 initial_counter)) = anim_to (mkAnim 0 1000 0)).
Proof. split; [reflexivity|apply anim_finishes; reflexivity]. Defined.

Lemma anim_terminates_witness :
  (running (render 1000 0 initial_counter) = Some (mkAnim 0 1000 0) /\ 0 < 16) /\
  running (run_frames (frames_every 0 16 (Z.to_nat (Qceiling (600 / 16)))) (render 1000 0 initial_counter)) = None /\
  display (run_frames (frames_every 0 16 (Z.to_nat (Qceiling (600 / 16)))) (render 1000 0 initial_counter)) = 1000%Z.
Proof.
  split; [split; reflexivity|]. apply (anim_terminates (mkAnim 0 1000 0)); reflexivity.
Defined.

Lemma shown_between_witness :
  0 <= 300 /\ (Z.min 0 1000 <= shown_at (mkAnim 0 1000 0) 300 <= Z.max 0 1000)%Z.
Proof. split; [discriminate|apply (shown_between (mkAnim 0 1000 0) 300); discriminate]. Defined.

Lemma new_value_restarts_from_prev_witness :
  let c := run_counter [ce_render 1000 0; ce_frame 300] initial_counter in
  last_value c <> Some 2000%Z /\ display (frame 300 (render 2000 300 c)) = prevRef c.
Proof.
  cbv zeta. assert (H : last_value (run_counter [ce_render 1000 0; ce_frame 300] initial_counter) <> Some 2000%Z)
    by (vm_compute; discriminate).
  split; [exact H|apply new_value_restarts_from_prev, H].
Defined.
