(* ===== verification/Scrolly.v ===== *)
(** * The calculator page ([ScrollytellingCalculator.tsx] lines 187-349)

    The page puts the two state machines of the cost breakdown together:
    the observer callback reveals sections ([Breakdown.observe]), and the
    sticky header renders [<AnimatedPrice value={currentTotal} .../>]
    (line 235), whose effect restarts the count whenever the running
    total changes ([Animation.render]); animation frames advance the
    count ([Animation.frame]).  A [Page] is the pair of states; an event
    is an observer callback at a time stamp or an animation frame.

    What the page shows ([page_view]) is the header (its warning colour,
    the number on the counter and the pulse), each section with its
    amount, sign, colour, note and route picture, the warnings block, and
    the summary with [total_czk] under "Celkem".

    The theorems: the counter always counts towards the running total of
    the revealed sections, and shows it when idle; once a frame comes
    600 ms after the count started, the header shows that total; and on
    the demo breakdown the settled header and the summary's "Celkem"
    show two different totals. *)

From S2P Require Import Prelude Listing Breakdown Animation.
From stdpp Require Import gmap.
From Stdlib Require Import QArith_base.

Local Open Scope Z_scope.

(** ** The page *)

Record Page := mkPage { reveal : RevealState; counter : Counter }.

(** The first render: no section is revealed, and the counter's effect
    runs with [currentTotal] of nothing. *)
Definition page_mount (b : CostBreakdown) (now : Q) : Page :=
  mkPage initial_reveal (render (currentTotal (buildSections b) ∅) now initial_counter).

Inductive PageEvent := pe_observe (entries : list ObsEntry) (now : Q) | pe_frame (now : Q).

(** An observer callback re-renders the page with the new [currentTotal]
    (a value that did not change leaves the counter alone); a frame runs
    the pending [tick]. *)
Definition page_step (b : CostBreakdown) (e : PageEvent) (p : Page) : Page :=
  match e with
  | pe_observe entries now =>
      let st := observe entries (reveal p) in
      mkPage st (render (currentTotal (buildSections b) (visibleSections st)) now (counter p))
  | pe_frame now => mkPage (reveal p) (frame now (counter p))
  end.

Definition run_page (b : CostBreakdown) (es : list PageEvent) (p : Page) : Page :=
  fold_left (fun p e => page_step b e p) es p.

(** ** What the page shows *)

(** A section (lines 250-292): its id, amount, [+] when [amount >= 0],
    green when [amount < 0], whether it is revealed, its note when it is
    revealed, and the route picture of the logistics section. *)
Record SectionRow := mkSectionRow {
  sr_id : string;
  sr_amount : Z;
  sr_plus : bool;
  sr_green : bool;
  sr_visible : bool;
  sr_note : option SectionNote;
  sr_route : bool
}.

Definition section_row (visible : gset string) (s : CalcSection) : SectionRow :=
  let v := bool_decide (section_id s ∈ visible) in
  mkSectionRow (section_id s) (amount s) (0 <=? amount s) (amount s <? 0) v
               (if v then Some (note s) else None) (String.eqb (section_id s) "logistics").

(** The page (lines 227-349): the header's warning colour, number and
    pulse ([pulseKey > 1]); the sections; the warnings block, when there
    are warnings, with whether it is shown ([visibleSections.has('warnings')
    || showWarningHeader]); the summary rows, [total_czk] and the
    warning texts of the summary. *)
Record PageView := mkPageView {
  pv_warning : bool;
  pv_value : Z;
  pv_pulse : bool;
  pv_sections : list SectionRow;
  pv_warnings_block : option bool;
  pv_summary : list (string * Z);
  pv_total : Z;
  pv_summary_warnings : list string
}.

Definition page_view (b : CostBreakdown) (p : Page) : PageView :=
  let V := visibleSections (reveal p) in
  let secs := buildSections b in
  mkPageView (showWarningHeader b V) (display (counter p)) (1 <? pulseKey (reveal p))
    (map (section_row V) secs)
    (if hasWarnings b then Some (bool_decide ("warnings"%string ∈ V) || showWarningHeader b V)%bool else None)
    (map (fun s => (section_id s, amount s)) secs) (total_czk b)
    (if hasWarnings b then map warning_text (warnings b) else []).

(** ** The counter and the running total *)

(** The counter counts towards the last value it was rendered with, and
    when no count runs it shows that value (and [0] before any). *)
Definition counter_wf (c : Counter) : Prop :=
  match running c with
  | Some a => last_value c = Some (anim_to a)
  | None => match last_value c with
            | Some v => display c = v /\ prevRef c = v
            | None => display c = 0 /\ prevRef c = 0
            end
  end.

Definition page_wf (b : CostBreakdown) (p : Page) : Prop :=
  counter_wf (counter p) /\
  last_value (counter p) = Some (currentTotal (buildSections b) (visibleSections (reveal p))).

Lemma render_wf v now c : counter_wf c -> counter_wf (render v now c) /\ last_value (render v now c) = Some v.
Proof.
  unfold render. intros Hc. destruct (last_value c) as [w|] eqn:E.
  - destruct (Z.eqb_spec w v) as [->|]; [split; [exact Hc|exact E]|]. split; reflexivity.
  - split; reflexivity.
Qed.

Lemma frame_wf now c : counter_wf c -> counter_wf (frame now c) /\ last_value (frame now c) = last_value c.
Proof.
  unfold frame, counter_wf. destruct (running c) as [a|] eqn:R; [|rewrite R; auto].
  intros Hl. unfold tick. destruct (Qle_bool 1 (progress a now)) eqn:P; cbn [running last_value display prevRef]; [|auto].
  rewrite Hl. rewrite (shown_done a now P). auto.
Qed.

Lemma page_step_wf b e p : page_wf b p -> page_wf b (page_step b e p).
Proof.
  intros [Hc Hl]. destruct e as [entries now|now]; unfold page_step, page_wf; cbn [counter reveal].
  - exact (render_wf _ _ _ Hc).
  - destruct (frame_wf now _ Hc) as [H1 H2]. split; [exact H1|]. rewrite H2. exact Hl.
Qed.

Lemma run_page_wf b es p : page_wf b p -> page_wf b (run_page b es p).
Proof.
  revert p. induction es as [|e es IH]; intros p H; [exact H|]. apply IH, page_step_wf, H.
Qed.

Lemma page_mount_wf b now : page_wf b (page_mount b now).
Proof. apply render_wf. split; reflexivity. Qed.

(** Frames only. *)
Definition page_frames (ts : list Q) : list PageEvent := map pe_frame ts.

Lemma run_page_frames b ts p :
  run_page b (page_frames ts) p = mkPage (reveal p) (run_frames ts (counter p)).
Proof.
  revert p. induction ts as [|t ts IH]; intros [r c]; [reflexivity|]. cbn [page_frames map run_page fold_left page_step counter reveal]. apply IH.
Qed.

(** A well-formed counter shows its last value once a frame comes 600 ms
    after the running count started. *)
Lemma counter_settles c v ts :
  counter_wf c -> last_value c = Some v ->
  (forall a, running c = Some a -> Exists (fun t => anim_start a + 600 <= t)%Q ts) ->
  display (run_frames ts c) = v.
Proof.
  unfold counter_wf. intros Hc Hl Hts. destruct (running c) as [a|] eqn:R.
  - rewrite Hl in Hc. injection Hc as ->.
    destruct (anim_finishes a c ts R) as [H1 H2]. exact (proj1 (H2 (proj2 H1 (Hts a eq_refl)))).
  - rewrite (run_frames_idle ts c R). rewrite Hl in Hc. exact (proj1 Hc).
Qed.

(** ** The theorems *)

(** (C38) From the first render, through any sequence of observer callbacks
    and animation frames, the header's counter counts towards the running
    total of the revealed sections, and shows that total whenever no
    count is running. *)
Theorem header_counts_to_total b es now :
  let p := run_page b es (page_mount b now) in
  counter_wf (counter p) /\
  last_value (counter p) = Some (currentTotal (buildSections b) (visibleSections (reveal p))).
Proof. apply run_page_wf, page_mount_wf. Qed.

(** (C29) Once a frame comes 600 ms after the running count started, the
    header shows the running total of the revealed sections. *)
Theorem header_settles b es now ts :
  let p := run_page b es (page_mount b now) in
  (forall a, running (counter p) = Some a -> Exists (fun t => anim_start a + 600 <= t)%Q ts) ->
  pv_value (page_view b (run_page b (page_frames ts) p)) = currentTotal (buildSections b) (visibleSections (reveal p)).
Proof.
  intros p Hts. rewrite run_page_frames. cbn [page_view pv_value counter].
  destruct (run_page_wf b es _ (page_mount_wf b now)) as [Hc Hl].
  exact (counter_settles _ _ ts Hc Hl Hts).
Qed.

(** All the observed elements of the demo breakdown scroll into view at
    100 ms, and a frame comes at 800 ms. *)
Definition demo_run : Page :=
  run_page demo_breakdown (pe_observe (entries_for (observed_ids demo_breakdown)) 100 :: page_frames [800%Q])
           (page_mount demo_breakdown 0).

(** The header settles on 730 600 Kč, the sum of the sections, while the
    summary's "Celkem" shows [total_czk], 745 600 Kč, and the header is
    not orange although the breakdown has a warning. *)
Example header_disagrees_with_summary :
  pv_value (page_view demo_breakdown demo_run) = 730600 /\
  pv_total (page_view demo_breakdown demo_run) = 745600 /\
  pv_warning (page_view demo_breakdown demo_run) = false.
Proof. vm_compute. repeat split. Qed.

Lemma header_settles_witness :
  (forall a, running (counter (run_page demo_breakdown [pe_observe (entries_for (observed_ids demo_breakdown)) 100]
                                      (page_mount demo_breakdown 0))) = Some a ->
             Exists (fun t => anim_start a + 600 <= t)%Q [800%Q]) /\
  pv_value (page_view demo_breakdown
              (run_page demo_breakdown (page_frames [800%Q])
                 (run_page demo_breakdown [pe_observe (entries_for (observed_ids demo_breakdown)) 100]
                           (page_mount demo_breakdown 0))))
  = currentTotal (buildSections demo_breakdown)
      (visibleSections (reveal (run_page demo_breakdown [pe_observe (entries_for (observed_ids demo_breakdown)) 100]
                                         (page_mount demo_breakdown 0)))).
Proof.
  assert (H : forall a, running (counter (run_page demo_breakdown [pe_observe (entries_for (observed_ids demo_breakdown)) 100]
                                                (page_mount demo_breakdown 0))) = Some a ->
                        Exists (fun t => anim_start a + 600 <= t)%Q [800%Q]).
  { vm_compute. intros a [= <-]. apply Exists_cons_hd. vm_compute. discriminate. }
  split; [exact H|]. exact (header_settles demo_breakdown _ 0 [800%Q] H).
Defined.
