(* ===== verification/Links.v ===== *)
(** * The bazaar link generators ([utils/linkGenerators.ts])

    [BazaarLinks] is a list of eight generators, each building the search
    URL of one used-car site from a catalog car's [make] and [model] and
    the optional filters of the search form ([SearchParams]).  The helper
    [norm] turns a name into a path segment (NFD, combining marks
    stripped, lower case, spaces to dashes, two first-occurrence
    replacements); three generators put the names through
    [encodeURIComponent].

    Strings are lists of code points ([ustring]).  [normalize("NFD")] and
    [toLowerCase] are Unicode tables of the JavaScript engine, not code of
    the repository: they enter as the class [UnicodeTables], whose laws
    fix them on ASCII; [latin_tables] is an instance with the Czech and
    German letters of the catalog.  [encodeURIComponent] is written out:
    UTF-8 and percent-encoding, failing (the [URIError]) on a surrogate.

    The theorems: [decodeURIComponent] gives back what was encoded, the
    encoded text never contains a URL delimiter (in general, and for the
    search text [name_query] of Bazoš.cz, Sbazar.cz and Auto ESA), [norm] leaves no space,
    the CZK-to-EUR rounding of Mobile.de and AutoScout24 is within half a
    euro, and Mobile.de receives two conflicting [p=] parameters when both
    price bounds are set. *)

From S2P Require Import Prelude CatalogData.

Local Open Scope Z_scope.

Definition is_upper (c : Z) : bool := (65 <=? c) && (c <=? 90).

(** The tables of [normalize("NFD")] and [toLowerCase], per code point. *)
Class UnicodeTables := {
  nfd : Z -> list Z;
  to_lower_cp : Z -> list Z;
  nfd_ascii : forall c, 0 <= c < 128 -> nfd c = [c];
  lower_ascii : forall c, 0 <= c < 128 -> to_lower_cp c = [if is_upper c then c + 32 else c]
}.

(** [/[\u0300-\u036f]/]: the combining diacritical marks. *)
Definition is_combining (c : Z) : bool := (768 <=? c) && (c <=? 879).

(** [.replace(/ /g, '-')] for one character. *)
Definition replace_all_char (a b : Z) (s : ustring) : ustring :=
  map (fun c => if c =? a then b else c) s.

(** [s.replace(pat, rep)] with a string pattern: the first occurrence. *)
Fixpoint replace_first (pat rep s : ustring) : ustring :=
  if uprefix pat s then rep ++ drop (List.length pat) s
  else match s with
       | [] => []
       | c :: r => c :: replace_first pat rep r
       end.

Section Norm.
Context `{UnicodeTables}.

(** [norm] (lines 18-26). *)
Definition norm (str : ustring) : ustring :=
  replace_first (u "id.") (u "id-")
    (replace_first (u "enyaq-iv") (u "enyaq")
       (replace_all_char 32 45
          (flat_map to_lower_cp (List.filter (fun c => negb (is_combining c)) (flat_map nfd str))))).

End Norm.

(** ** [encodeURIComponent] *)

(** The characters it leaves alone: [A-Z a-z 0-9 - _ . ! ~ * ' ( )]. *)
Definition unreserved (c : Z) : bool :=
  ((65 <=? c) && (c <=? 90)) || ((97 <=? c) && (c <=? 122)) || ((48 <=? c) && (c <=? 57))
  || existsb (Z.eqb c) [45; 95; 46; 33; 126; 42; 39; 40; 41].

Definition is_surrogate (c : Z) : bool := (55296 <=? c) && (c <=? 57343).

(** UTF-8 of a code point. *)
Definition utf8 (c : Z) : list Z :=
  if c <? 128 then [c]
  else if c <? 2048 then [192 + c / 64; 128 + c mod 64]
  else if c <? 65536 then [224 + c / 4096; 128 + (c / 64) mod 64; 128 + c mod 64]
  else [240 + c / 262144; 128 + (c / 4096) mod 64; 128 + (c / 64) mod 64; 128 + c mod 64].

Definition hex_digit (d : Z) : Z := if d <? 10 then 48 + d else 55 + d.

Definition percent (b : Z) : ustring := [37; hex_digit (b / 16); hex_digit (b mod 16)].

Definition encode_cp (c : Z) : option ustring :=
  if unreserved c then Some [c]
  else if is_surrogate c then None
  else Some (flat_map percent (utf8 c)).

Fixpoint encodeURIComponent (s : ustring) : option ustring :=
  match s with
  | [] => Some []
  | c :: r =>
      match encode_cp c, encodeURIComponent r with
      | Some e, Some er => Some (e ++ er)
      | _, _ => None
      end
  end.

(** ** The generators *)

(** [SearchParams] (lines 3-8), the filters of the catalog search form. *)
Module Search.
Record SearchParams := mkSearchParams {
  priceFrom : option Z;
  priceTo : option Z;
  yearFrom : option Z;
  mileageTo : option Z
}.
End Search.

(** [params?.field]. *)
Definition param (f : Search.SearchParams -> option Z) (params : option Search.SearchParams) : option Z :=
  match params with Some p => f p | None => None end.

(** [if (params?.field) parts.push(...)]: a filter the user filled in
    (a number input gives [undefined] when empty, and [0] is falsy). *)
Definition push_if (x : option Z) (mk : Z -> ustring) : list ustring :=
  match x with Some v => if v =? 0 then [] else [mk v] | None => [] end.

Fixpoint uint_digits (d : Decimal.uint) : ustring :=
  match d with
  | Decimal.Nil => []
  | Decimal.D0 d => 48 :: uint_digits d
  | Decimal.D1 d => 49 :: uint_digits d
  | Decimal.D2 d => 50 :: uint_digits d
  | Decimal.D3 d => 51 :: uint_digits d
  | Decimal.D4 d => 52 :: uint_digits d
  | Decimal.D5 d => 53 :: uint_digits d
  | Decimal.D6 d => 54 :: uint_digits d
  | Decimal.D7 d => 55 :: uint_digits d
  | Decimal.D8 d => 56 :: uint_digits d
  | Decimal.D9 d => 57 :: uint_digits d
  end.

(** [`${n}`] for an integer. *)
Definition show_Z (z : Z) : ustring :=
  match z with
  | Z0 => [48]
  | Zpos p => uint_digits (Pos.to_uint p)
  | Zneg p => 45 :: uint_digits (Pos.to_uint p)
  end.

(** [Math.round(x / 25)] for an integer [x]: [floor(x / 25 + 1 / 2)]. *)
Definition round_div25 (x : Z) : Z := (2 * x + 25) / 50.

(** [parts.join(sep)]. *)
Fixpoint join (sep : ustring) (parts : list ustring) : ustring :=
  match parts with
  | [] => []
  | [x] => x
  | x :: r => x ++ sep ++ join sep r
  end.

(** [parts.length > 0 ? `?${parts.join('&')}` : '']. *)
Definition query_string (parts : list ustring) : ustring :=
  match parts with [] => [] | _ => u "?" ++ join (u "&") parts end.

Section Generators.
Context `{UnicodeTables}.

(** The [parts] of the Mobile.de generator (lines 39-53), for the encoded
    make [mk] and model [md]. *)
Definition mobile_parts (mk md : ustring) (params : option Search.SearchParams) : list ustring :=
  [u "dam=0"; u "ft=ELECTRICITY"; u "isSearchRequest=true"; u "ms=;;;" ++ mk ++ u ";" ++ md;
   u "s=Car"; u "sb=p"; u "vc=Car"]
  ++ push_if (param Search.yearFrom params) (fun y => u "fr=" ++ show_Z y)
  ++ push_if (param Search.priceFrom params) (fun p => u "p=" ++ show_Z (round_div25 p) ++ u ":")
  ++ push_if (param Search.priceTo params) (fun p => u "p=:" ++ show_Z (round_div25 p))
  ++ push_if (param Search.mileageTo params) (fun m => u "ml=:" ++ show_Z m).

(** Mobile.de (lines 29-57); [None] is the [URIError] of [encodeURIComponent]. *)
Definition mobile_de (car : CarStaticData) (params : option Search.SearchParams) : option ustring :=
  match encodeURIComponent (norm (make car)) with
  | Some mk =>
      let modelStr := norm (model car) in
      let modelStr := if bool_decide (modelStr = u "model-3") then u "model--3" else modelStr in
      match encodeURIComponent modelStr with
      | Some md => Some (u "https://suchen.mobile.de/fahrzeuge/search.html?" ++ join (u "&") (mobile_parts mk md params))
      | None => None
      end
  | None => None
  end.

(** Sauto.cz (lines 58-73). *)
Definition sauto_cz (car : CarStaticData) (params : option Search.SearchParams) : option ustring :=
  let parts := [u "palivo=elektrina"]
    ++ push_if (param Search.priceFrom params) (fun p => u "cena-od=" ++ show_Z p)
    ++ push_if (param Search.priceTo params) (fun p => u "cena-do=" ++ show_Z p)
    ++ push_if (param Search.yearFrom params) (fun y => u "rok-vyroby-od=" ++ show_Z y)
    ++ push_if (param Search.mileageTo params) (fun m => u "najeto-do=" ++ show_Z m) in
  Some (u "https://www.sauto.cz/inzerce/osobni/" ++ norm (make car) ++ u "/" ++ norm (model car)
        ++ u "?" ++ join (u "&") parts).

(** Carvago (lines 74-90). *)
Definition carvago_com (car : CarStaticData) (params : option Search.SearchParams) : option ustring :=
  let parts := push_if (param Search.yearFrom params) (fun y => u "registration-date-from=" ++ show_Z y)
    ++ push_if (param Search.priceFrom params) (fun p => u "price-from=" ++ show_Z p)
    ++ push_if (param Search.priceTo params) (fun p => u "price-to=" ++ show_Z p)
    ++ push_if (param Search.mileageTo params) (fun m => u "mileage-to=" ++ show_Z m) in
  Some (u "https://carvago.com/cs/auta/" ++ norm (make car) ++ u "/" ++ norm (model car)
        ++ u "/elektrina" ++ query_string parts).

(** Autoscout24 (lines 91-106). *)
Definition autoscout24 (car : CarStaticData) (params : option Search.SearchParams) : option ustring :=
  let parts := [u "fuel=E"]
    ++ push_if (param Search.yearFrom params) (fun y => u "fregfrom=" ++ show_Z y)
    ++ push_if (param Search.priceFrom params) (fun p => u "pricefrom=" ++ show_Z (round_div25 p))
    ++ push_if (param Search.priceTo params) (fun p => u "priceto=" ++ show_Z (round_div25 p))
    ++ push_if (param Search.mileageTo params) (fun m => u "kmto=" ++ show_Z m) in
  Some (u "https://www.autoscout24.cz/lst/" ++ norm (make car) ++ u "/" ++ norm (model car)
        ++ u "?" ++ join (u "&") parts).

(** [encodeURIComponent(`${car.make} ${car.model}`)]. *)
Definition name_query (car : CarStaticData) : option ustring :=
  encodeURIComponent (make car ++ [32] ++ model car).

(** Bazoš.cz (lines 107-123). *)
Definition bazos_cz (car : CarStaticData) (params : option Search.SearchParams) : option ustring :=
  match name_query car with
  | Some query =>
      let parts := [u "hledat=" ++ query; u "rubriky=auto"; u "kitx=ano"]
        ++ push_if (param Search.priceFrom params) (fun p => u "cenaod=" ++ show_Z p)
        ++ push_if (param Search.priceTo params) (fun p => u "cenado=" ++ show_Z p) in
      Some (u "https://auto.bazos.cz/hledat/?" ++ join (u "&") parts)
  | None => None
  end.

(** Sbazar.cz (lines 124-137). *)
Definition sbazar_cz (car : CarStaticData) (params : option Search.SearchParams) : option ustring :=
  match name_query car with
  | Some query =>
      let parts := push_if (param Search.priceFrom params) (fun p => u "priceFrom=" ++ show_Z p)
        ++ push_if (param Search.priceTo params) (fun p => u "priceTo=" ++ show_Z p) in
      Some (u "https://www.sbazar.cz/hledat/" ++ query ++ query_string parts)
  | None => None
  end.

(** AAA Auto (lines 138-145): the filters are ignored. *)
Definition aaa_auto (car : CarStaticData) (params : option Search.SearchParams) : option ustring :=
  Some (u "https://www.aaaauto.cz/ojeta-auta/" ++ norm (make car) ++ u "/" ++ norm (model car)).

(** Auto ESA (lines 146-158). *)
Definition auto_esa (car : CarStaticData) (params : option Search.SearchParams) : option ustring :=
  match name_query car with
  | Some query =>
      let parts := [u "q=" ++ query]
        ++ push_if (param Search.priceFrom params) (fun p => u "cena-od=" ++ show_Z p)
        ++ push_if (param Search.priceTo params) (fun p => u "cena-do=" ++ show_Z p) in
      Some (u "https://www.autoesa.cz/hledani?" ++ join (u "&") parts)
  | None => None
  end.

(** [BazaarLinkGenerator] (lines 10-14) and [BazaarLinks] (lines 28-159). *)
Record BazaarLinkGenerator := mkGenerator {
  name : ustring;
  generateUrl : CarStaticData -> option Search.SearchParams -> option ustring
}.

Definition BazaarLinks : list BazaarLinkGenerator :=
  [mkGenerator (u "Mobile.de") mobile_de; mkGenerator (u "Sauto.cz") sauto_cz;
   mkGenerator (u "Carvago") carvago_com; mkGenerator (u "Autoscout24") autoscout24;
   mkGenerator (u "Bazoš.cz") bazos_cz; mkGenerator (u "Sbazar.cz") sbazar_cz;
   mkGenerator (u "AAA Auto") aaa_auto; mkGenerator (u "Auto ESA") auto_esa].

End Generators.

(** ** [decodeURIComponent], the reader of an encoded component

    Percent escapes are read as UTF-8 sequences, rejecting bad
    continuation bytes, overlong forms, surrogates and code points above
    [U+10FFFF], as ECMAScript's [Decode] does. *)

Definition hex_val (c : Z) : option Z :=
  if (48 <=? c) && (c <=? 57) then Some (c - 48)
  else if (65 <=? c) && (c <=? 70) then Some (c - 55)
  else if (97 <=? c) && (c <=? 102) then Some (c - 87)
  else None.

Definition read_byte (s : ustring) : option (Z * ustring) :=
  match s with
  | x :: h1 :: h2 :: r =>
      if x =? 37 then
        match hex_val h1, hex_val h2 with
        | Some v1, Some v2 => Some (16 * v1 + v2, r)
        | _, _ => None
        end
      else None
  | _ => None
  end.

Fixpoint read_cont (n : nat) (acc : Z) (s : ustring) : option (Z * ustring) :=
  match n with
  | O => Some (acc, s)
  | S n' =>
      match read_byte s with
      | Some (b, r) => if (128 <=? b) && (b <=? 191) then read_cont n' (acc * 64 + (b - 128)) r else None
      | None => None
      end
  end.

Definition check_cp (ok : Z -> bool) (x : option (Z * ustring)) : option (Z * ustring) :=
  match x with Some (cp, r) => if ok cp then Some (cp, r) else None | None => None end.

Definition decode_seq (s : ustring) : option (Z * ustring) :=
  match read_byte s with
  | Some (b, r) =>
      if b <? 128 then Some (b, r)
      else if (192 <=? b) && (b <=? 223) then check_cp (fun cp => 128 <=? cp) (read_cont 1 (b - 192) r)
      else if (224 <=? b) && (b <=? 239) then
        check_cp (fun cp => (2048 <=? cp) && negb (is_surrogate cp)) (read_cont 2 (b - 224) r)
      else if (240 <=? b) && (b <=? 247) then
        check_cp (fun cp => (65536 <=? cp) && (cp <=? 1114111)) (read_cont 3 (b - 240) r)
      else None
  | None => None
  end.

Fixpoint decode_fuel (fuel : nat) (s : ustring) : option ustring :=
  match fuel, s with
  | _, [] => Some []
  | O, _ :: _ => None
  | S f, c :: r =>
      if c =? 37 then
        match decode_seq s with
        | Some (cp, r') => option_map (cons cp) (decode_fuel f r')
        | None => None
        end
      else option_map (cons c) (decode_fuel f r)
  end.

(** Every step consumes at least one character, so the length is enough fuel. *)
Definition decodeURIComponent (s : ustring) : option ustring := decode_fuel (List.length s) s.

(** A code point [encodeURIComponent] accepts. *)
Definition valid_cp (c : Z) : Prop := 0 <= c <= 1114111 /\ is_surrogate c = false.

Definition valid_cpb (c : Z) : bool := (0 <=? c) && (c <=? 1114111) && negb (is_surrogate c).

(** ** [decodeURIComponent] inverts [encodeURIComponent] *)

Lemma hex_val_digit d : 0 <= d < 16 -> hex_val (hex_digit d) = Some d.
Proof. intros. unfold hex_digit, hex_val. zcmp; cbn; try (exfalso; lia); f_equal; lia. Qed.

Lemma read_byte_percent b r : 0 <= b < 256 -> read_byte (percent b ++ r) = Some (b, r).
Proof.
  intros Hb. pose proof (Z.div_mod b 16 ltac:(lia)). pose proof (Z.mod_pos_bound b 16 ltac:(lia)).
  cbn. rewrite !hex_val_digit by lia. do 2 f_equal. lia.
Qed.

Lemma read_cont_percent n acc b r :
  128 <= b <= 191 -> read_cont (S n) acc (percent b ++ r) = read_cont n (acc * 64 + (b - 128)) r.
Proof. intros Hb. cbn [read_cont]. rewrite read_byte_percent by lia. zcmp; [reflexivity|lia..]. Qed.

(** The quotients and remainders by 64 of a code point, as linear facts. *)
Lemma div64 x : 0 <= x -> x = 64 * (x / 64) + x mod 64 /\ 0 <= x mod 64 < 64 /\ 0 <= x / 64.
Proof.
  intros Hx. split; [apply Z.div_mod; lia|]. split; [apply Z.mod_pos_bound; lia|].
  apply Z.div_pos; lia.
Qed.

Lemma decode_seq_utf8 c rest :
  valid_cp c -> decode_seq (flat_map percent (utf8 c) ++ rest) = Some (c, rest).
Proof.
  intros [Hc Hs]. unfold is_surrogate in Hs.
  assert (Hs' : c < 55296 \/ 57343 < c)
    by (destruct (Z.leb_spec 55296 c), (Z.leb_spec c 57343); cbn in Hs; try discriminate; lia).
  clear Hs. unfold utf8.
  replace (c / 4096) with (c / 64 / 64) by (rewrite Z.div_div by lia; reflexivity).
  replace (c / 262144) with (c / 64 / 64 / 64) by (rewrite !Z.div_div by lia; reflexivity).
  destruct (div64 c) as (E1 & M1 & P1); [lia|].
  destruct (div64 (c / 64)) as (E2 & M2 & P2); [lia|].
  destruct (div64 (c / 64 / 64)) as (E3 & M3 & P3); [lia|].
  set (q1 := c / 64) in *. set (q2 := q1 / 64) in *. set (q3 := q2 / 64) in *.
  zcmp; try lia; cbn [flat_map]; rewrite ?app_nil_r, <- ?app_assoc;
    unfold decode_seq; rewrite read_byte_percent by lia; zcmp; try lia; try reflexivity;
    rewrite ?read_cont_percent by lia; cbn [read_cont check_cp]; unfold is_surrogate; zcmp;
    try lia; cbn; do 2 f_equal; lia.
Qed.

Lemma utf8_head c : exists t, flat_map percent (utf8 c) = 37 :: t.
Proof. unfold utf8. zcmp; eexists; reflexivity. Qed.

Lemma decode_encode_cp c e rest f :
  valid_cp c -> encode_cp c = Some e ->
  decode_fuel (S f) (e ++ rest) = option_map (cons c) (decode_fuel f rest).
Proof.
  unfold encode_cp. intros Hv. destruct (unreserved c) eqn:Hu.
  - intros [= <-]. cbn. destruct (Z.eqb_spec c 37) as [->|]; [discriminate|reflexivity].
  - destruct (is_surrogate c); [discriminate|]. intros [= <-].
    destruct (utf8_head c) as [t Ht]. rewrite Ht. cbn [app decode_fuel]. rewrite Z.eqb_refl.
    replace (37 :: t ++ rest) with (flat_map percent (utf8 c) ++ rest) by (rewrite Ht; reflexivity).
    now rewrite decode_seq_utf8.
Qed.

Lemma encode_cp_nonempty c e : encode_cp c = Some e -> e <> [].
Proof.
  unfold encode_cp. destruct (unreserved c); [intros [= <-]; discriminate|].
  destruct (is_surrogate c); [discriminate|]. intros [= <-].
  destruct (utf8_head c) as [t ->]. discriminate.
Qed.

Lemma decode_fuel_encode s e f :
  Forall valid_cp s -> encodeURIComponent s = Some e -> (List.length e <= f)%nat ->
  decode_fuel f e = Some s.
Proof.
  intros Hv. revert e f. induction Hv as [|c s Hc Hv IH]; intros e f He Hf.
  - injection He as <-. destruct f; reflexivity.
  - cbn in He. destruct (encode_cp c) as [ec|] eqn:Ec; [|discriminate].
    destruct (encodeURIComponent s) as [es|]; [|discriminate]. injection He as <-.
    pose proof (encode_cp_nonempty c ec Ec). rewrite length_app in Hf.
    destruct ec; [congruence|]. destruct f as [|f]; [cbn in Hf; lia|].
    rewrite (decode_encode_cp c (z :: ec) es f Hc Ec), (IH es f); [reflexivity..|].
    cbn in Hf. lia.
Qed.

(** ** A table of the catalog's letters *)

(** The canonical decompositions of the Czech and German letters with a
    diacritic (acute 769, ring 778, caron 780, diaeresis 776); other code
    points are left as they are. *)
Definition latin_nfd (c : Z) : list Z :=
  match find (fun e => fst e =? c)
    [(193, (65, 769)); (201, (69, 769)); (205, (73, 769)); (211, (79, 769)); (218, (85, 769));
     (221, (89, 769)); (225, (97, 769)); (233, (101, 769)); (237, (105, 769)); (243, (111, 769));
     (250, (117, 769)); (253, (121, 769)); (268, (67, 780)); (269, (99, 780)); (270, (68, 780));
     (271, (100, 780)); (282, (69, 780)); (283, (101, 780)); (327, (78, 780)); (328, (110, 780));
     (344, (82, 780)); (345, (114, 780)); (352, (83, 780)); (353, (115, 780)); (356, (84, 780));
     (357, (116, 780)); (366, (85, 778)); (367, (117, 778)); (381, (90, 780)); (382, (122, 780));
     (196, (65, 776)); (214, (79, 776)); (220, (85, 776)); (228, (97, 776)); (246, (111, 776));
     (252, (117, 776))] with
  | Some (_, (b, m)) => [b; m]
  | None => [c]
  end.

(** Lower case: ASCII, and the capitals of Latin-1 ([À]-[Þ] but [×]). *)
Definition latin_lower (c : Z) : list Z :=
  [if is_upper c then c + 32 else if (192 <=? c) && (c <=? 222) && negb (c =? 215) then c + 32 else c].

#[export] Program Instance latin_tables : UnicodeTables := {| nfd := latin_nfd; to_lower_cp := latin_lower |}.
Next Obligation.
  intros c Hc. unfold latin_nfd. cbn [find fst].
  repeat match goal with
         | |- context [?a =? c] => destruct (Z.eqb_spec a c); [lia|]
         end.
  reflexivity.
Qed.
Next Obligation.
  intros c Hc. unfold latin_lower, is_upper. zcmp; cbn; try reflexivity; lia.
Qed.

(** ** Lemmas *)

Lemma valid_cpb_forall s : forallb valid_cpb s = true -> Forall valid_cp s.
Proof.
  intros H. apply List.Forall_forall. intros c Hc. eapply forallb_forall in H; [|exact Hc].
  unfold valid_cpb in H. destruct (is_surrogate c) eqn:Hs; [rewrite andb_false_r in H; discriminate|].
  split; [|exact Hs]. apply andb_prop in H as [H _]. apply andb_prop in H as [H1 H2].
  apply Z.leb_le in H1, H2. lia.
Qed.

Lemma hex_digit_unreserved d : 0 <= d < 16 -> unreserved (hex_digit d) = true.
Proof.
  intros Hd.
  assert (d = 0 \/ d = 1 \/ d = 2 \/ d = 3 \/ d = 4 \/ d = 5 \/ d = 6 \/ d = 7 \/ d = 8 \/ d = 9 \/
          d = 10 \/ d = 11 \/ d = 12 \/ d = 13 \/ d = 14 \/ d = 15) as Hc by lia.
  repeat destruct Hc as [->|Hc]; subst; reflexivity.
Qed.

Lemma utf8_bytes c : valid_cp c -> Forall (fun b => 0 <= b < 256) (utf8 c).
Proof.
  intros [Hc _]. unfold utf8.
  replace (c / 4096) with (c / 64 / 64) by (rewrite Z.div_div by lia; reflexivity).
  replace (c / 262144) with (c / 64 / 64 / 64) by (rewrite !Z.div_div by lia; reflexivity).
  destruct (div64 c) as (E1 & M1 & P1); [lia|].
  destruct (div64 (c / 64)) as (E2 & M2 & P2); [lia|].
  destruct (div64 (c / 64 / 64)) as (E3 & M3 & P3); [lia|].
  set (q1 := c / 64) in *. set (q2 := q1 / 64) in *. set (q3 := q2 / 64) in *.
  zcmp; repeat constructor; lia.
Qed.

Lemma percent_safe b : 0 <= b < 256 -> Forall (fun x => unreserved x = true \/ x = 37) (percent b).
Proof.
  intros Hb. pose proof (Z.div_mod b 16 ltac:(lia)). pose proof (Z.mod_pos_bound b 16 ltac:(lia)).
  constructor; [right; reflexivity|].
  do 2 (constructor; [left; apply hex_digit_unreserved; lia|]). constructor.
Qed.

Lemma encode_cp_safe c e :
  valid_cp c -> encode_cp c = Some e -> Forall (fun x => unreserved x = true \/ x = 37) e.
Proof.
  intros Hv. unfold encode_cp. destruct (unreserved c) eqn:Hu; [intros [= <-]; auto|].
  destruct (is_surrogate c); [discriminate|]. intros [= <-].
  apply Forall_flat_map. eapply Forall_impl; [apply utf8_bytes, Hv|]. apply percent_safe.
Qed.

Lemma encode_cp_total c : valid_cp c -> exists e, encode_cp c = Some e.
Proof.
  intros [_ Hs]. unfold encode_cp. destruct (unreserved c); [eauto|]. rewrite Hs. eauto.
Qed.

Lemma in_replace_all_char a b s x : In x (replace_all_char a b s) -> x = b \/ (In x s /\ x <> a).
Proof.
  unfold replace_all_char. intros (c & <- & Hc)%in_map_iff.
  destruct (Z.eqb_spec c a); [left; reflexivity|right; auto].
Qed.

Lemma in_drop_in {A} (x : A) n l : In x (drop n l) -> In x l.
Proof. intros H. rewrite <- (take_drop n l). apply in_or_app. now right. Qed.

Lemma replace_first_notin a pat rep s :
  ~ In a s -> ~ In a rep -> ~ In a (replace_first pat rep s).
Proof.
  induction s as [|c r IH]; intros Hs Hr; cbn;
    (destruct (uprefix pat _); [intros [H|H]%in_app_or; [exact (Hr H)|exact (Hs (in_drop_in _ _ _ H))]|]).
  - auto.
  - intros [<-|H]; [apply Hs; now left|]. apply IH; auto. intros Hin; apply Hs; now right.
Qed.

(** ** The theorems *)

(** Round trip: [encodeURIComponent] succeeds on every string of
    valid code points (no surrogate), and [decodeURIComponent] of its
    output gives the string back: the site reads the make and model the
    generator sent. *)
Theorem encode_decode_roundtrip s :
  Forall valid_cp s ->
  exists e, encodeURIComponent s = Some e /\ decodeURIComponent e = Some s.
Proof.
  intros Hv. assert (He : exists e, encodeURIComponent s = Some e).
  { induction Hv as [|c s Hc _ [es Hes]]; [eauto|].
    destruct (encode_cp_total c Hc) as [ec Hec]. cbn. rewrite Hec, Hes. eauto. }
  destruct He as [e He]. exists e. split; [exact He|].
  unfold decodeURIComponent. apply (decode_fuel_encode s); auto.
Qed.

(** The output of [encodeURIComponent] consists of unreserved
    characters and [%] escapes only: a make or model never adds a [&],
    [=], [?], [#], [/] or space to the URL. *)
Theorem encode_url_safe s e :
  Forall valid_cp s -> encodeURIComponent s = Some e ->
  Forall (fun x => unreserved x = true \/ x = 37) e.
Proof.
  intros Hv. revert e. induction Hv as [|c s Hc _ IH]; intros e He.
  - injection He as <-. constructor.
  - cbn in He. destruct (encode_cp c) as [ec|] eqn:Ec; [|discriminate].
    destruct (encodeURIComponent s) as [es|]; [|discriminate]. injection He as <-.
    apply Forall_app. split; [exact (encode_cp_safe c ec Hc Ec)|exact (IH es eq_refl)].
Qed.

(** [norm] leaves no space in a path segment, whatever the Unicode
    tables map a character to. *)
Theorem norm_no_space `{UnicodeTables} s : ~ In 32 (norm s).
Proof.
  unfold norm. apply replace_first_notin; [|vm_compute; intuition lia].
  apply replace_first_notin; [|vm_compute; intuition lia].
  intros [Hx|[_ Hx]]%in_replace_all_char; [discriminate|exact (Hx eq_refl)].
Qed.

(** [Math.round(price / 25)], the CZK-to-EUR conversion of Mobile.de
    and Autoscout24, is within half a euro of the exact quotient. *)
Theorem round_div25_bounds x :
  50 * round_div25 x - 25 <= 2 * x < 50 * round_div25 x + 25.
Proof.
  unfold round_div25. pose proof (Z.div_mod (2 * x + 25) 50 ltac:(lia)).
  pose proof (Z.mod_pos_bound (2 * x + 25) 50 ltac:(lia)). lia.
Qed.

(** (C26) With both price bounds filled in, the Mobile.de URL carries two
    [p] parameters, [p=from:] and [p=:to], instead of one [p=from:to]:
    each bound is sent alone. *)
Theorem mobile_de_two_price_params mk md params pf pt :
  param Search.priceFrom params = Some pf -> pf <> 0 ->
  param Search.priceTo params = Some pt -> pt <> 0 ->
  List.filter (uprefix (u "p=")) (mobile_parts mk md params)
  = [u "p=" ++ show_Z (round_div25 pf) ++ u ":"; u "p=:" ++ show_Z (round_div25 pt)].
Proof.
  intros Hf Hf0 Ht Ht0. unfold mobile_parts. rewrite Hf, Ht. unfold push_if.
  destruct (Z.eqb_spec pf 0); [contradiction|]. destruct (Z.eqb_spec pt 0); [contradiction|].
  destruct (param Search.yearFrom params) as [y|]; [destruct (y =? 0)|];
    (destruct (param Search.mileageTo params) as [m|]; [destruct (m =? 0)|]); reflexivity.
Qed.

(** Every generator yields a URL for every catalog car (no
    [URIError]), and [norm] turns the catalog's names into the path
    segments the sites use: [Škoda] to [skoda], [Enyaq iV] to [enyaq],
    [ID.4] to [id-4]. *)
Example catalog_links_defined :
  forallb (fun c => forallb (fun g => match generateUrl g c None with Some _ => true | None => false end) BazaarLinks) CARS_DATA = true /\
  map (fun c => (norm (make c), norm (model c))) CARS_DATA =
  [(u "skoda", u "enyaq"); (u "tesla", u "model-3"); (u "tesla", u "model-y"); (u "kia", u "e-niro");
   (u "volkswagen", u "id-4"); (u "volkswagen", u "id-3"); (u "hyundai", u "kona-electric");
   (u "hyundai", u "ioniq-5"); (u "kia", u "ev6"); (u "audi", u "q4-e-tron"); (u "bmw", u "i3");
   (u "renault", u "megane-e-tech"); (u "mercedes-benz", u "eqa")].
Proof. vm_compute. split; reflexivity. Qed.

(** The search text of Bazoš.cz, Sbazar.cz and Auto ESA,
    [encodeURIComponent(`${car.make} ${car.model}`)], exists for every car
    whose make and model are valid text, and the site decodes it back to
    the make, a space and the model. *)
Theorem name_query_roundtrip car :
  Forall valid_cp (make car) -> Forall valid_cp (model car) ->
  exists e, name_query car = Some e /\ decodeURIComponent e = Some (make car ++ [32] ++ model car).
Proof.
  intros Hmk Hmd. apply encode_decode_roundtrip.
  apply Forall_app. split; [exact Hmk|]. constructor; [split; [lia|reflexivity]|exact Hmd].
Qed.

(** That search text consists of unreserved characters and [%]
    escapes only: a make or model never adds a [&], [=], [?], [#], [/] or
    space to the URL. *)
Theorem name_query_url_safe car e :
  Forall valid_cp (make car) -> Forall valid_cp (model car) -> name_query car = Some e ->
  Forall (fun x => unreserved x = true \/ x = 37) e.
Proof.
  intros Hmk Hmd. apply encode_url_safe.
  apply Forall_app. split; [exact Hmk|]. constructor; [split; [lia|reflexivity]|exact Hmd].
Qed.

(** Witnesses. *)
Lemma norm_no_space_witness : ~ In 32 (norm (u "Kona Electric")).
Proof. apply norm_no_space. Defined.

Lemma mobile_de_two_price_params_witness :
  List.filter (uprefix (u "p=")) (mobile_parts (u "skoda") (u "enyaq")
                                   (Some (Search.mkSearchParams (Some 500000) (Some 800000) None None)))
  = [u "p=" ++ show_Z (round_div25 500000) ++ u ":"; u "p=:" ++ show_Z (round_div25 800000)].
Proof. apply mobile_de_two_price_params; (reflexivity || lia). Defined.

Lemma name_query_roundtrip_witness :
  exists e, name_query enyaq = Some e /\
           decodeURIComponent e = Some (make enyaq ++ [32] ++ model enyaq).
Proof. apply name_query_roundtrip; apply valid_cpb_forall; vm_compute; reflexivity. Defined.

Lemma name_query_url_safe_witness :
  name_query enyaq = Some (u "%C5%A0koda%20Enyaq%20iV") /\
 Forall (fun x => unreserved x = true \/ x = 37) (u "%C5%A0koda%20Enyaq%20iV").
Proof.
  assert (H : name_query enyaq = Some (u "%C5%A0koda%20Enyaq%20iV")) by (vm_compute; reflexivity).
  split; [exact H|]. apply (name_query_url_safe enyaq); [apply valid_cpb_forall; vm_compute; reflexivity..|exact H].
Defined.
