(* ===== verification/Youtube.v ===== *)
(** * YouTube links ([utils/videoUtils.ts])

    [extractYoutubeId] matches the URL against
    [/^.*((youtu.be\/)|(v\/)|(\/u\/\w\/)|(embed\/)|(watch\?))\??v?=?([^#&?]* ).*/] (a space added before the closing parenthesis)
    and accepts the seventh group when it has 11 characters.  The
    regular expression is modelled by its backtracking semantics: the
    greedy [^.*] makes the match start at the {e last} position (before
    the first line terminator, which [.] does not match) where one of the
    five alternatives matches; everything after the alternative is
    optional, so the greedy choices of [\??], [v?], [=?] and
    [[^#&?]*] are final.  Strings are UTF-16 code units; all the
    characters involved are ASCII.

    The theorems: the [watch?v=] forms give back the 11-character id, and
    the [youtu.be/] and [embed/] forms do too {e except} when the id
    starts with [v], which [v?] swallows; every video link of the
    catalog is recognised. *)

From S2P Require Import Prelude CatalogData.

Local Open Scope Z_scope.

(** ** The regular expression *)

(** [\n], [\r], U+2028 and U+2029, which [.] does not match. *)
Definition is_line_terminator (c : Z) : bool := (c =? 10) || (c =? 13) || (c =? 8232) || (c =? 8233).

(** [\w]. *)
Definition is_word (c : Z) : bool :=
  ((65 <=? c) && (c <=? 90)) || ((97 <=? c) && (c <=? 122)) || ((48 <=? c) && (c <=? 57)) || (c =? 95).

Inductive RPat := lit (c : Z) | any_char | word_char.

Definition rmatch1 (p : RPat) (c : Z) : bool :=
  match p with
  | lit k => c =? k
  | any_char => negb (is_line_terminator c)
  | word_char => is_word c
  end.

(** A sequence of single-character patterns at the start of [s]; the rest. *)
Fixpoint match_seq (ps : list RPat) (s : ustring) : option ustring :=
  match ps, s with
  | [], _ => Some s
  | p :: ps', c :: s' => if rmatch1 p c then match_seq ps' s' else None
  | _ :: _, [] => None
  end.

Definition lits (s : string) : list RPat := map lit (u s).

(** The five alternatives of the first group, in order. *)
Definition alternatives : list (list RPat) :=
  [lits "youtu" ++ [any_char] ++ lits "be/"; lits "v/"; lits "/u/" ++ [word_char] ++ lits "/";
   lits "embed/"; lits "watch?"].

Fixpoint try_alts (alts : list (list RPat)) (s : ustring) : option ustring :=
  match alts with
  | [] => None
  | a :: r => match match_seq a s with Some t => Some t | None => try_alts r s end
  end.

(** [^.*] then the first group: the last start position, not past a line
    terminator, where an alternative matches; the text after it. *)
Fixpoint find_last (s : ustring) : option ustring :=
  match s with
  | [] => try_alts alternatives []
  | c :: r =>
      if is_line_terminator c then try_alts alternatives s
      else match find_last r with Some t => Some t | None => try_alts alternatives s end
  end.

(** An optional character ([\??], [v?], [=?]), taken when present. *)
Definition opt_char (k : Z) (s : ustring) : ustring :=
  match s with c :: r => if c =? k then r else s | [] => [] end.

(** The seventh group, [[^#&?]*] taken greedily. *)
Fixpoint take_group (s : ustring) : ustring :=
  match s with
  | c :: r => if (c =? 35) || (c =? 38) || (c =? 63) then [] else c :: take_group r
  | [] => []
  end.

(** [url.match(regExp)] and its group 7. *)
Definition regex_group7 (url : ustring) : option ustring :=
  option_map (fun t => take_group (opt_char 61 (opt_char 118 (opt_char 63 t)))) (find_last url).

(** [extractYoutubeId] (lines 9-18). *)
Definition extractYoutubeId (url : ustring) : option ustring :=
  match url with
  | [] => None
  | _ =>
      if uincludes (u "/results?") url then None
      else match regex_group7 url with
           | Some g => if Nat.eqb (List.length g) 11 then Some g else None
           | None => None
           end
  end.

(** [getYoutubeThumbnail] (lines 25-27). *)
Definition getYoutubeThumbnail (videoId : ustring) : ustring :=
  u "https://img.youtube.com/vi/" ++ videoId ++ u "/maxresdefault.jpg".

(** [isYoutubeUrl] (lines 32-34): [!!extractYoutubeId(url)]. *)
Definition isYoutubeUrl (url : ustring) : bool :=
  match extractYoutubeId url with Some (_ :: _) => true | _ => false end.

(** A character of a YouTube video id: [A-Z a-z 0-9 - _]. *)
Definition id_char (c : Z) : bool := is_word c || (c =? 45).

(** ** Lemmas *)

(** The positions of [p] searched before [t]'s, deepest first. *)
Fixpoint find_in_prefix (p t : ustring) : option ustring :=
  match p with
  | [] => None
  | c :: r => match find_in_prefix r t with Some x => Some x | None => try_alts alternatives (c :: r ++ t) end
  end.

Lemma find_last_app p t :
  forallb (fun c => negb (is_line_terminator c)) p = true -> find_last t = None ->
  find_last (p ++ t) = find_in_prefix p t.
Proof.
  intros Hp Ht. induction p as [|c r IH]; [exact Ht|].
  cbn in Hp |- *. apply andb_prop in Hp as [Hc Hr]. apply negb_true_iff in Hc.
  rewrite Hc, IH by exact Hr. reflexivity.
Qed.

Lemma match_seq_lits ps s t k : match_seq ps s = Some t -> In (lit k) ps -> In k s.
Proof.
  revert s. induction ps as [|p ps IH]; intros s Hm Hin; [destruct Hin|].
  destruct s as [|c s]; [discriminate|]. cbn in Hm. destruct (rmatch1 p c) eqn:Hp; [|discriminate].
  destruct Hin as [->|Hin]; [left; cbn in Hp; now apply Z.eqb_eq in Hp|right; eauto].
Qed.

Lemma try_alts_none alts s :
  Forall (fun a => In (lit 47) a \/ In (lit 63) a) alts -> ~ In 47 s -> ~ In 63 s ->
  try_alts alts s = None.
Proof.
  intros Ha H47 H63. induction Ha as [|a alts Hk _ IH]; [reflexivity|]. cbn.
  destruct (match_seq a s) eqn:Hm; [|exact IH]. exfalso.
  destruct Hk as [Hk|Hk]; [apply H47|apply H63]; eapply match_seq_lits; eauto.
Qed.

(** Every alternative ends with a [/] or a [?]. *)
Lemma alternatives_sep : Forall (fun a => In (lit 47) a \/ In (lit 63) a) alternatives.
Proof.
  apply List.Forall_forall. intros a Ha. cbn in Ha.
  repeat destruct Ha as [<-|Ha]; try destruct Ha; [left|left|left|left|right]; cbn;
    repeat (first [left; reflexivity | right]).
Qed.

Lemma find_last_none s : ~ In 47 s -> ~ In 63 s -> find_last s = None.
Proof.
  induction s as [|c s IH]; intros H47 H63; [reflexivity|]. cbn.
  assert (Ha : try_alts alternatives (c :: s) = None) by (apply try_alts_none; [apply alternatives_sep|exact H47|exact H63]).
  destruct (is_line_terminator c); [exact Ha|]. rewrite IH; [exact Ha|..]; intros Hin; eauto using in_cons.
Qed.

Lemma id_char_sep c : id_char c = true -> c <> 47 /\ c <> 63 /\ c <> 35 /\ c <> 38 /\ c <> 61.
Proof. unfold id_char, is_word. zcmp; cbn; intros Hid; try discriminate; lia. Qed.

Lemma take_group_id s : Forall (fun c => id_char c = true) s -> take_group s = s.
Proof.
  induction 1 as [|c s Hc _ IH]; [reflexivity|]. cbn.
  destruct (id_char_sep c Hc) as (_ & H63 & H35 & H38 & _).
  zcmp; try lia. cbn. now rewrite IH.
Qed.

Lemma uincludes_cons n c s : uincludes n (c :: s) = uprefix n (c :: s) || uincludes n s.
Proof. reflexivity. Qed.

Lemma uincludes_no_first n k t : hd_error n = Some k -> ~ In k t -> uincludes n t = false.
Proof.
  destruct n as [|k' n]; [discriminate|]. intros [= ->] Hk.
  induction t as [|c t IH]; [reflexivity|]. rewrite uincludes_cons, IH by (intros H; apply Hk; now right).
  cbn. destruct (Z.eqb_spec k c); [subst; exfalso; apply Hk; now left|reflexivity].
Qed.

Lemma uprefix_in n s x : uprefix n s = true -> In x n -> In x s.
Proof.
  revert s. induction n as [|k n IH]; intros s H Hx; [destruct Hx|].
  destruct s as [|c s]; [discriminate|]. cbn in H. apply andb_prop in H as [Hk H].
  apply Z.eqb_eq in Hk. destruct Hx as [<-|Hx]; [left; auto|right; eauto].
Qed.

Fixpoint incl_pre (n p t : ustring) : bool :=
  match p with [] => false | c :: r => uprefix n (c :: r ++ t) || incl_pre n r t end.

Lemma uincludes_app n p t : uincludes n (p ++ t) = incl_pre n p t || uincludes n t.
Proof.
  induction p as [|c r IH]; [reflexivity|].
  cbn [app]. rewrite uincludes_cons, IH. cbn [incl_pre]. now rewrite orb_assoc.
Qed.

Lemma id_no_sep id : Forall (fun c => id_char c = true) id -> ~ In 47 id /\ ~ In 63 id.
Proof.
  intros Hid. split; intros Hin; pose proof (proj1 (List.Forall_forall _ _) Hid _ Hin) as Hc;
    apply id_char_sep in Hc; lia.
Qed.

(** The shape every [youtube] theorem starts from: the search and the
    [/results?] test reduced to the positions of the prefix. *)
Lemma extract_prefix p id :
  Forall (fun c => id_char c = true) id -> p <> [] ->
  forallb (fun c => negb (is_line_terminator c)) p = true ->
  extractYoutubeId (p ++ id) =
  if incl_pre (u "/results?") p id then None
  else match option_map (fun t => take_group (opt_char 61 (opt_char 118 (opt_char 63 t))))
                        (find_in_prefix p id) with
       | Some g => if Nat.eqb (List.length g) 11 then Some g else None
       | None => None
       end.
Proof.
  intros Hid Hp Hlt. destruct (id_no_sep id Hid) as [H47 H63].
  unfold extractYoutubeId, regex_group7.
  rewrite find_last_app by (exact Hlt || now apply find_last_none).
  rewrite uincludes_app, (uincludes_no_first _ 47) by (reflexivity || exact H47).
  rewrite orb_false_r. destruct p; [contradiction|reflexivity].
Qed.

(** Evaluates the search over the prefix, splitting on the tests of the
    id's characters that the prefix's last positions read. *)
Lemma uprefix_absent n s k : In k n -> ~ In k s -> uprefix n s = false.
Proof.
  intros Hn Hs. destruct (uprefix n s) eqn:E; [|reflexivity].
  exfalso. apply Hs. eapply uprefix_in; eauto.
Qed.

(** Tests of a character against a literal, and prefix tests on an
    unknown rest, stay folded until split. *)
#[local] Arguments Z.eqb : simpl nomatch.
#[local] Arguments uprefix : simpl nomatch.

Ltac yt_red :=
  cbn [incl_pre uprefix app find_in_prefix try_alts match_seq rmatch1 map Z.eqb Pos.eqb andb orb
       negb option_map opt_char take_group is_line_terminator is_word].

Ltac yt_eval :=
  repeat match goal with |- context [u ?s] => let v := eval vm_compute in (u s) in change (u s) with v end;
  yt_red;
  let v := eval vm_compute in alternatives in change alternatives with v;
  yt_red;
  repeat (match goal with
          | |- context [?c =? ?k] => is_var c; destruct (Z.eqb_spec c k) as [->|?]; try (exfalso; lia)
          | |- context [?k =? ?c] => is_var c; destruct (Z.eqb_spec k c) as [<-|?]; try (exfalso; lia)
          | H : ~ In 63 ?r |- context [uprefix ?n ?r] =>
              rewrite (uprefix_absent n r 63) by (exact H || (cbn; repeat (first [left; reflexivity | right])))
          end; yt_red).

(** Splits an 11-character id into its first two characters and the rest. *)
Ltac yt_intro_id id Hid Hlen :=
  let c1 := fresh "c" in let c2 := fresh "c" in let rest := fresh "rest" in
  let Hr := fresh "Hr" in
  destruct id as [|c1 [|c2 rest]]; try discriminate;
  assert (Hr : List.length rest = 9%nat) by (cbn in Hlen; lia);
  inversion Hid as [|? ? Hc1 Hid1]; subst; inversion Hid1 as [|? ? Hc2 Hrest]; subst;
  destruct (id_char_sep _ Hc1) as (? & ? & ? & ? & ?);
  destruct (id_char_sep _ Hc2) as (? & ? & ? & ? & ?);
  destruct (id_no_sep rest Hrest).

Ltac yt_finish :=
  match goal with Hrest : Forall _ ?rest, Hr : List.length ?rest = _ |- _ =>
    rewrite ?(take_group_id rest Hrest); cbn [Datatypes.length]; rewrite Hr; reflexivity end.

(** ** The theorems *)

(** (C7) The [watch?v=] links, on [www.] or [m.youtube.com], give back
    their 11-character video id, whatever the id is. *)
Theorem watch_form_id p id :
  In p [u "https://www.youtube.com/watch?v="; u "https://m.youtube.com/watch?v="] ->
  Forall (fun c => id_char c = true) id -> List.length id = 11%nat ->
  extractYoutubeId (p ++ id) = Some id.
Proof.
  intros Hp Hid Hlen. destruct Hp as [<-|[<-|[]]];
    (rewrite extract_prefix; [|exact Hid|discriminate|reflexivity]);
    yt_intro_id id Hid Hlen; yt_eval; yt_finish.
Qed.

(** (C25) The [youtu.be/] and [embed/] links give back their id only when
    it does not start with [v]: the optional [v?] of the expression, meant
    for [watch?v=], swallows that first character, the group is then ten
    characters long, and the link is rejected as not a YouTube video. *)
Theorem short_form_swallows_v p id :
  In p [u "https://youtu.be/"; u "https://www.youtube.com/embed/"] ->
  Forall (fun c => id_char c = true) id -> List.length id = 11%nat ->
  extractYoutubeId (p ++ id) = match id with c :: _ => if c =? 118 then None else Some id | [] => None end.
Proof.
  intros Hp Hid Hlen. destruct Hp as [<-|[<-|[]]];
    (rewrite extract_prefix; [|exact Hid|discriminate|reflexivity]);
    yt_intro_id id Hid Hlen; yt_eval; yt_finish.
Qed.

(** The matcher only ever moves forward: what it returns is a suffix of its input. *)
Lemma match_seq_suffix ps s t : match_seq ps s = Some t -> t `suffix_of` s.
Proof.
  revert s. induction ps as [|p ps IH]; intros [|c s] Hm; cbn in Hm; try discriminate.
  - injection Hm as <-. reflexivity.
  - injection Hm as <-. reflexivity.
  - destruct (rmatch1 p c); [|discriminate]. apply suffix_cons_r. eauto.
Qed.

Lemma try_alts_suffix alts s t : try_alts alts s = Some t -> t `suffix_of` s.
Proof.
  induction alts as [|a alts IH]; cbn; [discriminate|].
  destruct (match_seq a s) eqn:Hm; [intros [= <-]; eauto using match_seq_suffix|exact IH].
Qed.

Lemma find_last_suffix s t : find_last s = Some t -> t `suffix_of` s.
Proof.
  induction s as [|c s IH]; cbn [find_last]; [apply try_alts_suffix|].
  destruct (is_line_terminator c); [apply try_alts_suffix|].
  destruct (find_last s); [intros [= <-]; apply suffix_cons_r; eauto|apply try_alts_suffix].
Qed.

Lemma opt_char_suffix k s : opt_char k s `suffix_of` s.
Proof. destruct s as [|c s]; cbn; [reflexivity|]. destruct (c =? k); [apply suffix_cons_r|]; reflexivity. Qed.

Lemma take_group_prefix s : take_group s `prefix_of` s /\ ~ In 35 (take_group s) /\ ~ In 38 (take_group s) /\ ~ In 63 (take_group s).
Proof.
  induction s as [|c s (IHp & IH35 & IH38 & IH63)]; cbn; [split; [reflexivity|tauto]|].
  zcmp; cbn; try (split; [apply prefix_nil|tauto]).
  split; [apply prefix_cons, IHp|]. intuition lia.
Qed.

(** A recognised link has an 11-character id and is no [/results?] page. *)
Lemma extractYoutubeId_some url vid :
  extractYoutubeId url = Some vid -> List.length vid = 11%nat /\ uincludes (u "/results?") url = false.
Proof.
  unfold extractYoutubeId, regex_group7. destruct url as [|c0 r0]; [discriminate|].
  destruct (uincludes _ _) eqn:Hres; [discriminate|].
  destruct (find_last _) as [t|]; cbn; [|discriminate].
  destruct (Nat.eqb_spec (List.length (take_group (opt_char 61 (opt_char 118 (opt_char 63 t))))) 11)
    as [Hl|]; [intros [= <-]; auto|discriminate].
Qed.

(** (C24) What [extractYoutubeId] returns is an 11-character piece of the
    URL without [#], [&] or [?], and the URL is not a [/results?] link. *)
Theorem extractYoutubeId_shape url vid :
  extractYoutubeId url = Some vid ->
  List.length vid = 11%nat /\ vid `sublist_of` url /\ (exists pre post, url = pre ++ vid ++ post)
  /\ ~ In 35 vid /\ ~ In 38 vid /\ ~ In 63 vid /\ uincludes (u "/results?") url = false.
Proof.
  unfold extractYoutubeId, regex_group7. destruct url as [|c0 r0]; [discriminate|].
  destruct (uincludes _ _) eqn:Hres; [discriminate|].
  destruct (find_last _) as [t|] eqn:Ht; cbn; [|discriminate].
  destruct (Nat.eqb_spec (List.length (take_group (opt_char 61 (opt_char 118 (opt_char 63 t))))) 11)
    as [Hl|]; [intros [= <-]|discriminate].
  pose proof (take_group_prefix (opt_char 61 (opt_char 118 (opt_char 63 t)))) as ([post Hpost] & H35 & H38 & H63).
  assert (Hsuf : opt_char 61 (opt_char 118 (opt_char 63 t)) `suffix_of` (c0 :: r0))
    by (do 3 (etrans; [apply opt_char_suffix|]); eauto using find_last_suffix).
  destruct Hsuf as [pre Hpre]. rewrite Hpost in Hpre.
  split; [exact Hl|]. split; [rewrite Hpre; apply sublist_inserts_l, sublist_inserts_r; reflexivity|].
  split; [exists pre, post; exact Hpre|]. auto.
Qed.

(** The catalog's review links: each is either a YouTube search
    ([/results?search_query=]) or a video whose id [extractYoutubeId]
    recognises and whose stored thumbnail is [getYoutubeThumbnail] of it. *)
Example catalog_videos_recognised :
  forallb (fun c => forallb (fun r =>
     uincludes (u "/results?search_query=") (url r)
     || match extractYoutubeId (url r) with
        | Some i => bool_decide (thumbnail r = getYoutubeThumbnail i)
        | None => false
        end) (youtubeReviews c)) CARS_DATA = true.
Proof. vm_compute. reflexivity. Qed.

Lemma id_chars_forall s : forallb id_char s = true -> Forall (fun c => id_char c = true) s.
Proof. intros H. apply List.Forall_forall. intros c Hc. eapply forallb_forall; eauto. Qed.

(** Witnesses. *)
Lemma watch_form_id_witness :
  extractYoutubeId (u "https://www.youtube.com/watch?v=" ++ u "l9vOJYcqSXs") = Some (u "l9vOJYcqSXs").
Proof.
  apply watch_form_id; [left; reflexivity|apply id_chars_forall; vm_compute; reflexivity|reflexivity].
Defined.

Lemma short_form_swallows_v_witness :
  extractYoutubeId (u "https://youtu.be/" ++ u "vO8BJYcqSXs")
  = match u "vO8BJYcqSXs" with c :: _ => if c =? 118 then None else Some (u "vO8BJYcqSXs") | [] => None end.
Proof.
  apply short_form_swallows_v; [left; reflexivity|apply id_chars_forall; vm_compute; reflexivity|reflexivity].
Defined.

Lemma extractYoutubeId_shape_witness :
  extractYoutubeId (u "https://youtu.be/l9vOJYcqSXs") = Some (u "l9vOJYcqSXs") /\
  (List.length (u "l9vOJYcqSXs") = 11%nat /\ u "l9vOJYcqSXs" `sublist_of` u "https://youtu.be/l9vOJYcqSXs"
   /\ (exists pre post, u "https://youtu.be/l9vOJYcqSXs" = pre ++ u "l9vOJYcqSXs" ++ post)
   /\ ~ In 35 (u "l9vOJYcqSXs") /\ ~ In 38 (u "l9vOJYcqSXs") /\ ~ In 63 (u "l9vOJYcqSXs")
   /\ uincludes (u "/results?") (u "https://youtu.be/l9vOJYcqSXs") = false).
Proof.
  assert (H : extractYoutubeId (u "https://youtu.be/l9vOJYcqSXs") = Some (u "l9vOJYcqSXs"))
    by (vm_compute; reflexivity).
  split; [exact H|exact (extractYoutubeId_shape _ _ H)].
Defined.
