(* ===== verification/BrandGrid.v ===== *)
(** * The brand grid of the catalog tab ([components/BrandGrid.tsx])

    The catalog tab lists the brands of [BRAND_CATALOG] by segment; a
    click on a brand expands (or collapses) its model list, and a model
    that has a detailed entry in [CARS_DATA] opens the catalog modal.  The
    detailed entry is looked up by [findDetailedCar]: an exact key
    [`${make}|${model}`] in an index built from [CARS_DATA], else the first
    car of the same make whose model contains, or is contained in, the
    listed name.

    What the grid renders ([segment_view], and [brand_panel] for the
    expanded brand) and its clicks ([grid_click]) are modelled too; a model row's click is sent to [App] as the event
    [ev_select_catalog] of [Garage.v].  [CatalogCard], a card for a
    catalog car that no component renders, is here too.

    The theorems: the lookup only returns a car of the brand whose model
    matches the name (when no make contains [|]), the expand toggle,
    which catalog cars the grid can reach at all, at most one open brand
    panel, what a model row's click opens, and that a row says 'brzy'
    exactly when its click does nothing. *)

From S2P Require Import Prelude CatalogData Garage.
From stdpp Require Import gmap.

Local Open Scope Z_scope.

#[export] Instance Segment_eq_dec : EqDecision Brands.Segment.
Proof. solve_decision. Defined.

(** [SEGMENTS] (lines 14-18): key, label and icon, in display order. *)
Definition SEGMENTS : list (Brands.Segment * ustring * ustring) :=
  [(Brands.mainstream, u "Populární značky", u "⚡");
   (Brands.premium, u "Prémiový segment", u "✦");
   (Brands.budget, u "Cenově dostupné", u "💰")].

(** [`${car.make}|${car.model}`]. *)
Definition index_key (mk md : ustring) : ustring := mk ++ [124] ++ md.

(** [carIndex] (lines 24-31): a later car overwrites an earlier one with
    the same key. *)
Definition carIndex (cars : list CarStaticData) : gmap ustring CarStaticData :=
  fold_left (fun idx car => <[index_key (make car) (model car) := car]> idx) cars ∅.

(** [findDetailedCar] (lines 33-42). *)
Definition findDetailedCar (cars : list CarStaticData) (brand : Brands.BrandInfo) (modelName : ustring)
    : option CarStaticData :=
  match carIndex cars !! index_key (Brands.make brand) modelName with
  | Some exact => Some exact
  | None =>
      find (fun c => bool_decide (make c = Brands.make brand)
                     && (uincludes modelName (model c) || uincludes (model c) modelName)) cars
  end.

(** [handleBrandClick] (lines 44-46) on [expandedBrand]. *)
Definition handleBrandClick (mk : ustring) (expandedBrand : option ustring) : option ustring :=
  if bool_decide (expandedBrand = Some mk) then None else Some mk.

(** [brandsBySegment[seg]] (lines 49-55). *)
Definition brandsBySegment (seg : Brands.Segment) : list Brands.BrandInfo :=
  List.filter (fun b => bool_decide (Brands.segment b = seg)) BRAND_CATALOG.

(** The expanded panel of a segment (lines 138-139): the brand whose
    make is expanded, when it belongs to the segment. *)
Definition expanded_panel (expandedBrand : option ustring) (brandsInSegment : list Brands.BrandInfo)
    : option Brands.BrandInfo :=
  match expandedBrand with
  | Some mk =>
      if existsb (fun b => bool_decide (Brands.make b = mk)) brandsInSegment
      then find (fun b => bool_decide (Brands.make b = mk)) brandsInSegment
      else None
  | None => None
  end.

(** The model rows of an expanded brand (lines 172-179): each model with
    the detailed car a click opens, if any. *)
Definition model_rows (cars : list CarStaticData) (brand : Brands.BrandInfo)
    : list (Brands.BrandModel * option CarStaticData) :=
  map (fun m => (m, findDetailedCar cars brand (Brands.name m))) (Brands.models brand).

(** The catalog cars some model row of some brand opens. *)
Definition reachable_cars (cars : list CarStaticData) : list CarStaticData :=
  flat_map (fun b => flat_map (fun r => option_list r.2) (model_rows cars b)) BRAND_CATALOG.

(** The label of the model count (line 121):
    [n === 1 ? 'model' : n < 5 ? 'modely' : 'modelů']. *)
Definition count_label (n : nat) : ustring :=
  if Nat.eqb n 1 then u "model" else if Nat.ltb n 5 then u "modely" else u "modelů".

(** What the grid renders (lines 59-230): for each segment with brands,
    its key, each brand's make, whether it is the expanded one, its
    model count and label, and the expanded panel of the segment. *)
Definition segment_view (expandedBrand : option ustring)
    : list (Brands.Segment * list (ustring * bool * nat * ustring) * option Brands.BrandInfo) :=
  flat_map (fun seg =>
    let '(key, _, _) := seg in
    match brandsBySegment key with
    | [] => []
    | brands =>
        [(key, map (fun b => (Brands.make b, bool_decide (expandedBrand = Some (Brands.make b)),
                              List.length (Brands.models b), count_label (List.length (Brands.models b)))) brands,
          expanded_panel expandedBrand brands)]
    end) SEGMENTS.

(** The clicks of the grid: a brand card ([handleBrandClick], line 81),
    the panel's close button (line 163), a model row (line 179:
    [hasDetail && detailedCar && onSelectCar(detailedCar)], which [App]
    turns into [setSelectedCatalogCar], line 332). *)
Inductive GridClick :=
  | click_brand (mk : ustring)
  | click_close
  | click_model (brand : Brands.BrandInfo) (modelName : ustring).

Definition grid_click (k : GridClick) (expandedBrand : option ustring) : option ustring * list AppEvent :=
  match k with
  | click_brand mk => (handleBrandClick mk expandedBrand, [])
  | click_close => (None, [])
  | click_model b name =>
      (expandedBrand, match findDetailedCar CARS_DATA b name with
                      | Some c => [ev_select_catalog (Some c)]
                      | None => []
                      end)
  end.

(** A model row of the expanded panel (lines 172-219): the name, the
    detailed car a click opens, the badge when it is truthy, and the
    'brzy' ("soon") label of a row without a detailed car. *)
Record ModelRow := mkModelRow {
  mr_name : ustring;
  mr_detail : option CarStaticData;
  mr_badge : option ustring;
  mr_soon : bool
}.

(** The expanded panel of a segment (lines 138-225): the brand's make and
    description over its model rows. *)
Record BrandPanel := mkBrandPanel {
  bp_make : ustring;
  bp_description : ustring;
  bp_rows : list ModelRow
}.

Definition brand_panel (expandedBrand : option ustring) (brandsInSegment : list Brands.BrandInfo)
    : option BrandPanel :=
  option_map (fun b =>
    mkBrandPanel (Brands.make b) (Brands.description b)
      (map (fun '(m, d) =>
              mkModelRow (Brands.name m) d
                (match Brands.badge m with Some (_ :: _) => Brands.badge m | _ => None end)
                (match d with Some _ => false | None => true end))
           (model_rows CARS_DATA b)))
    (expanded_panel expandedBrand brandsInSegment).

(** [CatalogCard] ([components/CatalogCard.tsx] lines 10-61): the
    picture, ["od {priceFrom} Kč"], make and model, the variant, battery
    and range, and the car its [onClick] receives.  No component of the
    application renders it: the catalog tab shows the brand grid. *)
Record CatalogCardView := mkCatalogCardView {
  cc_image : ustring;
  cc_priceFrom : Z;
  cc_title : ustring;
  cc_variant : ustring;
  cc_battery : Z;
  cc_range : Z;
  cc_click : CarStaticData
}.

Definition CatalogCard (c : CarStaticData) : CatalogCardView :=
  mkCatalogCardView (image c) (priceFrom c) (make c ++ u " " ++ model c) (variant c) (battery c) (rangeWLTP c) c.

(** ** Lemmas *)

Lemma carIndex_fold_lookup (cars : list CarStaticData) (idx : gmap ustring CarStaticData) k c :
  fold_left (fun idx car => <[index_key (make car) (model car) := car]> idx) cars idx !! k = Some c ->
  idx !! k = Some c \/ (In c cars /\ k = index_key (make c) (model c)).
Proof.
  revert idx. induction cars as [|car cars IH]; intros idx H; [now left|].
  cbn in H. destruct (IH _ H) as [Hi|[Hin ->]]; [|right; split; [now right|reflexivity]].
  destruct (decide (index_key (make car) (model car) = k)) as [<-|Hne].
  - rewrite lookup_insert_eq in Hi. injection Hi as <-. right. split; [now left|reflexivity].
  - rewrite lookup_insert_ne in Hi by exact Hne. now left.
Qed.

Lemma carIndex_lookup (cars : list CarStaticData) k c :
  carIndex cars !! k = Some c -> In c cars /\ k = index_key (make c) (model c).
Proof.
  intros H. apply carIndex_fold_lookup in H as [H|H]; [|exact H].
  rewrite lookup_empty in H. discriminate.
Qed.

(** A separator absent from both left parts splits a key uniquely. *)
Lemma app_sep_inj {A} (x : A) a1 a2 b1 b2 :
  ~ In x a1 -> ~ In x a2 -> a1 ++ x :: b1 = a2 ++ x :: b2 -> a1 = a2 /\ b1 = b2.
Proof.
  revert a2. induction a1 as [|y a1 IH]; intros [|z a2] H1 H2 E; cbn in E.
  - injection E as ->. auto.
  - injection E as -> _. exfalso. apply H2. now left.
  - injection E as <- _. exfalso. apply H1. now left.
  - injection E as -> E. destruct (IH a2) as [-> ->]; auto; intros Hin; [apply H1|apply H2]; now right.
Qed.

Definition no_bar (s : ustring) : bool := negb (existsb (Z.eqb 124) s).

Lemma no_bar_spec s : no_bar s = true -> ~ In 124 s.
Proof.
  unfold no_bar. intros H Hin. apply negb_true_iff in H.
  assert (existsb (Z.eqb 124) s = true) by (apply existsb_exists; exists 124; split; [exact Hin|apply Z.eqb_refl]).
  congruence.
Qed.

Lemma no_bar_forall cars : forallb (fun c => no_bar (make c)) cars = true -> Forall (fun c => ~ In 124 (make c)) cars.
Proof.
  intros H. apply List.Forall_forall. intros c Hc. apply no_bar_spec. exact (proj1 (forallb_forall _ _) H c Hc).
Qed.

Lemma expanded_panel_some e seg b :
  expanded_panel e (brandsBySegment seg) = Some b ->
  e = Some (Brands.make b) /\ Brands.segment b = seg /\ In b BRAND_CATALOG.
Proof.
  destruct e as [mk|]; unfold expanded_panel; [|discriminate].
  destruct existsb; [|discriminate].
  intros (Hin & Hm)%find_some. apply bool_decide_eq_true in Hm as ->.
  unfold brandsBySegment in Hin. apply List.filter_In in Hin as [Hin Hs].
  apply bool_decide_eq_true in Hs. auto.
Qed.

(** The makes of [BRAND_CATALOG] are distinct. *)
Lemma brand_makes_nodup : NoDup (map Brands.make BRAND_CATALOG).
Proof. apply (bool_decide_unpack _). vm_compute. reflexivity. Qed.

(** ** The theorems *)

(** (C27) [findDetailedCar] returns a car of the list with the brand's
    make whose model is the listed name, contains it or is contained in
    it — provided no make contains the separator [|] of the index keys
    (otherwise [`${make}|${model}`] keys of different makes can collide). *)
Theorem findDetailedCar_sound cars b m c :
  ~ In 124 (Brands.make b) -> Forall (fun c => ~ In 124 (make c)) cars ->
  findDetailedCar cars b m = Some c ->
  In c cars /\ make c = Brands.make b /\
  (model c = m \/ uincludes m (model c) = true \/ uincludes (model c) m = true).
Proof.
  intros Hb Hcars. unfold findDetailedCar.
  destruct (carIndex cars !! index_key (Brands.make b) m) as [e|] eqn:E.
  - intros [= <-]. apply carIndex_lookup in E as [Hin Hk]. unfold index_key in Hk.
    pose proof (proj1 (List.Forall_forall _ _) Hcars e Hin) as He.
    destruct (app_sep_inj 124 _ _ _ _ Hb He Hk) as [-> ->]. auto.
  - intros (Hin & Hf)%find_some. apply andb_prop in Hf as [Hm Hf].
    apply bool_decide_eq_true in Hm. apply orb_true_iff in Hf. tauto.
Qed.

(** Of the thirteen catalog cars, three cannot be opened from the
    brand grid, the only way to the catalog modal: the grid lists
    "Mégane E-Tech" while the car is "Megane E-Tech" — [includes] does not
    fold accents, although the comment of [findDetailedCar] names exactly
    this pair — "Niro EV" while the car is "e-Niro", and no BMW "i3". *)
Example brand_grid_unreachable :
  map id (List.filter (fun c => negb (existsb (fun r => bool_decide (id r = id c)) (reachable_cars CARS_DATA)))
                      CARS_DATA)
  = [u "kia-eniro"; u "bmw-i3"; u "renault-megane"].
Proof. vm_compute. reflexivity. Qed.

(** (C20) At most one brand panel is open in the whole grid: if the
    expanded panel of two segments exists, it is the same panel of the
    same segment, because a make names one brand of [BRAND_CATALOG]
    (lines 77, 138-139). *)
Theorem grid_one_panel e seg1 seg2 b1 b2 :
  expanded_panel e (brandsBySegment seg1) = Some b1 ->
  expanded_panel e (brandsBySegment seg2) = Some b2 -> seg1 = seg2 /\ b1 = b2.
Proof.
  intros (E1 & <- & H1)%expanded_panel_some (E2 & <- & H2)%expanded_panel_some.
  rewrite E1 in E2. injection E2 as E.
  assert (b1 = b2) as -> by exact (NoDup_map_in_inj _ _ _ _ brand_makes_nodup H1 H2 E). auto.
Qed.

(** A click on a model row opens the catalog modal on the detailed
    car found for it, and does nothing when there is none (the row shows
    'brzy'); the expanded brand is kept (lines 172-179, App line 332). *)
Theorem grid_row_opens_modal b name e s :
  let '(e', evs) := grid_click (click_model b name) e in
  e' = e /\
  selectedCatalogCar (run_app evs s) =
    match findDetailedCar CARS_DATA b name with Some c => Some c | None => selectedCatalogCar s end.
Proof.
  unfold grid_click. destruct (findDetailedCar CARS_DATA b name); split; reflexivity.
Qed.

(** A row of the expanded panel says 'brzy' exactly when a click on it
    sends nothing to [App] (lines 179 and 214-216). *)
Theorem soon_rows_do_nothing e brands p row :
  brand_panel e brands = Some p -> In row (bp_rows p) ->
  (mr_soon row = true <-> exists b, expanded_panel e brands = Some b /\
                                    grid_click (click_model b (mr_name row)) e = (e, [])).
Proof.
  unfold brand_panel. destruct (expanded_panel e brands) as [b|] eqn:E; [|discriminate].
  intros [= <-] Hin. cbn [bp_rows] in Hin. unfold model_rows in Hin.
  rewrite map_map in Hin. apply in_map_iff in Hin as (m & <- & _). cbn.
  split.
  - intros Hs. exists b. split; [reflexivity|]. destruct (findDetailedCar CARS_DATA b (Brands.name m)); [discriminate|reflexivity].
  - intros (b' & [= <-] & Hc). destruct (findDetailedCar CARS_DATA b (Brands.name m)); [discriminate|reflexivity].
Qed.

(** (C28) A model row opens nothing exactly when no car of the list has the
    brand's make and a model that contains the row's name or is contained
    in it (an equal model included) — [includes] compares code points, so
    a name that differs from the car's model by an accent or by word order
    finds nothing.  As for soundness, no make may contain [|]. *)
Theorem findDetailedCar_none_iff cars b m :
  ~ In 124 (Brands.make b) -> Forall (fun c => ~ In 124 (make c)) cars ->
  findDetailedCar cars b m = None <->
  Forall (fun c => make c <> Brands.make b \/ (uincludes m (model c) = false /\ uincludes (model c) m = false)) cars.
Proof.
  intros Hb Hcars. unfold findDetailedCar. split.
  - destruct (carIndex cars !! _); [discriminate|]. intros Hf.
    apply List.Forall_forall. intros c Hc.
    pose proof (find_none _ _ Hf c Hc) as Hp. cbn beta in Hp.
    destruct (decide (make c = Brands.make b)) as [E|]; [right|left; exact n].
    rewrite (bool_decide_eq_true_2 _ E) in Hp. cbn in Hp. now apply orb_false_iff in Hp.
  - intros HF. destruct (carIndex cars !! index_key (Brands.make b) m) as [e|] eqn:E.
    + exfalso. apply carIndex_lookup in E as [Hin Hk]. unfold index_key in Hk.
      destruct (app_sep_inj 124 _ _ _ _ Hb (proj1 (List.Forall_forall _ _) Hcars e Hin) Hk) as [E1 E2].
      destruct (proj1 (List.Forall_forall _ _) HF e Hin) as [He|[He _]]; [congruence|].
      rewrite E2, uincludes_refl in He. discriminate.
    + clear E Hcars. induction HF as [|c l Hc HF IH]; [reflexivity|]. cbn. rewrite IH.
      destruct Hc as [Hc|[H1 H2]]; [now rewrite bool_decide_eq_false_2|].
      rewrite H1, H2. now rewrite andb_false_r.
Qed.

(** Witness. *)
Lemma findDetailedCar_sound_witness :
  findDetailedCar CARS_DATA (hd (Brands.mkBrand [] [] [] [] [] [] Brands.budget []) BRAND_CATALOG) (u "Enyaq")
  = Some enyaq /\
  (In enyaq CARS_DATA /\ make enyaq = Brands.make (hd (Brands.mkBrand [] [] [] [] [] [] Brands.budget []) BRAND_CATALOG) /\
   (model enyaq = u "Enyaq" \/ uincludes (u "Enyaq") (model enyaq) = true \/ uincludes (model enyaq) (u "Enyaq") = true)).
Proof.
  assert (H : findDetailedCar CARS_DATA (hd (Brands.mkBrand [] [] [] [] [] [] Brands.budget []) BRAND_CATALOG)
                              (u "Enyaq") = Some enyaq) by (vm_compute; reflexivity).
  split; [exact H|]. apply (findDetailedCar_sound _ _ _ _); [apply no_bar_spec; vm_compute; reflexivity|
    apply no_bar_forall; vm_compute; reflexivity|exact H].
Defined.

Lemma grid_one_panel_witness :
  expanded_panel (Some (u "Škoda")) (brandsBySegment Brands.mainstream) = Some (hd (Brands.mkBrand [] [] [] [] [] [] Brands.budget []) BRAND_CATALOG)
  /\ Brands.mainstream = Brands.mainstream /\ hd (Brands.mkBrand [] [] [] [] [] [] Brands.budget []) BRAND_CATALOG = hd (Brands.mkBrand [] [] [] [] [] [] Brands.budget []) BRAND_CATALOG.
Proof.
  assert (H : expanded_panel (Some (u "Škoda")) (brandsBySegment Brands.mainstream)
              = Some (hd (Brands.mkBrand [] [] [] [] [] [] Brands.budget []) BRAND_CATALOG)) by (vm_compute; reflexivity).
  split; [exact H|]. exact (grid_one_panel _ _ _ _ _ H H).
Defined.

Lemma soon_rows_do_nothing_witness :
  exists p row, brand_panel (Some (u "Škoda")) (brandsBySegment Brands.mainstream) = Some p /\ In row (bp_rows p) /\
    (mr_soon row = true <-> exists b, expanded_panel (Some (u "Škoda")) (brandsBySegment Brands.mainstream) = Some b /\
                                      grid_click (click_model b (mr_name row)) (Some (u "Škoda")) = (Some (u "Škoda"), [])).
Proof.
  destruct (brand_panel (Some (u "Škoda")) (brandsBySegment Brands.mainstream)) as [p|] eqn:E;
    [|vm_compute in E; discriminate].
  assert (Hr : exists row, In row (bp_rows p)).
  { vm_compute in E. injection E as <-. eexists. left. reflexivity. }
  destruct Hr as (row & Hin). exists p, row. split; [reflexivity|]. split; [exact Hin|].
  exact (soon_rows_do_nothing _ _ _ _ E Hin).
Defined.

Lemma findDetailedCar_none_iff_witness :
  (~ In 124 (Brands.make brand_renault) /\ Forall (fun c => ~ In 124 (make c)) CARS_DATA) /\
  findDetailedCar CARS_DATA brand_renault (u "Mégane E-Tech") = None /\
  Forall (fun c => make c <> Brands.make brand_renault \/
                   (uincludes (u "Mégane E-Tech") (model c) = false /\ uincludes (model c) (u "Mégane E-Tech") = false))
         CARS_DATA.
Proof.
  assert (Hb : ~ In 124 (Brands.make brand_renault)) by (apply no_bar_spec; vm_compute; reflexivity).
  assert (Hc : Forall (fun c => ~ In 124 (make c)) CARS_DATA) by (apply no_bar_forall; vm_compute; reflexivity).
  assert (H : findDetailedCar CARS_DATA brand_renault (u "Mégane E-Tech") = None) by (vm_compute; reflexivity).
  split; [split; assumption|]. split; [exact H|]. exact (proj1 (findDetailedCar_none_iff _ _ _ Hb Hc) H).
Defined.
