(* ===== verification/CatalogModal.v ===== *)
(** * The catalog modal ([components/CatalogDetailModal.tsx])

    The modal of a catalog car has four tabs.  Its state (lines 14-44) is
    the active tab, the URL typed in the import box, the loan calculator's
    amount and term, the search filters passed to the bazaar links, the
    video playing, and the user's own videos with the text of the
    add-video box.  The user's videos are kept in [localStorage] under
    [`custom_videos_${car.id}`] as JSON; the browser storage is part of the
    state, a finite map from keys to what [JSON.parse] reads back.

    [modal_step] is one user event; it returns the new state and the
    effects the handler has outside the modal: an [alert], a
    [window.open], or [onAnalyze(url)], which [App] turns into
    [catalog_analyze].  [calculateMonthly] is the annuity formula of the
    finance tab over [Q] ([Math.pow] with an integer exponent is
    [Qpower]; a zero denominator is the [NaN] or [Infinity] the page
    shows, [None]).

    The theorems: the stored list always equals the shown list, has no two
    videos with the same URL and no URL of the built-in reviews, and is
    what a reopened modal shows; the add-video handler on each of its
    branches; duplicates under another URL form get through; the monthly
    payment pays the loan off in exactly [years * 12] months and the
    payments add up to at least the loan, and a zero rate gives [NaN].

    What the active tab renders is [modal_content]: the bazaar links, the
    review cards ([review_card]: video id, player, thumbnail, remove
    button) or the YouTube search when there is none, the bank rows and
    the insurance offers.  Its theorems: every player shows the playing
    video (two cards of one video both play), the cards of the user's
    videos show their YouTube thumbnail, and every bank row of the
    catalog shows a payment, never [NaN]. *)

From S2P Require Import Prelude CatalogData Links Youtube Breakdown.
From stdpp Require Import gmap.
From Stdlib Require Import QArith_base Qpower Qfield Lqa.

Local Open Scope Z_scope.

(** ** State *)

Inductive ModalTab := tab_info | tab_reviews | tab_finance | tab_insurance.

(** [{ url, title }] of a user video. *)
Record UserVideo := mkUserVideo { video_url : ustring; video_title : ustring }.

(** What [JSON.parse(localStorage.getItem(key))] gives: the list, or a
    [SyntaxError] on a corrupt entry. *)
Inductive Stored := stored_json (vs : list UserVideo) | stored_corrupt.

Record ModalState := mkModal {
  activeTab : ModalTab;
  importUrl : ustring;
  loanAmount : Q;
  years : Z;
  searchParams : Search.SearchParams;
  playingVideo : option ustring;
  userVideos : list UserVideo;
  newVideoUrl : ustring;
  storage : gmap ustring Stored
}.

Definition set_videos (vs : list UserVideo) (s : ModalState) : ModalState :=
  mkModal (activeTab s) (importUrl s) (loanAmount s) (years s) (searchParams s) (playingVideo s) vs
          (newVideoUrl s) (storage s).

Definition set_storage (st : gmap ustring Stored) (s : ModalState) : ModalState :=
  mkModal (activeTab s) (importUrl s) (loanAmount s) (years s) (searchParams s) (playingVideo s)
          (userVideos s) (newVideoUrl s) st.

Definition set_new_video (x : ustring) (s : ModalState) : ModalState :=
  mkModal (activeTab s) (importUrl s) (loanAmount s) (years s) (searchParams s) (playingVideo s)
          (userVideos s) x (storage s).

(** [`custom_videos_${car.id}`]. *)
Definition videos_key (car : CarStaticData) : ustring := u "custom_videos_" ++ id car.

(** The initial values of the hooks (lines 14-44): 80% of the price, five
    years, no filters, no video. *)
Definition initial_modal (car : CarStaticData) (st : gmap ustring Stored) : ModalState :=
  mkModal tab_info [] (inject_Z (priceFrom car) * (8 # 10))%Q 5
          (Search.mkSearchParams None None None None) None [] [] st.

(** The effect on [car.id] (lines 46-57): the stored list, the same state
    when the entry is corrupt (the error is only logged), [[]] when there
    is none. *)
Definition load_videos (car : CarStaticData) (s : ModalState) : ModalState :=
  match storage s !! videos_key car with
  | Some (stored_json vs) => set_videos vs s
  | Some stored_corrupt => s
  | None => set_videos [] s
  end.

(** White space of [String.prototype.trim]. *)
Definition is_js_space (c : Z) : bool :=
  existsb (Z.eqb c) [9; 10; 11; 12; 13; 32; 160; 5760; 8232; 8233; 8239; 8287; 12288; 65279]
  || ((8192 <=? c) && (c <=? 8202)).

Fixpoint drop_spaces (s : ustring) : ustring :=
  match s with c :: r => if is_js_space c then drop_spaces r else s | [] => [] end.

Definition utrim (s : ustring) : ustring := rev (drop_spaces (rev (drop_spaces s))).

Inductive Alert := alert_invalid | alert_duplicate.

Inductive Effect :=
  | eff_alert (a : Alert)
  | eff_open (url : ustring)
  | eff_analyze (url : ustring).

(** [handleAddVideo] (lines 59-80). *)
Definition handleAddVideo (car : CarStaticData) (s : ModalState) : ModalState * list Effect :=
  match utrim (newVideoUrl s) with
  | [] => (s, [])
  | _ =>
      match extractYoutubeId (newVideoUrl s) with
      | None => (s, [eff_alert alert_invalid])
      | Some _ =>
          if existsb (fun v => bool_decide (video_url v = newVideoUrl s)) (userVideos s)
             || existsb (fun r => bool_decide (url r = newVideoUrl s)) (youtubeReviews car)
          then (s, [eff_alert alert_duplicate])
          else
            let updated := userVideos s ++ [mkUserVideo (newVideoUrl s) (u "Uživatelské video")] in
            (set_new_video [] (set_storage (<[videos_key car := stored_json updated]> (storage s))
                                           (set_videos updated s)), [])
      end
  end.

(** [handleRemoveVideo] (lines 82-86). *)
Definition handleRemoveVideo (car : CarStaticData) (urlToRemove : ustring) (s : ModalState) : ModalState :=
  let updated := List.filter (fun v => negb (bool_decide (video_url v = urlToRemove))) (userVideos s) in
  set_storage (<[videos_key car := stored_json updated]> (storage s)) (set_videos updated s).

(** [review.url.includes('/results?search_query=')] (line 266). *)
Definition isSearchLink (url : ustring) : bool := uincludes (u "/results?search_query=") url.

(** A click on a review's thumbnail (lines 285-291). *)
Definition videoClick (url : ustring) (s : ModalState) : ModalState * list Effect :=
  if isSearchLink url then (s, [eff_open url])
  else match extractYoutubeId url with
       | Some vid =>
           (mkModal (activeTab s) (importUrl s) (loanAmount s) (years s) (searchParams s) (Some vid)
                    (userVideos s) (newVideoUrl s) (storage s), [])
       | None => (s, [])
       end.

(** The list the reviews tab renders (lines 264-265): the built-in
    reviews, then the user's videos, marked [isUser]. *)
Definition review_items (car : CarStaticData) (s : ModalState) : list (ustring * bool) :=
  map (fun r => (url r, false)) (youtubeReviews car) ++ map (fun v => (video_url v, true)) (userVideos s).

(** [calculateMonthly(rate)] (lines 21-25). *)
Definition calculateMonthly (rate : Q) (s : ModalState) : option Q :=
  let r := (rate / 100 / 12)%Q in
  let n := years s * 12 in
  let p := Qpower (1 + r) n in
  if Qeq_bool (p - 1) 0 then None else Some (loanAmount s * r * p / (p - 1))%Q.

(** [Math.round(calculateMonthly(bank.rate))] (line 399). *)
Definition monthly_shown (rate : Q) (s : ModalState) : option Z := option_map js_round (calculateMonthly rate s).

(** Which filter of the search form an input sets (lines 182-215). *)
Inductive SearchField := f_priceFrom | f_priceTo | f_yearFrom | f_mileageTo.

(** [setSearchParams({ ...searchParams, field: value ? Number(value) : undefined })]. *)
Definition set_param (f : SearchField) (v : option Z) (p : Search.SearchParams) : Search.SearchParams :=
  match f with
  | f_priceFrom => Search.mkSearchParams v (Search.priceTo p) (Search.yearFrom p) (Search.mileageTo p)
  | f_priceTo => Search.mkSearchParams (Search.priceFrom p) v (Search.yearFrom p) (Search.mileageTo p)
  | f_yearFrom => Search.mkSearchParams (Search.priceFrom p) (Search.priceTo p) v (Search.mileageTo p)
  | f_mileageTo => Search.mkSearchParams (Search.priceFrom p) (Search.priceTo p) (Search.yearFrom p) v
  end.

Inductive ModalEvent :=
  | ev_tab (t : ModalTab)
  | ev_import_input (x : ustring)
  | ev_import_click
  | ev_loan_input (q : Q)
  | ev_years_input (y : Z)
  | ev_param_input (f : SearchField) (v : option Z)
  | ev_video_input (x : ustring)
  | ev_add_video
  | ev_remove_video (url : ustring)
  | ev_video_click (url : ustring)
  | ev_reload.

(** One event of the modal of [car]. *)
Definition modal_step (car : CarStaticData) (ev : ModalEvent) (s : ModalState) : ModalState * list Effect :=
  match ev with
  | ev_tab t => (mkModal t (importUrl s) (loanAmount s) (years s) (searchParams s) (playingVideo s)
                          (userVideos s) (newVideoUrl s) (storage s), [])
  | ev_import_input x => (mkModal (activeTab s) x (loanAmount s) (years s) (searchParams s) (playingVideo s)
                                  (userVideos s) (newVideoUrl s) (storage s), [])
  | ev_import_click => (s, match importUrl s with [] => [] | x => [eff_analyze x] end)
  | ev_loan_input q => (mkModal (activeTab s) (importUrl s) q (years s) (searchParams s) (playingVideo s)
                                (userVideos s) (newVideoUrl s) (storage s), [])
  | ev_years_input y => (mkModal (activeTab s) (importUrl s) (loanAmount s) y (searchParams s) (playingVideo s)
                                 (userVideos s) (newVideoUrl s) (storage s), [])
  | ev_param_input f v => (mkModal (activeTab s) (importUrl s) (loanAmount s) (years s)
                                   (set_param f v (searchParams s)) (playingVideo s)
                                   (userVideos s) (newVideoUrl s) (storage s), [])
  | ev_video_input x => (set_new_video x s, [])
  | ev_add_video => handleAddVideo car s
  | ev_remove_video url => (handleRemoveVideo car url s, [])
  | ev_video_click url => videoClick url s
  | ev_reload => (load_videos car s, [])
  end.

Definition run_modal (car : CarStaticData) (evs : list ModalEvent) (s : ModalState) : ModalState :=
  fold_left (fun s ev => fst (modal_step car ev s)) evs s.

(** The user's videos are stored as shown, have distinct URLs, are
    recognised YouTube links, and repeat no built-in review. *)
Definition videos_wf (car : CarStaticData) (s : ModalState) : Prop :=
  (storage s !! videos_key car = Some (stored_json (userVideos s))
   \/ (storage s !! videos_key car = None /\ userVideos s = []))
  /\ NoDup (map video_url (userVideos s))
  /\ Forall (fun v => extractYoutubeId (video_url v) <> None) (userVideos s)
  /\ Forall (fun v => ~ In (video_url v) (map url (youtubeReviews car))) (userVideos s).

(** ** What the tabs render *)

(** The items of the reviews tab (lines 264-265): the built-in reviews,
    then the user's videos as [{ ...v, thumbnail: '', channel: 'Uživatel',
    isUser: true }]. *)
Definition review_objects (car : CarStaticData) (s : ModalState) : list (Review * bool) :=
  map (fun r => (r, false)) (youtubeReviews car)
  ++ map (fun v => (mkReview (video_title v) (video_url v) [] (u "Uživatel"), true)) (userVideos s).

(** A truthy string: a non-empty one. *)
Definition ustr_or (x d : ustring) : ustring := match x with [] => d | _ => x end.

(** What one review card shows (lines 266-336): its link, the video id
    ([null] for a search link), whether it plays, the embedded player,
    the thumbnail, the channel line and the remove button. *)
Record ReviewCard := mkReviewCard {
  rc_url : ustring;
  rc_videoId : option ustring;
  rc_playing : bool;
  rc_embed : option ustring;
  rc_thumbnail : ustring;
  rc_channel : ustring;
  rc_removable : bool
}.

(** [`https://www.youtube.com/embed/${videoId}?autoplay=1`] (line 296). *)
Definition embed_url (vid : ustring) : ustring :=
  u "https://www.youtube.com/embed/" ++ vid ++ u "?autoplay=1".

Definition review_card (car : CarStaticData) (s : ModalState) (item : Review * bool) : ReviewCard :=
  let '(r, isUser) := item in
  let search := isSearchLink (url r) in
  let videoId := if search then None else extractYoutubeId (url r) in
  let vid := match videoId with Some v => ustr_or v (url r) | None => url r end in
  let playing := bool_decide (playingVideo s = Some vid) in
  let thumb := ustr_or (thumbnail r)
                 (match videoId with Some ((_ :: _) as v) => getYoutubeThumbnail v | _ => image car end) in
  mkReviewCard (url r) videoId playing
    (match videoId with Some ((_ :: _) as v) => if playing then Some (embed_url v) else None | _ => None end)
    thumb (if isUser then channel r ++ u " (Moje)" else channel r) isUser.

(** The content of the active tab (lines 133-435).  The info tab lists
    each bazaar's name with [generateUrl(car, searchParams)]; the reviews
    tab its cards, or, with no item at all, a YouTube search for
    [`${make} ${model} review cz`] (lines 340-352); the finance tab each
    bank with its rate and [Math.round(calculateMonthly(rate))]; the
    insurance tab each offer. *)
Inductive TabContent :=
  | info_tab (links : list (ustring * option ustring))
  | reviews_tab (cards : list ReviewCard)
  | reviews_empty (search : option ustring)
  | finance_tab (rows : list (ustring * Q * option Z))
  | insurance_tab (rows : list (ustring * ustring * ustring)).

(** The bazaar links of the info tab (lines 222-235). *)
Definition info_links (car : CarStaticData) (s : ModalState) : list (ustring * option ustring) :=
  map (fun g => (name g, generateUrl g car (Some (searchParams s)))) BazaarLinks.

(** The reviews tab (lines 263-353). *)
Definition reviews_content (car : CarStaticData) (s : ModalState) : TabContent :=
  match review_objects car s with
  | [] => reviews_empty (option_map (fun q => u "https://www.youtube.com/results?search_query=" ++ q)
                          (encodeURIComponent (make car ++ u " " ++ model car ++ u " review cz")))
  | items => reviews_tab (map (review_card car s) items)
  end.

(** The bank rows of the finance tab (lines 392-406). *)
Definition bank_rows (car : CarStaticData) (s : ModalState) : list (ustring * Q * option Z) :=
  map (fun b => (bank_name b, rate b, monthly_shown (rate b) s)) (financing car).

(** The offers of the insurance tab (lines 415-430). *)
Definition insurance_rows (car : CarStaticData) : list (ustring * ustring * ustring) :=
  map (fun i => (provider i, description i, insurance_link i)) (insurance car).

Definition modal_content (car : CarStaticData) (s : ModalState) : TabContent :=
  match activeTab s with
  | tab_info => info_tab (info_links car s)
  | tab_reviews => reviews_content car s
  | tab_finance => finance_tab (bank_rows car s)
  | tab_insurance => insurance_tab (insurance_rows car)
  end.

(** ** The user's videos *)

Lemma userVideos_set_videos vs s : userVideos (set_videos vs s) = vs.
Proof. reflexivity. Qed.
Lemma userVideos_set_storage st s : userVideos (set_storage st s) = userVideos s.
Proof. reflexivity. Qed.
Lemma userVideos_set_new_video x s : userVideos (set_new_video x s) = userVideos s.
Proof. reflexivity. Qed.
Lemma storage_set_videos vs s : storage (set_videos vs s) = storage s.
Proof. reflexivity. Qed.
Lemma storage_set_storage st s : storage (set_storage st s) = st.
Proof. reflexivity. Qed.
Lemma storage_set_new_video x s : storage (set_new_video x s) = storage s.
Proof. reflexivity. Qed.

Create Rewrite HintDb modal_rw.
#[export] Hint Rewrite userVideos_set_videos userVideos_set_storage userVideos_set_new_video
  storage_set_videos storage_set_storage storage_set_new_video : modal_rw.

Lemma set_videos_same s : set_videos (userVideos s) s = s.
Proof. now destruct s. Qed.

Lemma map_filter_comm {A B} (f : A -> B) (g : B -> bool) l :
  map f (List.filter (fun x => g (f x)) l) = List.filter g (map f l).
Proof. induction l as [|x l IH]; cbn; [reflexivity|]. destruct (g (f x)); cbn; now rewrite IH. Qed.

Lemma handleAddVideo_wf car s : videos_wf car s -> videos_wf car (fst (handleAddVideo car s)).
Proof.
  unfold handleAddVideo. intros Hw. destruct (utrim (newVideoUrl s)); [exact Hw|].
  destruct (extractYoutubeId (newVideoUrl s)) as [vid|] eqn:Hx; [|exact Hw].
  destruct (existsb _ (userVideos s)) eqn:Hu; [exact Hw|].
  destruct (existsb _ (youtubeReviews car)) eqn:Hr; [exact Hw|].
  cbn [orb fst]. unfold videos_wf. autorewrite with modal_rw.
  destruct Hw as (_ & Hnd & Hyt & Hrev). split; [left; apply lookup_insert_eq|].
  rewrite map_app. cbn [map video_url]. split; [|split].
  - apply NoDup_app. split; [exact Hnd|]. split; [|apply NoDup_singleton].
    intros x Hx1 Hx2. apply list_elem_of_singleton in Hx2 as ->.
    apply list_elem_of_In, in_map_iff in Hx1 as (v & Hvu & Hv).
    assert (Hin : existsb (fun v => bool_decide (video_url v = newVideoUrl s)) (userVideos s) = true)
      by (apply existsb_exists; exists v; split; [exact Hv|now apply bool_decide_eq_true]).
    congruence.
  - apply Forall_app. split; [exact Hyt|]. repeat constructor. cbn. congruence.
  - apply Forall_app. split; [exact Hrev|]. repeat constructor. cbn. intros (r & Hr' & Hin)%in_map_iff.
    assert (Hin' : existsb (fun r => bool_decide (url r = newVideoUrl s)) (youtubeReviews car) = true)
      by (apply existsb_exists; exists r; split; [exact Hin|now apply bool_decide_eq_true]).
    congruence.
Qed.

Lemma handleRemoveVideo_wf car x s : videos_wf car s -> videos_wf car (handleRemoveVideo car x s).
Proof.
  intros (_ & Hnd & Hyt & Hrev). unfold handleRemoveVideo, videos_wf.
  autorewrite with modal_rw. split; [left; apply lookup_insert_eq|].
  split; [|split].
  - pose proof (map_filter_comm video_url (fun y => negb (bool_decide (y = x))) (userVideos s)) as E.
    cbv beta in E. rewrite E. apply NoDup_ListNoDup, List.NoDup_filter, NoDup_ListNoDup, Hnd.
  - apply List.Forall_forall. intros v (Hv & _)%filter_In. exact (proj1 (List.Forall_forall _ _) Hyt v Hv).
  - apply List.Forall_forall. intros v (Hv & _)%filter_In. exact (proj1 (List.Forall_forall _ _) Hrev v Hv).
Qed.

Lemma load_videos_wf car s : videos_wf car s -> load_videos car s = s.
Proof.
  intros ([Hs|[Hs Hv]] & _); unfold load_videos; rewrite Hs; [|rewrite <- Hv]; apply set_videos_same.
Qed.

Lemma modal_step_wf car ev s : videos_wf car s -> videos_wf car (fst (modal_step car ev s)).
Proof.
  intros Hw. destruct ev; cbn [modal_step fst]; try exact Hw.
  - apply handleAddVideo_wf, Hw.
  - apply handleRemoveVideo_wf, Hw.
  - unfold videoClick. destruct (isSearchLink url); [exact Hw|]. destruct (extractYoutubeId url); exact Hw.
  - now rewrite load_videos_wf.
Qed.

Lemma run_modal_preserves car evs s : videos_wf car s -> videos_wf car (run_modal car evs s).
Proof.
  revert s. induction evs as [|ev evs IH]; intros s Hw; [exact Hw|]. cbn. apply IH. now apply modal_step_wf.
Qed.

(** (C8) Every sequence of events keeps the user's videos well formed:
    the [localStorage] entry holds exactly the list shown, no two videos
    share a URL, each is a link [extractYoutubeId] accepts, and none is the
    URL of a built-in review. *)
Theorem run_modal_wf car evs s : videos_wf car s -> videos_wf car (run_modal car evs s).
Proof. apply run_modal_preserves. Qed.

(** Round trip through [localStorage]: whatever the user did, a
    modal opened afresh on the same storage shows the same videos. *)
Theorem reopen_shows_saved_videos car evs s :
  videos_wf car s ->
  userVideos (load_videos car (initial_modal car (storage (run_modal car evs s))))
  = userVideos (run_modal car evs s).
Proof.
  intros Hw. destruct (run_modal_preserves car evs s Hw) as ([Hs|[Hs Hv]] & _);
    unfold load_videos; cbn [storage initial_modal]; rewrite Hs; [reflexivity|exact (eq_sym Hv)].
Qed.



(** ** The loan calculator *)

Local Open Scope Q_scope.

(** The balance after [k] monthly payments [M] at the monthly rate [r]. *)
Definition balance (L r M : Q) (k : nat) : Q := Nat.iter k (fun b => b * (1 + r) - M) L.

Lemma qpow_succ x k : Qpower x (Z.of_nat (S k)) == Qpower x (Z.of_nat k) * x.
Proof.
  rewrite Nat2Z.inj_succ, <- Z.add_1_r, Qpower_plus' by lia. reflexivity.
Qed.

Lemma balance_closed L r M k :
  ~ r == 0 ->
  balance L r M k == L * Qpower (1 + r) (Z.of_nat k) - M * (Qpower (1 + r) (Z.of_nat k) - 1) / r.
Proof.
  intros Hr. induction k as [|k IH].
  - change (balance L r M 0) with L. change (Qpower (1 + r) (Z.of_nat 0)) with 1.
    field. exact Hr.
  - change (balance L r M (S k)) with (balance L r M k * (1 + r) - M).
    rewrite IH, qpow_succ. field. exact Hr.
Qed.

Lemma monthly_rate_pos rate : 0 < rate -> 0 < rate / 100 / 12.
Proof. intros H. unfold Qdiv. apply Qmult_lt_0_compat; [apply Qmult_lt_0_compat|]; easy. Qed.

Lemma loan_power_gt1 rate s :
  0 < rate -> (1 <= years s)%Z -> 1 < Qpower (1 + rate / 100 / 12) (years s * 12).
Proof.
  intros Hr Hy. apply Qpower_1_lt; [|lia].
  pose proof (monthly_rate_pos rate Hr). lra.
Qed.

Lemma calculateMonthly_pos rate s :
  0 < rate -> (1 <= years s)%Z ->
  calculateMonthly rate s
  = Some (loanAmount s * (rate / 100 / 12) * Qpower (1 + rate / 100 / 12) (years s * 12)
          / (Qpower (1 + rate / 100 / 12) (years s * 12) - 1)).
Proof.
  intros Hr Hy. pose proof (loan_power_gt1 rate s Hr Hy) as Hp. unfold calculateMonthly.
  destruct (Qeq_bool _ 0) eqn:E; [|reflexivity].
  apply Qeq_bool_iff in E. lra.
Qed.

(** (C9) With a positive rate and a term of at least a year, the page
    shows a monthly payment, and paying it [years * 12] times pays the loan
    off exactly. *)
Theorem loan_amortises rate s :
  0 < rate -> (1 <= years s)%Z ->
  exists M, calculateMonthly rate s = Some M /\
            balance (loanAmount s) (rate / 100 / 12) M (Z.to_nat (years s * 12)) == 0.
Proof.
  intros Hr Hy. eexists. split; [apply calculateMonthly_pos; assumption|].
  pose proof (monthly_rate_pos rate Hr) as Hr'. pose proof (loan_power_gt1 rate s Hr Hy) as Hp.
  assert (Hr0 : ~ rate / 100 / 12 == 0) by (intros E; lra).
  rewrite balance_closed, Z2Nat.id by (lia || exact Hr0).
  field. split; intros E; lra.
Qed.

(** At a zero rate [calculateMonthly] divides zero by zero: the page
    shows [NaN Kč]. *)
Theorem zero_rate_nan s : calculateMonthly 0 s = None.
Proof.
  unfold calculateMonthly.
  assert (E : Qpower (1 + 0 / 100 / 12) (years s * 12) == 1)
    by (transitivity (Qpower 1 (years s * 12)); [apply Qpower_comp; reflexivity|apply Qpower_1]).
  replace (Qeq_bool _ 0) with true; [reflexivity|].
  symmetry. apply Qeq_bool_iff. rewrite E. reflexivity.
Qed.

Lemma qpow_ge1 r k : 0 <= r -> 1 <= Qpower (1 + r) (Z.of_nat k).
Proof.
  intros Hr. induction k as [|k IH]; [change (Qpower (1 + r) (Z.of_nat 0)) with 1; lra|].
  rewrite qpow_succ. nra.
Qed.

(** Bernoulli's inequality in the form the bound below needs. *)
Lemma qpow_bernoulli r k :
  0 <= r -> Qpower (1 + r) (Z.of_nat k) - 1 <= inject_Z (Z.of_nat k) * r * Qpower (1 + r) (Z.of_nat k).
Proof.
  intros Hr. induction k as [|k IH].
  - change (Qpower (1 + r) (Z.of_nat 0)) with 1. change (inject_Z (Z.of_nat 0)) with 0. lra.
  - rewrite qpow_succ, Nat2Z.inj_succ, <- Z.add_1_r, inject_Z_plus. change (inject_Z 1) with 1.
    pose proof (qpow_ge1 r k Hr) as Ha. set (a := Qpower (1 + r) (Z.of_nat k)) in *.
    assert (0 <= inject_Z (Z.of_nat k)) by (change 0 with (inject_Z 0); rewrite <- Zle_Qle; lia).
    assert (1 <= a * (1 + r)) by nra. nra.
Qed.

(** The interest is never negative: with a positive rate, a term of
    at least a year and a non-negative loan, the [years * 12] payments the
    page shows add up to at least the loan. *)
Theorem payments_cover_loan rate s :
  0 < rate -> (1 <= years s)%Z -> 0 <= loanAmount s ->
  exists M, calculateMonthly rate s = Some M /\ loanAmount s <= M * inject_Z (years s * 12).
Proof.
  intros Hr Hy HL. eexists. split; [apply calculateMonthly_pos; assumption|].
  pose proof (monthly_rate_pos rate Hr) as Hr'. pose proof (loan_power_gt1 rate s Hr Hy) as Hp.
  pose proof (qpow_bernoulli (rate / 100 / 12) (Z.to_nat (years s * 12)) ltac:(lra)) as Hb.
  rewrite Z2Nat.id in Hb by lia.
  set (r := rate / 100 / 12) in *. set (n := inject_Z (years s * 12)) in *.
  set (p := Qpower (1 + r) (years s * 12)) in *. set (L := loanAmount s) in *.
  assert (E : L * r * p / (p - 1) * n - L == L * (n * r * p - (p - 1)) / (p - 1))
    by (field; intros E; lra).
  assert (0 <= L * (n * r * p - (p - 1)) / (p - 1)) by (apply Qle_shift_div_l; [lra|nra]).
  lra.
Qed.

(** ** The rendered tabs *)

Lemma review_card_embed car s item e :
  rc_embed (review_card car s item) = Some e ->
  exists v, playingVideo s = Some v /\ rc_videoId (review_card car s item) = Some v /\ e = embed_url v.
Proof.
  destruct item as [r isUser]. unfold review_card.
  destruct (isSearchLink (url r)); cbn [rc_embed rc_videoId]; [discriminate|].
  destruct (extractYoutubeId (url r)) as [[|x v]|]; cbn [rc_embed rc_videoId ustr_or]; try discriminate.
  case_bool_decide as Hp; [intros [= <-]|discriminate]. eauto.
Qed.

(** The links of the user's videos are no search links. *)
Lemma recognised_not_search url vid : extractYoutubeId url = Some vid -> isSearchLink url = false.
Proof.
  intros (_ & H)%extractYoutubeId_some. unfold isSearchLink.
  destruct (uincludes (u "/results?search_query=") url) eqn:E; [|reflexivity].
  assert (E' : uincludes (u "/results?" ++ u "search_query=")%list url = true) by exact E.
  rewrite (uincludes_app_l _ _ _ E') in H. discriminate.
Qed.

Lemma user_card_shape car s v :
  extractYoutubeId (video_url v) <> None ->
  exists vid, rc_videoId (review_card car s (mkReview (video_title v) (video_url v) [] (u "Uživatel"), true)) = Some vid
    /\ rc_thumbnail (review_card car s (mkReview (video_title v) (video_url v) [] (u "Uživatel"), true)) = getYoutubeThumbnail vid
    /\ rc_removable (review_card car s (mkReview (video_title v) (video_url v) [] (u "Uživatel"), true)) = true.
Proof.
  destruct (extractYoutubeId (video_url v)) as [vid|] eqn:E; [intros _|congruence].
  pose proof (proj1 (extractYoutubeId_some _ _ E)) as Hl.
  unfold review_card. cbn [url thumbnail channel]. rewrite (recognised_not_search _ _ E), E.
  destruct vid as [|x w]; [discriminate|]. cbn [rc_videoId rc_thumbnail rc_removable thumbnail ustr_or]. eauto.
Qed.

Lemma modal_content_reviews car s cards :
  modal_content car s = reviews_tab cards -> cards = map (review_card car s) (review_objects car s).
Proof. unfold modal_content, reviews_content. destruct (activeTab s); try discriminate. destruct (review_objects car s); congruence. Qed.

(** Every bank of the catalog lends at a positive rate. *)
Lemma catalog_rates_pos : Forall (fun c => Forall (fun b => 0 < rate b) (financing c)) CARS_DATA.
Proof.
  assert (H : forallb (fun c => forallb (fun b => negb (Qle_bool (rate b) 0)) (financing c)) CARS_DATA = true)
    by (vm_compute; reflexivity).
  apply List.Forall_forall. intros c Hc. apply List.Forall_forall. intros b Hb.
  pose proof (proj1 (forallb_forall _ _) H c Hc) as Hc'. pose proof (proj1 (forallb_forall _ _) Hc' b Hb) as Hb'.
  apply negb_true_iff in Hb'. apply Qnot_le_lt. intros Hle. apply Qle_bool_iff in Hle. congruence.
Qed.

(** (C32) Every video player of the reviews tab plays the video whose id
    is [playingVideo] (lines 268 and 294-296): the players compare ids,
    so all cards that show a player show the same video. *)
Theorem playing_cards_same_video car s cards c1 c2 e1 e2 :
  modal_content car s = reviews_tab cards -> In c1 cards -> In c2 cards ->
  rc_embed c1 = Some e1 -> rc_embed c2 = Some e2 ->
  e1 = e2 /\ rc_videoId c1 = rc_videoId c2 /\ exists v, playingVideo s = Some v /\ e1 = embed_url v.
Proof.
  intros ->%modal_content_reviews.
  intros (i1 & <- & _)%in_map_iff (i2 & <- & _)%in_map_iff
         (v1 & P1 & I1 & ->)%review_card_embed (v2 & P2 & I2 & ->)%review_card_embed.
  rewrite P1 in P2. injection P2 as <-. rewrite I1, I2. eauto.
Qed.

(** With the user's videos well formed, each card of a user video
    in the reviews tab has its video id, the YouTube thumbnail of that id
    (never the car's picture) and the remove button (lines 269-281). *)
Theorem user_cards_have_thumbnails car s cards c :
  videos_wf car s -> modal_content car s = reviews_tab cards -> In c cards -> rc_removable c = true ->
  exists vid, rc_videoId c = Some vid /\ rc_thumbnail c = getYoutubeThumbnail vid.
Proof.
  intros (_ & _ & Hyt & _) ->%modal_content_reviews (i & <- & Hi)%in_map_iff.
  unfold review_objects in Hi. apply in_app_or in Hi as [(r & <- & _)%in_map_iff|(v & <- & Hv)%in_map_iff].
  - unfold review_card. destruct (isSearchLink (url r)), (extractYoutubeId (url r)); discriminate.
  - intros _. destruct (user_card_shape car s v) as (vid & H1 & H2 & _); [exact (proj1 (List.Forall_forall _ _) Hyt v Hv)|].
    eauto.
Qed.

(** (C12) The finance tab shows a monthly payment, never [NaN], for every
    bank of every catalog car, whatever the loan, for every term the
    slider allows (at least one year, line 382). *)
Theorem finance_rows_shown car s :
  In car CARS_DATA -> (1 <= years s)%Z -> activeTab s = tab_finance ->
  exists rows, modal_content car s = finance_tab rows /\ List.length rows = List.length (financing car) /\
    Forall (fun row => snd row <> None) rows.
Proof.
  intros Hc Hy Ht. unfold modal_content. rewrite Ht. eexists. split; [reflexivity|].
  unfold bank_rows. rewrite length_map. split; [reflexivity|]. apply Forall_map.
  pose proof (proj1 (List.Forall_forall _ _) catalog_rates_pos car Hc) as Hr.
  eapply Forall_impl; [exact Hr|]. intros b Hb. cbn. unfold monthly_shown.
  rewrite (calculateMonthly_pos _ _ Hb Hy). discriminate.
Qed.

(** ** Fixtures and witnesses *)

Lemma initial_modal_wf car : videos_wf car (initial_modal car ∅).
Proof.
  split; [right; split; [apply lookup_empty|reflexivity]|].
  split; [constructor|split; constructor].
Qed.

(** The duplicate check compares raw URLs: the short link to a video
    that is already one of the car's built-in reviews is accepted and
    stored as a user video, and the video is listed twice. *)
Example same_video_added_twice :
  let s := set_new_video (u "https://youtu.be/l9vOJYcqSXs") (initial_modal enyaq ∅) in
  In (u "https://www.youtube.com/watch?v=l9vOJYcqSXs") (map url (youtubeReviews enyaq)) /\
  extractYoutubeId (u "https://www.youtube.com/watch?v=l9vOJYcqSXs") = extractYoutubeId (newVideoUrl s) /\
  (handleAddVideo enyaq s).2 = [] /\
  map video_url (userVideos (handleAddVideo enyaq s).1) = [u "https://youtu.be/l9vOJYcqSXs"].
Proof. vm_compute. split; [left; reflexivity|repeat split]. Qed.

Definition modal_session : list ModalEvent :=
  [ev_video_input (u "https://youtu.be/abcdefghijk"); ev_add_video; ev_add_video;
   ev_video_input (u "https://www.youtube.com/watch?v=ABCDEFGHIJK"); ev_add_video;
   ev_remove_video (u "https://youtu.be/abcdefghijk"); ev_reload].

Lemma run_modal_wf_witness :
  videos_wf enyaq (initial_modal enyaq ∅) /\ videos_wf enyaq (run_modal enyaq modal_session (initial_modal enyaq ∅)).
Proof. split; [apply initial_modal_wf|apply run_modal_wf, initial_modal_wf]. Defined.

Lemma reopen_shows_saved_videos_witness :
  videos_wf enyaq (initial_modal enyaq ∅) /\
  userVideos (load_videos enyaq (initial_modal enyaq (storage (run_modal enyaq modal_session (initial_modal enyaq ∅)))))
  = userVideos (run_modal enyaq modal_session (initial_modal enyaq ∅)).
Proof. split; [apply initial_modal_wf|apply reopen_shows_saved_videos, initial_modal_wf]. Defined.

Lemma loan_amortises_witness :
  (0 < 9 # 2 /\ (1 <= years (initial_modal enyaq ∅))%Z) /\
  exists M, calculateMonthly (9 # 2) (initial_modal enyaq ∅) = Some M /\
            balance (loanAmount (initial_modal enyaq ∅)) ((9 # 2) / 100 / 12) M
                    (Z.to_nat (years (initial_modal enyaq ∅) * 12)) == 0.
Proof. split; [split; [reflexivity|discriminate]|apply loan_amortises; [reflexivity|discriminate]]. Defined.

Lemma payments_cover_loan_witness :
  (0 < 9 # 2 /\ (1 <= years (initial_modal enyaq ∅))%Z /\ 0 <= loanAmount (initial_modal enyaq ∅)) /\
  exists M, calculateMonthly (9 # 2) (initial_modal enyaq ∅) = Some M /\
            loanAmount (initial_modal enyaq ∅) <= M * inject_Z (years (initial_modal enyaq ∅) * 12).
Proof.
  split; [split; [reflexivity|split; [discriminate|vm_compute; discriminate]]|].
  apply payments_cover_loan; [reflexivity|discriminate|vm_compute; discriminate].
Defined.

(** The short link of a built-in review added as a user video, and a
    click on the built-in review's thumbnail: two players start. *)
Example two_players_same_video :
  let s0 := fst (handleAddVideo enyaq (set_new_video (u "https://youtu.be/l9vOJYcqSXs") (initial_modal enyaq ∅))) in
  let s := run_modal enyaq [ev_tab tab_reviews; ev_video_click (u "https://www.youtube.com/watch?v=l9vOJYcqSXs")] s0 in
  match modal_content enyaq s with
  | reviews_tab cards => List.length (List.filter (fun c => match rc_embed c with Some _ => true | None => false end) cards) = 2%nat
  | _ => False
  end.
Proof. vm_compute. reflexivity. Qed.

Lemma playing_cards_same_video_witness :
  let s0 := fst (handleAddVideo enyaq (set_new_video (u "https://youtu.be/l9vOJYcqSXs") (initial_modal enyaq ∅))) in
  let s := run_modal enyaq [ev_tab tab_reviews; ev_video_click (u "https://www.youtube.com/watch?v=l9vOJYcqSXs")] s0 in
  exists cards c, modal_content enyaq s = reviews_tab cards /\ In c cards /\ rc_embed c = Some (embed_url (u "l9vOJYcqSXs")) /\
    (embed_url (u "l9vOJYcqSXs") = embed_url (u "l9vOJYcqSXs") /\ rc_videoId c = rc_videoId c /\
     exists v, playingVideo s = Some v /\ embed_url (u "l9vOJYcqSXs") = embed_url v).
Proof.
  cbv zeta. set (s := run_modal _ _ _).
  destruct (modal_content enyaq s) as [| cards | | |] eqn:E; try (vm_compute in E; discriminate).
  assert (Hc : exists c, In c cards /\ rc_embed c = Some (embed_url (u "l9vOJYcqSXs"))).
  { vm_compute in E. injection E as <-. eexists. split; [left; reflexivity|vm_compute; reflexivity]. }
  destruct Hc as (c & Hin & He). exists cards, c. do 3 (split; [first [reflexivity|assumption]|]).
  exact (playing_cards_same_video _ _ _ _ _ _ _ E Hin Hin He He).
Defined.

Lemma user_cards_have_thumbnails_witness :
  let s := run_modal enyaq (ev_tab tab_reviews :: modal_session) (initial_modal enyaq ∅) in
  videos_wf enyaq s /\
  exists cards c, modal_content enyaq s = reviews_tab cards /\ In c cards /\ rc_removable c = true /\
    exists vid, rc_videoId c = Some vid /\ rc_thumbnail c = getYoutubeThumbnail vid.
Proof.
  cbv zeta. set (s := run_modal _ _ _).
  assert (Hwf : videos_wf enyaq s) by (apply run_modal_preserves, initial_modal_wf).
  split; [exact Hwf|].
  destruct (modal_content enyaq s) as [| cards | | |] eqn:E; try (vm_compute in E; discriminate).
  assert (Hc : exists c, In c cards /\ rc_removable c = true).
  { vm_compute in E. injection E as <-. eexists. split; [right; right; left; reflexivity|reflexivity]. }
  destruct Hc as (c & Hin & Hr). exists cards, c. do 3 (split; [first [reflexivity|assumption]|]).
  exact (user_cards_have_thumbnails _ _ _ _ Hwf E Hin Hr).
Defined.

Lemma finance_rows_shown_witness :
  (In enyaq CARS_DATA /\ (1 <= years (fst (modal_step enyaq (ev_tab tab_finance) (initial_modal enyaq ∅))))%Z /\
   activeTab (fst (modal_step enyaq (ev_tab tab_finance) (initial_modal enyaq ∅))) = tab_finance) /\
  exists rows, modal_content enyaq (fst (modal_step enyaq (ev_tab tab_finance) (initial_modal enyaq ∅))) = finance_tab rows /\
    List.length rows = List.length (financing enyaq) /\ Forall (fun row => snd row <> None) rows.
Proof.
  assert (H : In enyaq CARS_DATA) by (left; reflexivity).
  split; [split; [exact H|split; [discriminate|reflexivity]]|].
  apply finance_rows_shown; [exact H|discriminate|reflexivity].
Defined.

